(** * Intelligent Excel Parser: header classification, mapping, value
      normalisation, validation and report assembly

    A shallow embedding of [app/registries.py], [app/models.py],
    [app/llm_agent.py], [app/value_parser.py] and [app/parser.py], followed by
    the properties of the specification that were checked against it and by
    further properties of the code.

    Conventions of the embedding.
    - Python [str] is [string], one [ascii] for each character. The texts
      are those of the ASCII range: there the length, the case methods and
      the whitespace that [strip] removes are those of Python. A character
      above the range is left as it is and is no whitespace.
    - Python [float] is the kernel's binary64 [float]; Python [int] is [Z].
    - [str(n)] of an [int] raises [ValueError] above 4300 decimal digits, the
      default limit of the interpreter from CPython 3.11 on.
    - The similarity score of the fuzzy matcher ([int / int]) is kept as the
      exact rational it rounds; binary64 rounding is monotone and fixes 0 and 1.
    - An f-string that interpolates a float is kept as its pieces ([fstring]),
      the float unrendered; [render] turns it into text once a [repr] is given.
    - A raised exception is a value of [exn]; code that may raise lives in
      [result].
    - What the program gets from outside (the [float] parser of the
      interpreter, [repr], [re.search], the Gemini client, [json.loads],
      pydantic's validation) is a field of the class [Outside]. *)

From Stdlib Require Import ZArith List String Ascii Bool Lia QArith Sorted.
From Stdlib Require Import Floats DecimalString.
Import ListNotations.

Close Scope Q_scope.
Open Scope list_scope.
Open Scope string_scope.

(* ================================================================= *)
(** ** Python strings *)

Module Str.

Definition is_upper (c : ascii) : bool :=
  let n := nat_of_ascii c in Nat.leb 65 n && Nat.leb n 90.

Definition is_lower (c : ascii) : bool :=
  let n := nat_of_ascii c in Nat.leb 97 n && Nat.leb n 122.

Definition lower_char (c : ascii) : ascii :=
  if is_upper c then ascii_of_nat (nat_of_ascii c + 32) else c.

Definition upper_char (c : ascii) : ascii :=
  if is_lower c then ascii_of_nat (nat_of_ascii c - 32) else c.

(** [s.lower()] and [s.upper()] *)
Fixpoint lower (s : string) : string :=
  match s with
  | EmptyString => EmptyString
  | String c s' => String (lower_char c) (lower s')
  end.

Fixpoint upper (s : string) : string :=
  match s with
  | EmptyString => EmptyString
  | String c s' => String (upper_char c) (upper s')
  end.

(** The characters [str.strip()] removes: TAB, LF, VT, FF, CR, FS, GS, RS,
    US and the space. *)
Definition is_space (c : ascii) : bool :=
  let n := nat_of_ascii c in
  (Nat.leb 9 n && Nat.leb n 13) || (Nat.leb 28 n && Nat.leb n 32).

Fixpoint lstrip (s : string) : string :=
  match s with
  | EmptyString => EmptyString
  | String c s' => if is_space c then lstrip s' else s
  end.

Fixpoint rstrip (s : string) : string :=
  match s with
  | EmptyString => EmptyString
  | String c s' =>
      match rstrip s' with
      | EmptyString => if is_space c then EmptyString else String c EmptyString
      | r => String c r
      end
  end.

(** [s.strip()] *)
Definition strip (s : string) : string := rstrip (lstrip s).

(** [sub in s] *)
Fixpoint contains (sub s : string) : bool :=
  String.prefix sub s ||
  match s with
  | EmptyString => false
  | String _ s' => contains sub s'
  end.

(** [s.startswith(p)] *)
Definition startswith (p s : string) : bool := String.prefix p s.

(** [c in s] for a single character [c] *)
Fixpoint char_in (c : ascii) (s : string) : bool :=
  match s with
  | EmptyString => false
  | String d s' => Ascii.eqb c d || char_in c s'
  end.

(** [sum(1 for c in shorter if c in longer)] *)
Fixpoint count_chars_in (shorter longer : string) : nat :=
  match shorter with
  | EmptyString => 0
  | String c s' =>
      (if char_in c longer then 1 else 0) + count_chars_in s' longer
  end.

(** [s.replace(c, "")] for a single character [c] *)
Fixpoint remove_char (c : ascii) (s : string) : string :=
  match s with
  | EmptyString => EmptyString
  | String d s' =>
      if Ascii.eqb c d then remove_char c s' else String d (remove_char c s')
  end.

(** [x in [a, b, ...]] on strings *)
Definition mem (x : string) (l : list string) : bool :=
  existsb (String.eqb x) l.

(** [str(n)] for an [int], when the conversion returns (see [str_raises]) *)
Definition of_Z (z : Z) : string := NilEmpty.string_of_int (Z.to_int z).
Definition of_nat (n : nat) : string := NilEmpty.string_of_uint (Nat.to_uint n).

(** [str(b)] for a [bool] *)
Definition of_bool (b : bool) : string := if b then "True" else "False".

End Str.

(* ================================================================= *)
(** ** Python values, exceptions, f-strings *)

Inductive exn : Type :=
| ValueError
| OverflowError
| KeyError
| JSONDecodeError
| AttributeError
| ValidationError
| ClientError (what : string).

Definition result (A : Type) : Type := (exn + A)%type.

Definition ret {A : Type} (a : A) : result A := inr a.
Definition raise {A : Type} (e : exn) : result A := inl e.
Definition bind {A B : Type} (m : result A) (k : A -> result B) : result B :=
  match m with
  | inl e => inl e
  | inr a => k a
  end.

Notation "x <- m ;; k" := (bind m (fun x => k))
  (at level 61, m at next level, right associativity).

(** [try: body  except Exception: handler] *)
Definition try_except {A : Type} (body : result A) (handler : exn -> result A)
  : result A :=
  match body with
  | inl e => handler e
  | inr a => inr a
  end.

(** A cell of the grid as the reader delivers it: [None], a [bool], an
    [int], a [float] or a [str]. *)
Inductive pyval : Type :=
| PyNone
| PyBool (b : bool)
| PyInt (n : Z)
| PyFloat (x : float)
| PyStr (s : string).

(** [float(n)] for an [int]: round to nearest even. *)
Definition float_of_Z (z : Z) : float :=
  SF2Prim (binary_normalize prec emax z 0 false).

(** [float(n)] raises [OverflowError] when the integer is beyond the
    binary64 range. *)
Definition float_of_int (z : Z) : result float :=
  let x := float_of_Z z in
  if PrimFloat.is_infinity x then raise OverflowError else ret x.

Definition float_of_bool (b : bool) : float := if b then 1%float else 0%float.

(** Truth value of a cell ([if cell], [any(...)]). *)
Definition truthy (v : pyval) : bool :=
  match v with
  | PyNone => false
  | PyBool b => b
  | PyInt n => negb (Z.eqb n 0)
  | PyFloat x => negb (PrimFloat.eqb x 0)
  | PyStr s => negb (String.eqb s "")
  end.

(** [isinstance(v, (int, float))]; [bool] is a subclass of [int]. *)
Definition is_number (v : pyval) : bool :=
  match v with
  | PyBool _ | PyInt _ | PyFloat _ => true
  | _ => false
  end.

(** [v == s] for a string literal [s]. *)
Definition eq_str (v : pyval) (s : string) : bool :=
  match v with
  | PyStr t => String.eqb t s
  | _ => false
  end.

(** Pieces of an f-string: literal text, a float still to be rendered with
    [repr], a score still to be rendered with [:.2f]. *)
Inductive piece : Type :=
| Txt (s : string)
| Num (x : float)
| Fix2 (q : Q).

Definition fstring : Type := list piece.

(** JSON documents as [json.loads] returns them. *)
#[local] Unset Elimination Schemes.
Inductive json : Type :=
| JNull
| JBool (b : bool)
| JNum (x : float)
| JStr (s : string)
| JArr (l : list json)
| JObj (kv : list (string * json)).
#[local] Set Elimination Schemes.

(** What comes from outside the repository. *)
Class Outside : Type := {
  (** [float(s)] of the interpreter; [None] stands for [ValueError] *)
  float_of_str : string -> option float;
  (** [repr(x)], used by [str(x)] and by f-strings *)
  float_repr : float -> string;
  (** [format(q, ".2f")] *)
  format_2f : Q -> string;
  (** [re.search(r'[-+]?\d*\.?\d+', s)]: the matched text, if any *)
  search_number : string -> option string;
  (** the Gemini client, from the import to [response.text.strip()], for
      the prompt built around a header; the call is taken to end, with a
      text or with an exception *)
  generate_content : string -> result string;
  (** [json.loads] *)
  json_loads : string -> result json;
  (** pydantic's validation of a value given for a [str] field *)
  validate_str : json -> result string
}.

Definition render_piece `{Outside} (p : piece) : string :=
  match p with
  | Txt s => s
  | Num x => float_repr x
  | Fix2 q => format_2f q
  end.

Definition render `{Outside} (f : fstring) : string :=
  fold_right (fun p acc => render_piece p ++ acc) "" f.

(** [str(v)] *)
Definition str `{Outside} (v : pyval) : string :=
  match v with
  | PyNone => "None"
  | PyBool b => Str.of_bool b
  | PyInt n => Str.of_Z n
  | PyFloat x => float_repr x
  | PyStr s => s
  end.

(** [str(n)] raises [ValueError] for an [int] that has more decimal digits
    than the interpreter allows in a conversion: 4300 by default, from
    CPython 3.11 on. The sign does not count. *)
Definition int_max_str_digits : nat := 4300.

Definition str_raises (v : pyval) : bool :=
  match v with
  | PyInt n =>
      Nat.ltb int_max_str_digits (String.length (Str.of_Z (Z.abs n)))
  | _ => false
  end.

(* ================================================================= *)
(** ** app/registries.py *)

Module registries.

(** An entry of [PARAMETER_REGISTRY] (a dict with these seven keys). *)
Record ParamEntry : Type := mkParam {
  param_name : string;        (* "name" *)
  param_display_name : string;
  param_unit : string;
  param_category : string;
  param_section : string;
  param_aliases : list string;
  param_applicable_assets : list string
}.

(** An entry of [ASSET_REGISTRY]. *)
Record AssetEntry : Type := mkAsset {
  asset_name : string;        (* "name" *)
  asset_display_name : string;
  asset_type : string;
  asset_aliases : list string
}.

Definition PARAMETER_REGISTRY : list ParamEntry :=
  [ mkParam "coal_consumption" "Coal Consumption" "MT"
      "input" "COGEN BOILER"
      ["Coal Consumption"; "Coal Used"; "Coal (MT)"; "Daily Coal"; "Coal Used (MT)"; "COAL CONSMPTN"]
      ["AFBC-1"; "AFBC-2"];
    mkParam "coal_gcv" "Coal GCV" "kcal/kg"
      "input" "COGEN BOILER"
      ["Coal GCV"; "Coal Gross Calorific Value"; "GCV"; "COALCV"]
      ["AFBC-1"; "AFBC-2"];
    mkParam "steam_generation" "Steam Generation" "T/hr"
      "output" "COGEN BOILER"
      ["Steam"; "Steam Generated"; "Steam Generation"; "Steam (Boiler)"; "Steam Output"; "STEAM GEN"]
      ["AFBC-1"; "AFBC-2"];
    mkParam "steam_consumption" "Steam Consumption" "T/hr"
      "input" "COGEN BOILER"
      ["Steam Consumption"; "Steam Used"; "Steam Input"]
      ["AFBC-1"; "AFBC-2"];
    mkParam "power_generation" "Power Generation" "MWh"
      "output" "POWER PLANT"
      ["Power"; "Power Generated"; "Power Output"; "Power (MW)"; "Power Generation"; "Power TG"; "POWER GEN"]
      ["TG-1"; "TG-2"];
    mkParam "power_consumption" "Power Consumption" "MWh"
      "input" "POWER PLANT"
      ["Power Consumption"; "Power Used"; "Auxiliary Power Load"]
      ["TG-1"; "TG-2"];
    mkParam "power_export" "Power Export" "MWh"
      "output" "POWER PLANT"
      ["Power Export"; "Power Exported"; "Grid Export"]
      ["TG-1"; "TG-2"];
    mkParam "water_consumption" "Water Consumption" "KL"
      "input" "UTILITIES"
      ["Water"; "Water Consumption"; "Water Used"; "Water (KL)"]
      ["AFBC-1"; "AFBC-2"; "TG-1"; "TG-2"];
    mkParam "co2_emissions" "CO₂ Emissions" "tCO2e"
      "emission" "EMISSIONS"
      ["CO2 Emissions"; "CO2"; "Carbon Dioxide"]
      ["AFBC-1"; "AFBC-2"; "TG-1"; "TG-2"];
    mkParam "so2_emissions" "SO₂ Emissions" "kg"
      "emission" "EMISSIONS"
      ["SO2 Emissions"; "SO2"; "Sulfur Dioxide"]
      ["AFBC-1"; "AFBC-2"];
    mkParam "nox_emissions" "NOx Emissions" "kg"
      "emission" "EMISSIONS"
      ["NOx Emissions"; "NOx"; "Nitrogen Oxides"]
      ["AFBC-1"; "AFBC-2"];
    mkParam "fly_ash_generated" "Fly Ash Generated" "MT"
      "output" "WASTE"
      ["Fly Ash"; "Fly Ash Generated"; "Ash Output"]
      ["AFBC-1"; "AFBC-2"];
    mkParam "efficiency" "Boiler Efficiency" "%"
      "calculated" "COGEN BOILER"
      ["Efficiency"; "Plant Efficiency"; "Overall Efficiency"; "EFF %"; "Boiler Efficiency"]
      ["AFBC-1"; "AFBC-2"];
    mkParam "specific_coal_consumption" "Specific Coal Consumption" "kg/kWh"
      "calculated" "COGEN BOILER"
      ["Specific Coal Consumption"; "SCC"; "Coal Per Unit"]
      ["AFBC-1"; "AFBC-2"];
    mkParam "heat_rate" "Heat Rate" "kcal/kWh"
      "calculated" "POWER PLANT"
      ["Heat Rate"; "Heat Input Rate"; "HR"]
      ["TG-1"; "TG-2"];
    mkParam "plant_load_factor" "Plant Load Factor" "%"
      "calculated" "POWER PLANT"
      ["Plant Load Factor"; "PLF"; "Capacity Factor"]
      ["TG-1"; "TG-2"];
    mkParam "lignite_consumption" "Lignite Consumption" "MT"
      "input" "COGEN BOILER"
      ["Lignite"; "Lignite Consumption"; "Brown Coal"]
      ["AFBC-1"; "AFBC-2"];
    mkParam "biomass_consumption" "Biomass Consumption" "MT"
      "input" "COGEN BOILER"
      ["Biomass"; "Biomass Consumption"; "Bio-fuel"]
      ["AFBC-1"; "AFBC-2"];
    mkParam "production_output" "Production Output" "MT"
      "output" "PRODUCTION"
      ["Production"; "Output"; "Production Output"]
      ["VSF"];
    mkParam "operating_hours" "Operating Hours" "hrs"
      "input" "OPERATIONS"
      ["Operating Hours"; "Runtime"; "Hours"; "HOURS"; "Uptime"]
      ["AFBC-1"; "AFBC-2"; "TG-1"; "TG-2"; "VSF"] ].

Definition ASSET_REGISTRY : list AssetEntry :=
  [ mkAsset "AFBC-1" "AFBC Boiler 1" "boiler"
      ["AFBC-1"; "Boiler 1"; "AFBC 1"; "AFB1"];
    mkAsset "AFBC-2" "AFBC Boiler 2" "boiler"
      ["AFBC-2"; "Boiler 2"; "AFBC 2"; "AFB2"];
    mkAsset "TG-1" "Turbo Generator 1" "turbine"
      ["TG-1"; "TG1"; "Turbine 1"; "Generator 1"];
    mkAsset "TG-2" "Turbo Generator 2" "turbine"
      ["TG-2"; "TG2"; "Turbine 2"; "Generator 2"];
    mkAsset "VSF" "Viscose Staple Fiber" "product"
      ["VSF"; "Viscose Staple Fiber"; "Fiber"];
    mkAsset "KILN-1" "Rotary Kiln 1" "kiln"
      ["KILN-1"; "Kiln 1"; "Rotary Kiln 1"; "RK1"] ].

(** [get_parameter_by_name] *)
Definition get_parameter_by_name (name : string) : option ParamEntry :=
  find (fun p => String.eqb (param_name p) name) PARAMETER_REGISTRY.

(** [get_asset_by_name] *)
Definition get_asset_by_name (name : string) : option AssetEntry :=
  find (fun a => String.eqb (asset_name a) name) ASSET_REGISTRY.

(** [get_parameters_by_section] *)
Definition get_parameters_by_section (section : string) : list ParamEntry :=
  filter (fun p => String.eqb (param_section p) section) PARAMETER_REGISTRY.

(** [get_parameters_by_category] *)
Definition get_parameters_by_category (category : string)
  : list ParamEntry :=
  filter (fun p => String.eqb (param_category p) category) PARAMETER_REGISTRY.

(** [get_parameters_for_asset] *)
Definition get_parameters_for_asset (asset : string) : list ParamEntry :=
  filter (fun p => Str.mem asset (param_applicable_assets p))
         PARAMETER_REGISTRY.

(** [get_assets_by_type] *)
Definition get_assets_by_type (type : string) : list AssetEntry :=
  filter (fun a => String.eqb (asset_type a) type) ASSET_REGISTRY.

(** [get_all_parameter_names] and [get_all_asset_names] *)
Definition get_all_parameter_names : list string :=
  map param_name PARAMETER_REGISTRY.

Definition get_all_asset_names : list string :=
  map asset_name ASSET_REGISTRY.

(** [validate_parameter_for_asset] *)
Definition validate_parameter_for_asset (name asset : string) : bool :=
  match get_parameter_by_name name with
  | None => false
  | Some param => Str.mem asset (param_applicable_assets param)
  end.

(** [get_parameter_unit] *)
Definition get_parameter_unit (name : string) : option string :=
  match get_parameter_by_name name with
  | Some param => Some (param_unit param)
  | None => None
  end.

End registries.

(* ================================================================= *)
(** ** app/models.py *)

Module models.

Record MappingResult : Type := mkMappingResult {
  m_header : string;
  m_param_name : option string;
  m_asset_name : option string;
  m_confidence : string;        (* "high", "medium", "low" *)
  m_reason : fstring
}.

Record ParsedCell : Type := mkParsedCell {
  c_row : nat;
  c_col : nat;
  c_param_name : string;
  c_asset_name : option string;
  c_raw_value : pyval;
  c_parsed_value : option float;
  c_confidence : string;
  c_notes : option string
}.

Record UnmappedColumn : Type := mkUnmappedColumn {
  u_col : nat;
  u_header : string;
  u_reason : fstring
}.

(** The texts of [errors]: ["File is empty"] and
    [f"Error processing file: {str(e)}"]. *)
Inductive error : Type :=
| FileIsEmpty
| ErrorProcessingFile (e : exn).

Record Metadata : Type := mkMetadata {
  total_rows : nat;
  data_rows : nat;
  total_columns : nat;
  mapped_columns : nat;
  unmapped_columns_count : nat;
  multi_asset_detected : bool
}.

Record ParseResponse : Type := mkParseResponse {
  status : string;              (* "success" or "error" *)
  header_row : option nat;
  parsed_data : list ParsedCell;
  unmapped_columns : list UnmappedColumn;
  warnings : list string;
  errors : list error;
  metadata : option Metadata;
  parameters : list (string * list string);
  detected_assets : list string;
  units : list (string * string)
}.

End models.

(* ================================================================= *)
(** ** app/llm_agent.py *)

Module llm_agent.
Import registries models.

Record ExcelParsingAgent : Type := mkAgent {
  api_key : option string;
  param_registry : list ParamEntry;
  asset_registry : list AssetEntry
}.

Definition llm_available (self : ExcelParsingAgent) : bool :=
  match api_key self with
  | Some _ => true
  | None => false
  end.

(** [ExcelParsingAgent()] with the key taken from the process environment. *)
Definition new_agent (key : option string) : ExcelParsingAgent :=
  mkAgent key PARAMETER_REGISTRY ASSET_REGISTRY.

(** Truth value of an [Optional[str]]. *)
Definition some_nonempty (o : option string) : bool :=
  match o with
  | Some s => negb (String.eqb s "")
  | None => false
  end.

Definition non_terms : list string :=
  ["date"; "time"; "timestamp"; "day"; "month"; "year"; "id"; "comment";
   "notes"; "remarks"; "description"].

(** [_is_non_parameter] *)
Definition _is_non_parameter (header : option string) : bool * option string :=
  if negb (some_nonempty header) then (true, Some "Empty header")
  else
    let h := Str.lower (match header with Some s => s | None => "" end) in
    match find (fun term => Str.contains term h) non_terms with
    | Some term =>
        (true, Some ("Non-parameter column detected: '" ++ term ++ "'"))
    | None =>
        if Str.startswith "column_" h
           || Str.startswith "unnamed" (Str.lower (Str.strip h))
        then (true, Some "Unnamed or generic column")
        else (false, None)
    end.

(** [_string_similarity]; the quotient is the exact one. *)
Definition _string_similarity (s1 s2 : string) : Q :=
  if String.eqb s1 s2 then 1%Q
  else if String.eqb s1 "" || String.eqb s2 "" then 0%Q
  else if Str.contains s1 s2 || Str.contains s2 s1 then (9 # 10)%Q
  else
    let longer := if Nat.ltb (length s2) (length s1) then s1 else s2 in
    let shorter := if Nat.ltb (length s2) (length s1) then s2 else s1 in
    let match_count := Str.count_chars_in shorter longer in
    (inject_Z (Z.of_nat match_count) / inject_Z (Z.of_nat (length longer)))%Q.

(** [a > b] on scores *)
Definition Qgtb (a b : Q) : bool := negb (Qle_bool a b).

Definition boiler_patterns : list (string * string) :=
  [("boiler 1", "AFBC-1"); ("boiler1", "AFBC-1"); ("boiler-1", "AFBC-1");
   ("afbc-1", "AFBC-1"); ("boiler 2", "AFBC-2"); ("boiler2", "AFBC-2");
   ("boiler-2", "AFBC-2"); ("afbc-2", "AFBC-2")].

Definition turbine_patterns : list (string * string) :=
  [("tg-1", "TG-1"); ("tg1", "TG-1"); ("turbine 1", "TG-1");
   ("turbine1", "TG-1"); ("turbine-1", "TG-1"); ("generator 1", "TG-1");
   ("tg-2", "TG-2"); ("tg2", "TG-2"); ("turbine 2", "TG-2");
   ("turbine2", "TG-2"); ("turbine-2", "TG-2"); ("generator 2", "TG-2")].

(** [_infer_asset_from_text]: the two tables have no key in common, so the
    merged dict is their concatenation. *)
Definition _infer_asset_from_text (text : string) : option string * bool :=
  let all_patterns := (boiler_patterns ++ turbine_patterns)%list in
  match find (fun pa => Str.contains (fst pa) text) all_patterns with
  | Some (_, asset_id) => (Some asset_id, true)
  | None => (None, false)
  end.

(** The parameter loop of [_fuzzy_match_header]: state
    [(best_match, best_match_score)]. *)
Definition match_alias (header_lower name : string)
    (st : option string * Q) (alias : string) : option string * Q :=
  let score := _string_similarity header_lower (Str.lower alias) in
  if Qgtb score (snd st) then (Some name, score) else st.

Definition match_param (header_lower : string)
    (st : option string * Q) (param : ParamEntry) : option string * Q :=
  fold_left (match_alias header_lower (param_name param))
            (param_aliases param) st.

(** The asset loop: [break] leaves the inner loop only. *)
Definition match_asset (header_lower : string)
    (best_asset : option string) (asset : AssetEntry) : option string :=
  if existsb (fun alias => Str.contains (Str.lower alias) header_lower)
             (asset_aliases asset)
  then Some (asset_name asset)
  else best_asset.

(** [_fuzzy_match_header] *)
Definition _fuzzy_match_header (self : ExcelParsingAgent) (header : string)
  : MappingResult :=
  let header_lower := Str.strip (Str.lower header) in
  let '(best_match, best_match_score) :=
    fold_left (match_param header_lower) (param_registry self) (None, 0%Q) in
  let best_asset :=
    fold_left (match_asset header_lower) (asset_registry self) None in
  let '(best_asset, asset_inferred) :=
    if negb (some_nonempty best_asset)
    then _infer_asset_from_text header_lower
    else (best_asset, false) in
  let confidence :=
    if Qgtb best_match_score (85 # 100) then "high"
    else if Qgtb best_match_score (6 # 10) then "medium"
    else "low" in
  let confidence :=
    if asset_inferred && some_nonempty best_asset
    then (if String.eqb confidence "high" then "medium" else confidence)
    else confidence in
  let reason :=
    ([Txt "Fuzzy matched with score "; Fix2 best_match_score] ++
     (if asset_inferred
      then [Txt "; asset inferred from boiler/turbine mapping"]
      else []))%list in
  mkMappingResult header best_match best_asset confidence reason.

(** [d.get(key)] / [d.get(key, default)]; on anything but a dict the
    attribute is missing. *)
Definition dict_lookup (kv : list (string * json)) (key : string)
  : option json :=
  option_map snd (find (fun e => String.eqb (fst e) key) kv).

Definition json_get (j : json) (key : string) (default : json) : result json :=
  match j with
  | JObj kv =>
      ret (match dict_lookup kv key with Some v => v | None => default end)
  | _ => raise AttributeError
  end.

(** Validation of the fields of [MappingResult]: [str] and [Optional[str]]. *)
Definition field_str `{Outside} (v : json) : result string :=
  match v with
  | JStr s => ret s
  | JNull => raise ValidationError
  | _ => validate_str v
  end.

Definition field_optional_str `{Outside} (v : json) : result (option string) :=
  match v with
  | JNull => ret None
  | _ => s <- field_str v ;; ret (Some s)
  end.

(** The body of the [try] of [_map_header_with_llm]. *)
Definition llm_attempt `{Outside} (header : string) : result MappingResult :=
  response_text <- generate_content header ;;
  mapping_json <- json_loads response_text ;;
  p <- json_get mapping_json "param_name" JNull ;;
  a <- json_get mapping_json "asset_name" JNull ;;
  c <- json_get mapping_json "confidence" (JStr "medium") ;;
  r <- json_get mapping_json "reason" (JStr "LLM mapping") ;;
  param <- field_optional_str p ;;
  asset <- field_optional_str a ;;
  conf <- field_str c ;;
  why <- field_str r ;;
  ret (mkMappingResult header param asset conf [Txt why]).

(** [_map_header_with_llm]: both handlers return the fuzzy match. *)
Definition _map_header_with_llm `{Outside} (self : ExcelParsingAgent)
    (header : string) : result MappingResult :=
  try_except (llm_attempt header)
    (fun e =>
       match e with
       | JSONDecodeError => ret (_fuzzy_match_header self header)
       | _ => ret (_fuzzy_match_header self header)
       end).

(** One iteration of the loop of [map_headers]. *)
Definition map_header `{Outside} (self : ExcelParsingAgent) (header : string)
  : result MappingResult :=
  let '(non_param, reason) := _is_non_parameter (Some header) in
  if non_param
  then ret (mkMappingResult header None None "low"
              [Txt (match reason with Some r => r | None => "" end)])
  else if negb (llm_available self)
  then ret (_fuzzy_match_header self header)
  else _map_header_with_llm self header.

(** [map_headers]: the dict keyed by column index is the list, in order. *)
Fixpoint map_headers `{Outside} (self : ExcelParsingAgent)
    (headers : list string) : result (list MappingResult) :=
  match headers with
  | [] => ret []
  | header :: rest =>
      m <- map_header self header ;;
      ms <- map_headers self rest ;;
      ret (m :: ms)
  end.

(** [len(row) * 0.6]: the literal is the binary64 number nearest to 0.6. *)
Definition sixty_percent : float := 0x1.3333333333333p-1%float.

(** A cell that counts as a header label:
    [cell and isinstance(cell, str) and len(str(cell).strip()) > 2]. *)
Definition is_label (cell : pyval) : bool :=
  match cell with
  | PyStr s => negb (String.eqb s "") && Nat.ltb 2 (length (Str.strip s))
  | _ => false
  end.

Definition string_count (row : list pyval) : nat :=
  List.length (filter is_label row).

(** [string_count >= len(row) * 0.6] *)
Definition mostly_labels (row : list pyval) : bool :=
  PrimFloat.leb
    (PrimFloat.mul (float_of_Z (Z.of_nat (List.length row))) sixty_percent)
    (float_of_Z (Z.of_nat (string_count row))).

(** The loop of [detect_header_row] from index [row_idx] on, [n] rows left
    to look at. *)
Fixpoint scan_rows (rows : list (list pyval)) (row_idx n : nat) : option nat :=
  match n, rows with
  | S n', row :: rest =>
      if mostly_labels row then Some row_idx
      else scan_rows rest (S row_idx) n'
  | _, _ => None
  end.

(** [detect_header_row] *)
Definition detect_header_row (excel_data : list (list pyval))
    (max_rows_to_check : nat) : nat :=
  match scan_rows excel_data 0
          (Nat.min max_rows_to_check (List.length excel_data)) with
  | Some row_idx => row_idx
  | None => 0
  end.

Definition default_max_rows_to_check : nat := 5.

(** The report of [generate_data_validation_report]; [cells_by_confidence]
    is the dict with the keys ["high"], ["medium"] and ["low"]. *)
Record ValidationReport : Type := mkReport {
  total_cells_parsed : nat;
  cells_high : nat;
  cells_medium : nat;
  cells_low : nat;
  unmapped_parameters : nat
}.

(** An item of [mapped_data]: a dict with text keys. *)
Definition item : Type := list (string * pyval).

(** [item[key]], when the key is there ([key in item]). *)
Definition item_get (it : item) (key : string) : option pyval :=
  option_map snd (find (fun e => String.eqb (fst e) key) it).

(** [report["cells_by_confidence"][c] += 1]: a key other than the three
    levels is missing from the dict. *)
Definition count_confidence (report : ValidationReport) (c : pyval)
  : result ValidationReport :=
  match c with
  | PyStr s =>
      if String.eqb s "high" then
        ret (mkReport (total_cells_parsed report) (S (cells_high report))
               (cells_medium report) (cells_low report)
               (unmapped_parameters report))
      else if String.eqb s "medium" then
        ret (mkReport (total_cells_parsed report) (cells_high report)
               (S (cells_medium report)) (cells_low report)
               (unmapped_parameters report))
      else if String.eqb s "low" then
        ret (mkReport (total_cells_parsed report) (cells_high report)
               (cells_medium report) (S (cells_low report))
               (unmapped_parameters report))
      else raise KeyError
  | _ => raise KeyError
  end.

(** The body of the loop of [generate_data_validation_report]. *)
Definition report_step (report : ValidationReport) (it : item)
  : result ValidationReport :=
  report <- match item_get it "confidence" with
            | Some c => count_confidence report c
            | None => ret report
            end ;;
  match item_get it "param_name" with
  | None | Some PyNone =>
      ret (mkReport (total_cells_parsed report) (cells_high report)
             (cells_medium report) (cells_low report)
             (S (unmapped_parameters report)))
  | Some _ => ret report
  end.

Fixpoint report_loop (report : ValidationReport) (mapped_data : list item)
  : result ValidationReport :=
  match mapped_data with
  | [] => ret report
  | it :: rest =>
      report <- report_step report it ;;
      report_loop report rest
  end.

(** [generate_data_validation_report] *)
Definition generate_data_validation_report (mapped_data : list item)
  : result ValidationReport :=
  report_loop (mkReport (List.length mapped_data) 0 0 0 0) mapped_data.

End llm_agent.

(* ================================================================= *)
(** ** app/value_parser.py *)

Module value_parser.

(** Parameters that must be numeric; booleans are not accepted for these. *)
Definition NUMERIC_PARAMS : list string :=
  ["coal_consumption"; "steam_generation"; "power_generation"; "efficiency"].

(** [param_name and term in param_name.lower()] *)
Definition mentions (term : string) (param_name : option string) : bool :=
  match param_name with
  | Some p => negb (String.eqb p "") && Str.contains term (Str.lower p)
  | None => false
  end.

(** [param_name and any(p in param_name.lower() for p in NUMERIC_PARAMS)] *)
Definition expects_number (param_name : option string) : bool :=
  match param_name with
  | Some p =>
      negb (String.eqb p "")
      && existsb (fun q => Str.contains q (Str.lower p)) NUMERIC_PARAMS
  | None => false
  end.

(** [float(raw_value)] in the numeric branch. *)
Definition float_of_number (raw_value : pyval) : result float :=
  match raw_value with
  | PyBool b => ret (float_of_bool b)
  | PyInt n => float_of_int n
  | PyFloat x => ret x
  | _ => raise ValueError
  end.

(** [value > 1 and value <= 100] *)
Definition looks_like_percent (value : float) : bool :=
  PrimFloat.ltb 1 value && PrimFloat.leb value 100.

Definition is_none (v : pyval) : bool :=
  match v with
  | PyNone => true
  | _ => false
  end.

Section parse_value.
Context `{Outside}.

(** The last resort: the first number found in the text. *)
Definition extract_number (value_str : string) : option float * string :=
  match search_number value_str with
  | Some group =>
      match float_of_str group with
      | Some value => (Some value, "extracted_number")
      | None => (None, "unparseable")
      end
  | None => (None, "unparseable")
  end.

(** [float(value_str)], with the percentage inferred for efficiencies. *)
Definition direct_float (value_str : string) (param_name : option string)
  : option float * string :=
  match float_of_str value_str with
  | Some value =>
      if mentions "efficiency" param_name && looks_like_percent value
      then (Some (value / 100)%float, "numeric_string_inferred_percentage")
      else (Some value, "numeric_direct_string")
  | None => extract_number value_str
  end.

(** Thousands separators. *)
Definition without_commas (value_str : string) (param_name : option string)
  : option float * string :=
  let next := direct_float value_str param_name in
  if Str.contains "," value_str then
    match float_of_str (Str.strip (Str.remove_char "," value_str)) with
    | Some value => (Some value, "numeric_with_commas")
    | None => next
    end
  else next.

(** A percent sign. *)
Definition percentage (value_str : string) (param_name : option string)
  : option float * string :=
  let next := without_commas value_str param_name in
  if Str.contains "%" value_str then
    match float_of_str (Str.strip (Str.remove_char "%" value_str)) with
    | Some value => (Some (value / 100)%float, "percentage")
    | None => next
    end
  else next.

(** [parse_value] *)
Definition parse_value (raw_value : pyval) (param_name : option string)
  : result (option float * string) :=
  if is_none raw_value || eq_str raw_value "" || eq_str raw_value "N/A"
     || eq_str raw_value "NA"
  then ret (None, "null_value")
  else if is_number raw_value then
    value <- float_of_number raw_value ;;
    if mentions "efficiency" param_name && looks_like_percent value
    then ret (Some (value / 100)%float, "numeric_direct_inferred_percentage")
    else ret (Some value, "numeric_direct")
  else
    let value_str := Str.upper (Str.strip (str raw_value)) in
    if Str.mem value_str ["YES"; "TRUE"; "Y"; "1"] then
      if expects_number param_name then ret (None, "unexpected_boolean")
      else ret (Some 1%float, "boolean_true")
    else if Str.mem value_str ["NO"; "FALSE"; "N"; "0"] then
      if expects_number param_name then ret (None, "unexpected_boolean")
      else ret (Some 0%float, "boolean_false")
    else ret (percentage value_str param_name).

End parse_value.

(** The four checks of [validate_value], each with the code that follows it
    as [rest]. *)
Definition check_efficiency (v : float) (param_name : option string)
    (rest : bool * option fstring) : bool * option fstring :=
  if mentions "efficiency" param_name then
    if PrimFloat.ltb v 0 || PrimFloat.ltb 1 v then
      if PrimFloat.ltb 100 v
      then (false, Some [Txt "Efficiency value "; Num v; Txt " exceeds 100%"])
      else (true, Some [Txt "Efficiency "; Num v;
                        Txt " - verify if this is decimal or percentage"])
    else rest
  else rest.

Definition check_coal (v : float) (param_name : option string)
    (rest : bool * option fstring) : bool * option fstring :=
  if mentions "coal" param_name then
    if PrimFloat.ltb v 0
    then (false, Some [Txt "Coal consumption cannot be negative: "; Num v])
    else rest
  else rest.

Definition check_power (v : float) (param_name : option string)
    (rest : bool * option fstring) : bool * option fstring :=
  if mentions "power" param_name then
    if PrimFloat.ltb v 0
    then (false, Some [Txt "Power generation cannot be negative: "; Num v])
    else rest
  else rest.

Definition check_hour (v : float) (param_name : option string)
    (rest : bool * option fstring) : bool * option fstring :=
  if mentions "hour" param_name then
    if PrimFloat.ltb v 0 || PrimFloat.ltb 24 v
    then (false, Some [Txt "Operating hours "; Num v;
                       Txt " outside expected range (0-24)"])
    else rest
  else rest.

(** [validate_value] *)
Definition validate_value (parsed_value : option float)
    (param_name : option string) : bool * option fstring :=
  match parsed_value with
  | None => (true, None)
  | Some v =>
      check_efficiency v param_name
        (check_coal v param_name
           (check_power v param_name
              (check_hour v param_name (true, None))))
  end.

End value_parser.

(* ================================================================= *)
(** ** app/parser.py *)

Module parser.
Import registries models llm_agent value_parser.

(** [enumerate(l)], counting from [start]. *)
Fixpoint enumerate_from {A : Type} (start : nat) (l : list A)
  : list (nat * A) :=
  match l with
  | [] => []
  | a :: rest => (start, a) :: enumerate_from (S start) rest
  end.

Definition enumerate {A : Type} (l : list A) : list (nat * A) :=
  enumerate_from 0 l.

(** The state of [parse_file] while it runs: [parsed_data] and
    [self.warnings]. *)
Record run : Type := mkRun {
  cells : list ParsedCell;
  warns : list fstring
}.

Definition add_warning (st : run) (w : fstring) : run :=
  mkRun (cells st) (warns st ++ [w])%list.

Definition add_cell (st : run) (c : ParsedCell) : run :=
  mkRun (cells st ++ [c])%list (warns st).

(** The confidence of a cell: the statements between
    [final_confidence = mapping.confidence] and the creation of the
    [ParsedCell]. *)
Definition final_confidence (mapping_confidence parse_method : string)
    (parsed_value : option float) (is_valid : bool) : string :=
  let fc := mapping_confidence in
  let fc :=
    if String.eqb parse_method "extracted_number" && String.eqb fc "high"
    then "medium" else fc in
  let fc :=
    if String.eqb parse_method "unexpected_boolean" then "low" else fc in
  let fc :=
    if match parsed_value with None => true | Some _ => false end
       && Str.mem parse_method ["null_value"; "unparseable"]
    then "medium" else fc in
  let fc := if negb is_valid then "low" else fc in
  fc.

Definition skip_warning (row_idx : nat) : fstring :=
  [Txt ("Row " ++ Str.of_nat row_idx ++ " is empty, skipped")].

Definition cell_warning (row_idx col_idx : nat) (validation_warning : fstring)
  : fstring :=
  (Txt ("Row " ++ Str.of_nat row_idx ++ ", Col " ++ Str.of_nat col_idx ++ ": ")
   :: validation_warning)%list.

Section row_loop.
Context `{Outside}.

(** The body of the loop over the cells of a row, for a mapped column. *)
Definition process_cell (mapping : MappingResult) (name : string)
    (row_idx col_idx : nat) (cell_value : pyval) (st : run) : result run :=
  pm <- parse_value cell_value (Some name) ;;
  let '(parsed_value, parse_method) := pm in
  let '(is_valid, validation_warning) :=
    validate_value parsed_value (Some name) in
  let parsed_cell :=
    mkParsedCell row_idx col_idx name (m_asset_name mapping) cell_value
      parsed_value
      (final_confidence (m_confidence mapping) parse_method
                        parsed_value is_valid)
      (Some ("Parse method: " ++ parse_method ++ ", Valid: "
             ++ Str.of_bool is_valid)) in
  let st := add_cell st parsed_cell in
  (* every warning of [validate_value] is a non-empty text *)
  match validation_warning with
  | Some w => ret (add_warning st (cell_warning row_idx col_idx w))
  | None => ret st
  end.

(** [for col_idx, cell_value in enumerate(row)] *)
Fixpoint process_cells (header_mappings : list MappingResult)
    (n_headers row_idx : nat) (row : list (nat * pyval)) (st : run)
  : result run :=
  match row with
  | [] => ret st
  | (col_idx, cell_value) :: rest =>
      if Nat.leb n_headers col_idx then ret st            (* break *)
      else
        match nth_error header_mappings col_idx with
        | None => raise KeyError
        | Some mapping =>
            match m_param_name mapping with
            | None =>                                     (* continue *)
                process_cells header_mappings n_headers row_idx rest st
            | Some name =>
                st' <- process_cell mapping name row_idx col_idx
                         cell_value st ;;
                process_cells header_mappings n_headers row_idx rest st'
            end
        end
  end.

(** The body of the loop over the data rows. *)
Definition process_row (header_mappings : list MappingResult)
    (n_headers : nat) (row_idx : nat) (row : list pyval) (st : run)
  : result run :=
  if negb (existsb truthy row)
  then ret (add_warning st (skip_warning row_idx))
  else process_cells header_mappings n_headers row_idx (enumerate row) st.

(** [for row_idx in range(header_row_idx + 1, len(raw_data))] *)
Fixpoint process_rows (header_mappings : list MappingResult)
    (n_headers : nat) (rows : list (nat * list pyval)) (st : run)
  : result run :=
  match rows with
  | [] => ret st
  | (row_idx, row) :: rest =>
      st' <- process_row header_mappings n_headers row_idx row st ;;
      process_rows header_mappings n_headers rest st'
  end.

End row_loop.

(** *** Duplicates, assets, units *)

Definition key : Type := (string * option string)%type.

Definition option_string_eqb (a b : option string) : bool :=
  match a, b with
  | Some x, Some y => String.eqb x y
  | None, None => true
  | _, _ => false
  end.

Definition key_eqb (a b : key) : bool :=
  String.eqb (fst a) (fst b) && option_string_eqb (snd a) (snd b).

(** [duplicates.setdefault(key, []).append(col_idx)] on a dict kept in
    insertion order. *)
Fixpoint setdefault_append (duplicates : list (key * list nat)) (k : key)
    (col_idx : nat) : list (key * list nat) :=
  match duplicates with
  | [] => [(k, [col_idx])]
  | (k', cols) :: rest =>
      if key_eqb k' k then (k', (cols ++ [col_idx])%list) :: rest
      else (k', cols) :: setdefault_append rest k col_idx
  end.

(** The grouping loop over [header_mappings.items()], for [duplicates]. *)
Definition group_step (duplicates : list (key * list nat))
    (item : nat * MappingResult) : list (key * list nat) :=
  let '(col_idx, mapping) := item in
  match m_param_name mapping with
  | None => duplicates
  | Some param => setdefault_append duplicates (param, m_asset_name mapping)
                                    col_idx
  end.

Definition group_columns (header_mappings : list MappingResult)
  : list (key * list nat) :=
  fold_left group_step (enumerate header_mappings) [].

(** [f"{asset}"] for an [Optional[str]] *)
Definition show_asset (asset : option string) : string :=
  match asset with
  | Some a => a
  | None => "None"
  end.

Definition duplication_warning (param : string) (asset : option string)
    (c0 c1 : nat) : string :=
  "Column duplication: " ++ param ++ " (" ++ show_asset asset
  ++ ") appears in columns " ++ Str.of_nat c0 ++ " and " ++ Str.of_nat c1.

(** The warnings of the loop over [duplicates.items()]. *)
Fixpoint duplicate_warnings (duplicates : list (key * list nat))
  : list string :=
  match duplicates with
  | [] => []
  | ((param, asset), cols) :: rest =>
      match cols with
      | c0 :: c1 :: _ =>                                 (* len(cols) > 1 *)
          duplication_warning param asset c0 c1 :: duplicate_warnings rest
      | _ => duplicate_warnings rest
      end
  end.

(** A Python set of strings, as a list without repetition. *)
Definition set_add (x : string) (s : list string) : list string :=
  if Str.mem x s then s else (s ++ [x])%list.

(** [param_assets]: parameter -> set of asset names, in insertion order. *)
Fixpoint add_param_asset (param_assets : list (string * list string))
    (param : string) (asset : option string) : list (string * list string) :=
  let extend s :=
    match asset with                       (* [if mapping.asset_name] *)
    | Some a => if String.eqb a "" then s else set_add a s
    | None => s
    end in
  match param_assets with
  | [] => [(param, extend [])]
  | (p, s) :: rest =>
      if String.eqb p param then (p, extend s) :: rest
      else (p, s) :: add_param_asset rest param asset
  end.

Definition assets_step
    (acc : list (string * list string) * list string)
    (mapping : MappingResult) : list (string * list string) * list string :=
  match m_param_name mapping with
  | None => acc
  | Some param =>
      (add_param_asset (fst acc) param (m_asset_name mapping),
       match m_asset_name mapping with
       | Some a => if String.eqb a "" then snd acc else set_add a (snd acc)
       | None => snd acc
       end)
  end.

(** [sorted(list(s))] *)
Fixpoint insert_sorted (x : string) (l : list string) : list string :=
  match l with
  | [] => [x]
  | y :: rest => if String.leb x y then x :: l else y :: insert_sorted x rest
  end.

Definition sorted (l : list string) : list string :=
  fold_right insert_sorted [] l.

(** [units_metadata[k] = v] *)
Fixpoint dict_set (d : list (string * string)) (k v : string)
  : list (string * string) :=
  match d with
  | [] => [(k, v)]
  | (k', v') :: rest =>
      if String.eqb k' k then (k', v) :: rest else (k', v') :: dict_set rest k v
  end.

(** The loop that fills [units_metadata]; [if mapping.param_name] leaves out
    [None] and the empty name. *)
Definition units_step (units_metadata : list (string * string))
    (mapping : MappingResult) : list (string * string) :=
  match m_param_name mapping with
  | Some name =>
      if String.eqb name "" then units_metadata
      else
        match get_parameter_by_name name with
        | Some param => dict_set units_metadata name (param_unit param)
        | None => units_metadata
        end
  | None => units_metadata
  end.

(** Deduplication of the warnings, first occurrences kept. *)
Fixpoint unique_from (seen : list string) (ws : list string) : list string :=
  match ws with
  | [] => []
  | w :: rest =>
      if Str.mem w seen then unique_from seen rest
      else w :: unique_from (w :: seen) rest
  end.

Definition unique_warnings (ws : list string) : list string :=
  unique_from [] ws.

Definition error_response (e : exn) : ParseResponse :=
  mkParseResponse "error" None [] [] [] [ErrorProcessingFile e] None [] [] [].

Section parse_file_response.
Context `{Outside}.

(** A label of the header row: [str(cell).strip() if cell else
    f"Column_{i}"], when [str(cell)] returns. *)
Definition header_of (item : nat * pyval) : string :=
  let '(i, cell) := item in
  if truthy cell then Str.strip (str cell) else "Column_" ++ Str.of_nat i.

(** The same with the exception of [str(cell)]: an integer too long to be
    written. *)
Definition header_text (item : nat * pyval) : result string :=
  if truthy (snd item) && str_raises (snd item) then raise ValueError
  else ret (header_of item).

(** [headers]: the list comprehension over the header row. *)
Fixpoint headers_of_row (items : list (nat * pyval)) : result (list string) :=
  match items with
  | [] => ret []
  | item :: rest =>
      header <- header_text item ;;
      headers <- headers_of_row rest ;;
      ret (header :: headers)
  end.

Definition unmapped_of (item : nat * (string * MappingResult))
  : list UnmappedColumn :=
  let '(col_idx, (header, mapping)) := item in
  match m_param_name mapping with
  | None => [mkUnmappedColumn col_idx header (m_reason mapping)]
  | Some _ => []
  end.

(** The [try] block of [parse_file] once [raw_data] holds the rows of the
    sheet (the workbook is opened and read by openpyxl). *)
Definition parse_sheet (agent : ExcelParsingAgent)
    (raw_data : list (list pyval)) : result ParseResponse :=
  let header_row_idx :=
    detect_header_row raw_data default_max_rows_to_check in
  headers <- headers_of_row (enumerate (nth header_row_idx raw_data [])) ;;
  let st := mkRun [] [] in
  let st := add_warning st
    [Txt ("Detected header row at index " ++ Str.of_nat header_row_idx)] in
  let st :=
    if Nat.ltb 0 header_row_idx
    then add_warning st
      [Txt ("Rows 0-" ++ Str.of_nat (header_row_idx - 1)
            ++ " appear to be title/metadata, skipped")]
    else st in
  header_mappings <- map_headers agent headers ;;
  let unmapped_cols :=
    flat_map unmapped_of (enumerate (combine headers header_mappings)) in
  st <- process_rows header_mappings (List.length headers)
          (enumerate_from (header_row_idx + 1)
             (skipn (header_row_idx + 1) raw_data)) st ;;
  let duplicates := group_columns header_mappings in
  let '(param_assets, detected_assets_set) :=
    fold_left assets_step header_mappings ([], []) in
  let all_warnings :=
    (map render (warns st) ++ duplicate_warnings duplicates)%list in
  ret (mkParseResponse "success" (Some header_row_idx) (cells st)
         unmapped_cols (unique_warnings all_warnings) []
         (Some (mkMetadata
                  (List.length raw_data)
                  (List.length raw_data - header_row_idx - 1)
                  (List.length headers)
                  (List.length
                     (filter (fun m => some_nonempty (m_param_name m))
                             header_mappings))
                  (List.length unmapped_cols)
                  (Nat.ltb 1 (List.length detected_assets_set))))
         (map (fun kv => (fst kv, sorted (snd kv))) param_assets)
         (sorted detected_assets_set)
         (fold_left units_step header_mappings [])).

(** [parse_file], from [raw_data] on: an empty sheet is an error, and so is
    an exception raised inside the [try]. *)
Definition parse_file (agent : ExcelParsingAgent)
    (raw_data : list (list pyval)) : ParseResponse :=
  match raw_data with
  | [] => mkParseResponse "error" None [] [] [] [FileIsEmpty] None [] [] []
  | _ =>
      match parse_sheet agent raw_data with
      | inr response => response
      | inl e => error_response e
      end
  end.

(** What [parse_file_chunks] returns: the response of [parse_file] with the
    two keys it adds to [metadata]. *)
Record ChunkedResponse : Type := mkChunked {
  response : ParseResponse;
  chunking_used : bool;
  chunk_size : nat
}.

Definition large_file_warning (chunk_size : nat) : string :=
  "Large file detected. Data was processed in chunks of "
  ++ Str.of_nat chunk_size ++ " rows.".

Definition with_warning (r : ParseResponse) (w : string) : ParseResponse :=
  mkParseResponse (status r) (header_row r) (parsed_data r)
    (unmapped_columns r) (warnings r ++ [w])%list (errors r) (metadata r)
    (parameters r) (detected_assets r) (units r).

(** [parse_file_chunks], from [raw_data] on. *)
Definition parse_file_chunks (agent : ExcelParsingAgent)
    (raw_data : list (list pyval)) (chunk_size : nat) : ChunkedResponse :=
  let r := parse_file agent raw_data in
  if String.eqb (status r) "success"
     && Nat.ltb chunk_size (List.length (parsed_data r))
  then mkChunked (with_warning r (large_file_warning chunk_size)) true
                 chunk_size
  else mkChunked r false chunk_size.

Definition default_chunk_size : nat := 100.

End parse_file_response.

(** [registries.get_all_sections] *)
Definition get_all_sections : list string :=
  sorted (fold_left (fun s p => set_add (param_section p) s)
                    PARAMETER_REGISTRY []).

End parser.

(* ================================================================= *)
(** ** Definitions used to state the properties *)

(** A process with no API key reachable and no network: the client raises,
    and the interpreter's text routines are not consulted by the closed
    examples below (they hold cells of type [None], [int] and [bool], and
    texts that are decided before any number is read). *)
Definition offline : Outside := {|
  float_of_str := fun _ => None;
  float_repr := fun _ => "?";
  format_2f := fun _ => "?";
  search_number := fun _ => None;
  generate_content := fun _ => raise (ClientError "no network");
  json_loads := fun _ => raise JSONDecodeError;
  validate_str := fun _ => raise ValidationError
|}.

(** The three confidence levels, [low < medium < high]. *)
Definition level (confidence : string) : option nat :=
  if String.eqb confidence "low" then Some 0
  else if String.eqb confidence "medium" then Some 1
  else if String.eqb confidence "high" then Some 2
  else None.

(** [a] is a strictly higher level than [b]. *)
Definition higher (a b : string) : bool :=
  match level a, level b with
  | Some x, Some y => Nat.ltb y x
  | _, _ => false
  end.

Module validator_rules.
Import value_parser.

Definition check : Type :=
  float -> option string -> bool * option fstring -> bool * option fstring.

(** The rules of the Validator in their scan order, each under the
    substring that selects it. *)
Definition rules : list (string * check) :=
  [("efficiency", check_efficiency); ("coal", check_coal);
   ("power", check_power); ("hour", check_hour)].

(** The rules an identity matches, in scan order. *)
Definition matching (param_name : option string) : list (string * check) :=
  filter (fun r => mentions (fst r) param_name) rules.

(** What one rule says on its own. *)
Definition outcome (r : string * check) (v : float)
    (param_name : option string) : bool * option fstring :=
  snd r v param_name (true, None).

(** A rule objects when it rejects the value or attaches a warning. *)
Definition objects (o : bool * option fstring) : bool :=
  negb (fst o) || match snd o with Some _ => true | None => false end.

(** A scan: each rule in turn, with the rules after it as its [rest]. *)
Definition scan (l : list (string * check)) (v : float)
    (param_name : option string) : bool * option fstring :=
  fold_right (fun r rest => snd r v param_name rest) (true, None) l.

(** The specification's reading: the last matching rule decides. *)
Definition last_matching_rule_wins (v : float) (param_name : option string)
  : bool * option fstring :=
  match rev (matching param_name) with
  | r :: _ => outcome r v param_name
  | [] => (true, None)
  end.

(** The first matching rule that objects decides. *)
Definition first_objection_wins (v : float) (param_name : option string)
  : bool * option fstring :=
  match find (fun r => objects (outcome r v param_name))
             (matching param_name) with
  | Some r => outcome r v param_name
  | None => (true, None)
  end.

End validator_rules.

(* ----------------------------------------------------------------- *)
(** *** ValueParser *)

(** The tags the text cascade can end with. *)
Definition cascade_tags : list string :=
  ["percentage"; "numeric_with_commas"; "numeric_string_inferred_percentage";
   "numeric_direct_string"; "extracted_number"; "unparseable"].

(** The texts that read as a boolean. *)
Definition boolean_like (s : string) : bool :=
  Str.mem (Str.upper (Str.strip s))
          ["YES"; "TRUE"; "Y"; "1"; "NO"; "FALSE"; "N"; "0"].

(* ----------------------------------------------------------------- *)
(** *** HeaderRowDetector *)

(** The sheet of the specification's example, row by row as written. *)
Definition title_sheet_as_written : list (list pyval) :=
  [[PyStr "Report Title"];
   [];
   [PyStr "Date"; PyStr "Coal Consumption"; PyStr "Power Generation"]].

(** The same sheet as the reader delivers it, every row as wide as the
    sheet. *)
Definition title_sheet_as_read : list (list pyval) :=
  [[PyStr "Report Title"; PyNone; PyNone];
   [PyNone; PyNone; PyNone];
   [PyStr "Date"; PyStr "Coal Consumption"; PyStr "Power Generation"]].

(* ----------------------------------------------------------------- *)
(** *** HeaderMapper and NonParameterClassifier *)

(** The ways the attempt on the oracle can fail. *)
Definition oracle_fails `{Outside} (header : string) : Prop :=
  (exists e, generate_content header = raise e)
  \/ (exists text,
        generate_content header = ret text
        /\ ((exists e, json_loads text = raise e)
            \/ (exists j,
                  json_loads text = ret j
                  /\ forall kv, j <> JObj kv))).

(** The block set of the specification, in the order it is checked. *)
Definition block_set : list string :=
  ["date"; "time"; "timestamp"; "day"; "month"; "year"; "id"; "comment";
   "notes"; "remarks"; "description"].

(** The classifier as the specification words it: the last check looks at
    the trimmed, lowercased header for both prefixes. *)
Definition classifier_as_specified (header : option string)
  : bool * option string :=
  match header with
  | None | Some EmptyString => (true, Some "Empty header")
  | Some h =>
      match find (fun term => Str.contains term (Str.lower h)) block_set with
      | Some term =>
          (true, Some ("Non-parameter column detected: '" ++ term ++ "'"))
      | None =>
          let trimmed := Str.lower (Str.strip h) in
          if Str.startswith "column_" trimmed
             || Str.startswith "unnamed" trimmed
          then (true, Some "Unnamed or generic column")
          else (false, None)
      end
  end.

(** The classifier with the last check as the program makes it: ["column_"]
    is looked for at the start of the lowercased header, ["unnamed"] at the
    start of the trimmed, lowercased header. *)
Definition classifier_as_built (header : option string)
  : bool * option string :=
  match header with
  | None | Some EmptyString => (true, Some "Empty header")
  | Some h =>
      match find (fun term => Str.contains term (Str.lower h)) block_set with
      | Some term =>
          (true, Some ("Non-parameter column detected: '" ++ term ++ "'"))
      | None =>
          if Str.startswith "column_" (Str.lower h)
             || Str.startswith "unnamed" (Str.lower (Str.strip h))
          then (true, Some "Unnamed or generic column")
          else (false, None)
      end
  end.

(** A text with no blank in it. *)
Fixpoint no_space (s : string) : bool :=
  match s with
  | EmptyString => true
  | String c s' => negb (Str.is_space c) && no_space s'
  end.

(* ----------------------------------------------------------------- *)
(** *** DuplicateDetector *)

Section duplicate_keys.
Import models parser.

(** The key under which a mapped column is grouped. *)
Definition key_of (mapping : MappingResult) : option key :=
  match m_param_name mapping with
  | Some param => Some (param, m_asset_name mapping)
  | None => None
  end.

Definition has_key (k : key) (mapping : MappingResult) : bool :=
  match key_of mapping with
  | Some k' => key_eqb k' k
  | None => false
  end.

(** The columns mapped to a key, in ascending order. *)
Definition columns_of (k : key) (header_mappings : list MappingResult)
  : list nat :=
  map fst (filter (fun item => has_key k (snd item))
                  (enumerate header_mappings)).

(** [duplicates[k]], when the key is there. *)
Fixpoint lookup (duplicates : list (key * list nat)) (k : key)
  : option (list nat) :=
  match duplicates with
  | [] => None
  | (k', cols) :: rest => if key_eqb k' k then Some cols else lookup rest k
  end.

(** The warning of a key, written out: it names the parameter, the asset
    ([None] for a mapping without one) and the first two of the columns
    mapped to the key. *)
Definition warning_of (header_mappings : list MappingResult) (k : key)
  : string :=
  let cols := columns_of k header_mappings in
  "Column duplication: " ++ fst k
  ++ " (" ++ match snd k with Some asset => asset | None => "None" end
  ++ ") appears in columns " ++ Str.of_nat (nth 0 cols 0)
  ++ " and " ++ Str.of_nat (nth 1 cols 0).

(** The dict after the grouping loop, against the columns of each key. *)
Definition groups (d : list (key * list nat)) (ms : list MappingResult)
  : Prop :=
  NoDup (map fst d)
  /\ forall k, lookup d k
               = match columns_of k ms with
                 | [] => None
                 | cols => Some cols
                 end.

(** A key collides when two or more columns are mapped to it. *)
Definition collides (ms : list MappingResult) (k : key) : bool :=
  Nat.leb 2 (List.length (columns_of k ms)).

(** Five columns: three of the power of TG-1, one that is not mapped, and
    two of the steam flow without an asset. *)
Definition five_columns : list MappingResult :=
  [mkMappingResult "TG-1 Power" (Some "power_generation") (Some "TG-1")
     "high" [];
   mkMappingResult "Steam" (Some "steam_flow") None "medium" [];
   mkMappingResult "Power TG-1" (Some "power_generation") (Some "TG-1")
     "high" [];
   mkMappingResult "Date" None None "low" [];
   mkMappingResult "Steam Flow" (Some "steam_flow") None "high" [];
   mkMappingResult "TG-1 MW" (Some "power_generation") (Some "TG-1")
     "medium" []].

End duplicate_keys.

(** The headers [parse_file] reads off a sheet. *)
Definition headers_of_sheet `{Outside} (raw_data : list (list pyval))
  : list string :=
  map parser.header_of
      (parser.enumerate
         (nth (llm_agent.detect_header_row raw_data
                 llm_agent.default_max_rows_to_check)
              raw_data [])).

(* ----------------------------------------------------------------- *)
(** *** The data rows and the confidence of a cell *)

Section data_rows.
Import parser.

(** What a run gains: cells, and warnings that are longer than one piece. *)
Definition extends (st st' : run) : Prop :=
  exists cs ws,
    cells st' = (cells st ++ cs)%list
    /\ warns st' = (warns st ++ ws)%list
    /\ Forall (fun w => 2 <= List.length w) ws.

(** A row of cells that are all false in a test. *)
Definition all_falsy (row : list pyval) : bool :=
  forallb (fun cell => negb (truthy cell)) row.

(** The cells that look empty to the test: [None], the numbers zero, the
    empty text and [False]. *)
Definition zero_like : list pyval :=
  [PyNone; PyInt 0; PyFloat 0; PyFloat (-0); PyStr ""; PyBool false].

(** The outcome of a skipped row: nothing parsed, one warning that names
    the row. *)
Definition skipped (row_idx : nat) (st : run) : run :=
  mkRun (cells st)
        (warns st
         ++ [[Txt ("Row " ++ Str.of_nat row_idx ++ " is empty, skipped")]])%list.

End data_rows.

(** A sheet whose column ["XQZ"] is mapped with low confidence and holds an
    empty cell in a row that is not empty. *)
Definition low_confidence_sheet : list (list pyval) :=
  [[PyStr "Date"; PyStr "XQZ"; PyStr "Power Generation"];
   [PyStr "2024-01-01"; PyNone; PyInt 120]].

(* ----------------------------------------------------------------- *)
(** *** The tags of the ValueParser *)

(** The tags of [parse_value]. *)
Definition parse_tags : list string :=
  (["null_value"; "numeric_direct_inferred_percentage"; "numeric_direct";
    "unexpected_boolean"; "boolean_true"; "boolean_false"]
   ++ cascade_tags)%list.

(** A result of the text cascade: a tag of the cascade, with a value unless
    the tag is ["unparseable"]. *)
Definition coherent (r : option float * string) : Prop :=
  In (snd r) cascade_tags /\ (fst r = None <-> snd r = "unparseable").

(* ----------------------------------------------------------------- *)
(** *** FuzzyMatcher *)

(** The three confidence levels as texts. *)
Definition levels : list string := ["high"; "medium"; "low"].

(** The assets that [_infer_asset_from_text] can answer. *)
Definition inferable_assets : list string :=
  map snd (llm_agent.boiler_patterns ++ llm_agent.turbine_patterns)%list.

(** The state of the parameter loop of the fuzzy matcher: nothing matched
    and score 0, or a name out of [names] with a positive score. *)
Definition matched (names : list string) (st : option string * Q) : Prop :=
  (fst st = None /\ snd st = 0%Q)
  \/ (exists name, fst st = Some name /\ In name names /\ (0 < snd st)%Q).

(** An asset one of whose aliases, lowercased, occurs in the text. *)
Definition names_asset (text : string) (asset : registries.AssetEntry)
  : bool :=
  existsb (fun alias => Str.contains (Str.lower alias) text)
          (registries.asset_aliases asset).

(** The text that holds the digits and the letters of ["column_"]. *)
Definition column_alphabet : string := "column_0123456789".

(** Every character of [s] occurs in [alphabet]. *)
Fixpoint chars_within (alphabet s : string) : bool :=
  match s with
  | EmptyString => true
  | String c s' => Str.char_in c alphabet && chars_within alphabet s'
  end.

(** Some character of [s] does not occur in [alphabet]. *)
Fixpoint strays_from (alphabet s : string) : bool :=
  match s with
  | EmptyString => false
  | String c s' => negb (Str.char_in c alphabet) || strays_from alphabet s'
  end.

(** The mapping of a column that the classifier sets aside. *)
Definition set_aside (header reason : string) : models.MappingResult :=
  models.mkMappingResult header None None "low" [Txt reason].

(* ----------------------------------------------------------------- *)
(** *** The validation report *)

Section report_counts.
Import llm_agent.

(** The items whose confidence is the level [lvl]. *)
Definition confidence_is (lvl : string) (it : item) : bool :=
  match item_get it "confidence" with
  | Some (PyStr s) => String.eqb s lvl
  | _ => false
  end.

(** The items with no confidence, or with one of the three levels. *)
Definition confidence_known (it : item) : bool :=
  match item_get it "confidence" with
  | None => true
  | Some (PyStr s) => Str.mem s levels
  | Some _ => false
  end.

(** The items with no parameter: the key is missing or holds [None]. *)
Definition lacks_param (it : item) : bool :=
  match item_get it "param_name" with
  | None | Some PyNone => true
  | Some _ => false
  end.

Definition count (f : item -> bool) (mapped_data : list item) : nat :=
  List.length (filter f mapped_data).

End report_counts.

(* ----------------------------------------------------------------- *)
(** *** The registries *)

(** The aliases of the parameter registry in which a term of the block list
    occurs. *)
Definition shadowed_aliases : list string :=
  ["Grid Export"; "Carbon Dioxide"; "Sulfur Dioxide"; "Nitrogen Oxides";
   "Runtime"; "Uptime"].

(** Where an alias of the parameter [name] ends up when it is the header of a
    column and no oracle is configured. *)
Definition alias_fate (name alias : string) : option string * string :=
  if Str.mem alias shadowed_aliases then (None, "low")
  else if String.eqb alias "SO2 Emissions" then (Some "co2_emissions", "high")
  else (Some name, "high").

(** The check that the alias meets that fate, and that an alias of an asset
    names the asset. *)
Definition alias_fate_met `{Outside} (p : registries.ParamEntry)
    (alias : string) : bool :=
  match llm_agent.map_header (llm_agent.new_agent None) alias with
  | inr m =>
      parser.option_string_eqb
        (models.m_param_name m)
        (fst (alias_fate (registries.param_name p) alias))
      && String.eqb (models.m_confidence m)
                    (snd (alias_fate (registries.param_name p) alias))
  | inl _ => false
  end.

Definition alias_names_asset (a : registries.AssetEntry) (alias : string)
  : bool :=
  parser.option_string_eqb
    (models.m_asset_name
       (llm_agent._fuzzy_match_header (llm_agent.new_agent None) alias))
    (Some (registries.asset_name a)).

(* ----------------------------------------------------------------- *)
(** *** Sorted lists of texts *)

(** The order of [sorted] on texts. *)
Definition precedes (a b : string) : Prop := String.leb a b = true.

(* ----------------------------------------------------------------- *)
(** *** The parsed cells against the sheet *)

Section sheet_cells.
Import models value_parser parser.
Context `{Outside}.

(** The row that [parse_file] takes as the header row. *)
Definition header_row_of (raw_data : list (list pyval)) : nat :=
  llm_agent.detect_header_row raw_data llm_agent.default_max_rows_to_check.

(** The data rows with their indices, as the row loop visits them. *)
Definition data_rows_of (raw_data : list (list pyval))
  : list (nat * list pyval) :=
  enumerate_from (header_row_of raw_data + 1)
                 (skipn (header_row_of raw_data + 1) raw_data).

(** The cell of the sheet at a row and a column. *)
Definition cell_at (raw_data : list (list pyval)) (row_idx col_idx : nat)
  : option pyval :=
  match nth_error raw_data row_idx with
  | Some row => nth_error row col_idx
  | None => None
  end.

(** What a parsed cell holds, from the mapping of its column and the cell
    of the sheet. *)
Definition parsed_from (mapping : MappingResult) (cell_value : pyval)
    (c : ParsedCell) : Prop :=
  exists name tag,
    m_param_name mapping = Some name
    /\ parse_value cell_value (Some name) = ret (c_parsed_value c, tag)
    /\ c_param_name c = name
    /\ c_asset_name c = m_asset_name mapping
    /\ c_raw_value c = cell_value
    /\ c_confidence c
       = final_confidence (m_confidence mapping) tag (c_parsed_value c)
           (fst (validate_value (c_parsed_value c) (Some name)))
    /\ c_notes c
       = Some ("Parse method: " ++ tag ++ ", Valid: "
               ++ Str.of_bool
                    (fst (validate_value (c_parsed_value c) (Some name)))).

(** A column that is mapped to a parameter. *)
Definition is_mapped (header_mappings : list MappingResult) (col_idx : nat)
  : bool :=
  match nth_error header_mappings col_idx with
  | Some mapping =>
      match m_param_name mapping with
      | Some _ => true
      | None => false
      end
  | None => false
  end.

(** The header row holds a cell that [str] cannot write. *)
Definition unwritable_header (raw_data : list (list pyval)) : Prop :=
  exists col_idx cell,
    cell_at raw_data (header_row_of raw_data) col_idx = Some cell
    /\ str_raises cell = true.

(** A row below the header row holds, under a mapped column, an integer
    beyond the binary64 range. *)
Definition overflowing_cell (header_mappings : list MappingResult)
    (raw_data : list (list pyval)) : Prop :=
  exists row_idx col_idx n,
    header_row_of raw_data < row_idx
    /\ is_mapped header_mappings col_idx = true
    /\ cell_at raw_data row_idx col_idx = Some (PyInt n)
    /\ PrimFloat.is_infinity (float_of_Z n) = true.

Definition coordinates (c : ParsedCell) : nat * nat := (c_row c, c_col c).

(** The columns of a row that are parsed: those below the number of headers
    that are mapped, from left to right. *)
Definition parsed_columns (header_mappings : list MappingResult)
    (n_headers : nat) (start : nat) (row : list pyval) : list nat :=
  filter (fun i => Nat.ltb i n_headers && is_mapped header_mappings i)
         (seq start (List.length row)).

(** The coordinates of the cells that are parsed: in every row with a cell
    that is true in a test, the parsed columns; row by row. *)
Definition expected_coordinates (header_mappings : list MappingResult)
    (n_headers : nat) (rows : list (nat * list pyval)) : list (nat * nat) :=
  flat_map (fun item : nat * list pyval =>
              if existsb truthy (snd item)
              then map (pair (fst item))
                       (parsed_columns header_mappings n_headers 0 (snd item))
              else [])
           rows.

(** The reading order of the cells: row by row, from left to right. *)
Definition reads_before (a b : nat * nat) : Prop :=
  fst a < fst b \/ (fst a = fst b /\ snd a < snd b).

End sheet_cells.

(** A sheet with a date column, a column of boiler 1, a column of turbine 1
    and a column without a header. *)
Definition two_asset_sheet : list (list pyval) :=
  [[PyStr "Date"; PyStr "AFBC-1 Coal Consumption";
    PyStr "TG-1 Power Generation"; PyNone];
   [PyStr "2024-01-01"; PyInt 120; PyFloat 45.5; PyInt 3]].

(* ----------------------------------------------------------------- *)
(** *** The parameters and the warnings of a response *)

(** [d.get(k)] on a dict with text keys, kept in insertion order. *)
Definition entry {A : Type} (d : list (string * A)) (k : string) : option A :=
  option_map snd (find (fun e => String.eqb (fst e) k) d).

(** The set a mapping adds its asset to: the asset is left out when it is
    [None] or the empty text. *)
Definition with_asset (asset : option string) (s : list string)
  : list string :=
  match asset with
  | Some a => if String.eqb a "" then s else parser.set_add a s
  | None => s
  end.

Section warning_causes.
Import models value_parser parser.
Context `{Outside}.

(** The warning that the validation of a parsed cell leaves, if any. *)
Definition warning_of_cell (c : ParsedCell) : option fstring :=
  match snd (validate_value (c_parsed_value c) (Some (c_param_name c))) with
  | Some w => Some (cell_warning (c_row c) (c_col c) w)
  | None => None
  end.

(** The two warnings about the header row. *)
Definition header_warnings (header_row_idx : nat) : list fstring :=
  [Txt ("Detected header row at index " ++ Str.of_nat header_row_idx)]
  :: (if Nat.ltb 0 header_row_idx
      then [[Txt ("Rows 0-" ++ Str.of_nat (header_row_idx - 1)
                  ++ " appear to be title/metadata, skipped")]]
      else []).

End warning_causes.

(* ================================================================= *)
(** ** Order of binary64 numbers against the constants of the program *)

Section Binary64Order.

Lemma compare_cont_swap (p q : positive) :
  Pos.compare_cont Eq q p = CompOpp (Pos.compare_cont Eq p q).
Proof.
  symmetry. exact (Pos.compare_cont_antisym p q Eq).
Qed.

Lemma SFcompare_antisym (x y : spec_float) :
  SFcompare y x = option_map CompOpp (SFcompare x y).
Proof.
  destruct x as [sx | sx | | sx mx ex], y as [sy | sy | | sy my ey];
    try destruct sx; try destruct sy; cbn; try reflexivity;
    rewrite (Z.compare_antisym ex ey);
    destruct (ex ?= ey)%Z; cbn; try reflexivity;
    rewrite (compare_cont_swap mx my);
    try rewrite CompOpp_involutive; reflexivity.
Qed.

Lemma SFcompare_defined (x y : spec_float) :
  SFcompare x y = None -> x = S754_nan \/ y = S754_nan.
Proof.
  destruct x as [sx | sx | | sx mx ex], y as [sy | sy | | sy my ey];
    cbn; intros E; try discriminate E; auto.
Qed.

Lemma SFleb_not_SFltb (x y : spec_float) :
  SFleb x y = true -> SFltb y x = false.
Proof.
  unfold SFleb, SFltb. rewrite (SFcompare_antisym x y).
  destruct (SFcompare x y) as [[] | ]; cbn; intros E;
    reflexivity || discriminate E.
Qed.

Lemma not_SFltb_SFleb (x y : spec_float) :
  x <> S754_nan -> y <> S754_nan -> SFltb x y = false -> SFleb y x = true.
Proof.
  intros Hx Hy. unfold SFleb, SFltb. rewrite (SFcompare_antisym x y).
  destruct (SFcompare x y) as [[] | ] eqn:E; cbn; intros L;
    try reflexivity; try discriminate L.
  destruct (SFcompare_defined _ _ E); contradiction.
Qed.

Lemma not_nan_spec (v : float) :
  PrimFloat.is_nan v = false -> Prim2SF v <> S754_nan.
Proof.
  unfold PrimFloat.is_nan. rewrite eqb_spec. intros E N.
  rewrite N in E. discriminate E.
Qed.

Lemma above_100_above_1 (v : float) :
  (100 <? v)%float = true -> (1 <? v)%float = true.
Proof.
  rewrite !ltb_spec.
  set (c := Prim2SF 100); vm_compute in c; subst c.
  set (c := Prim2SF 1); vm_compute in c; subst c.
  destruct (Prim2SF v) as [s | s | | s m e]; try destruct s;
    cbn [SFltb SFcompare]; intros E; try discriminate E; try reflexivity.
  destruct (Z.compare_spec (-46)%Z e), (Z.compare_spec (-52)%Z e);
    try lia; first [reflexivity | discriminate E].
Qed.

Lemma upto_100_not_above (v : float) :
  (v <=? 100)%float = true -> (100 <? v)%float = false.
Proof.
  rewrite ltb_spec, leb_spec. apply SFleb_not_SFltb.
Qed.

Lemma not_below_0_from_0 (v : float) :
  PrimFloat.is_nan v = false ->
  (v <? 0)%float = false -> (0 <=? v)%float = true.
Proof.
  intros N. rewrite ltb_spec, leb_spec.
  apply not_SFltb_SFleb; [now apply not_nan_spec | ].
  vm_compute. discriminate.
Qed.

Lemma not_above_1_upto_1 (v : float) :
  PrimFloat.is_nan v = false ->
  (1 <? v)%float = false -> (v <=? 1)%float = true.
Proof.
  intros N. rewrite ltb_spec, leb_spec.
  apply not_SFltb_SFleb; [ | now apply not_nan_spec].
  vm_compute. discriminate.
Qed.

End Binary64Order.

(* ================================================================= *)
(** ** ValueParser: parse_value *)

Section ParseValue.
Import value_parser.
Context `{Outside}.

Lemma one_is_no_percent : looks_like_percent 1 = false.
Proof. reflexivity. Qed.

Lemma zero_is_no_percent : looks_like_percent 0 = false.
Proof. reflexivity. Qed.

Lemma extract_number_tag (value_str : string) :
  In (snd (extract_number value_str)) cascade_tags.
Proof.
  unfold extract_number, cascade_tags.
  destruct (search_number value_str) as [group | ]; [ | simpl; tauto].
  destruct (float_of_str group); simpl; tauto.
Qed.

Lemma direct_float_tag (value_str : string) (param_name : option string) :
  In (snd (direct_float value_str param_name)) cascade_tags.
Proof.
  unfold direct_float.
  destruct (float_of_str value_str) as [value | ];
    [ | apply extract_number_tag].
  destruct (mentions "efficiency" param_name && looks_like_percent value);
    simpl; tauto.
Qed.

Lemma without_commas_tag (value_str : string) (param_name : option string) :
  In (snd (without_commas value_str param_name)) cascade_tags.
Proof.
  unfold without_commas.
  destruct (Str.contains "," value_str); [ | apply direct_float_tag].
  destruct (float_of_str _); [simpl; tauto | apply direct_float_tag].
Qed.

Lemma percentage_tag (value_str : string) (param_name : option string) :
  In (snd (percentage value_str param_name)) cascade_tags.
Proof.
  unfold percentage.
  destruct (Str.contains "%" value_str); [ | apply without_commas_tag].
  destruct (float_of_str _); [simpl; tauto | apply without_commas_tag].
Qed.

Lemma cascade_never_refuses (value_str : string) (param_name : option string)
    (v : option float) :
  percentage value_str param_name <> (v, "unexpected_boolean").
Proof.
  intros E. pose proof (percentage_tag value_str param_name) as T.
  rewrite E in T. simpl in T.
  repeat (destruct T as [T | T]; [discriminate T | ]). exact T.
Qed.

(** C9. A native boolean cell takes the native-number branch whatever the
    parameter identity, also one of the numeric-only list: [True] gives
    [(1.0, "numeric_direct")] and [False] gives [(0.0, "numeric_direct")].
    The refusal ["unexpected_boolean"] comes only from a text cell that reads
    as a boolean, never from a native boolean. *)
Theorem native_boolean_is_numeric_direct (param_name : option string) :
  parse_value (PyBool true) param_name
    = ret (Some 1%float, "numeric_direct")
  /\ parse_value (PyBool false) param_name
    = ret (Some 0%float, "numeric_direct")
  /\ (forall raw v,
        parse_value raw param_name = ret (v, "unexpected_boolean") ->
        exists s, raw = PyStr s /\ boolean_like s = true).
Proof.
  split; [ | split].
  - unfold parse_value; cbn -[looks_like_percent mentions].
    rewrite one_is_no_percent, andb_false_r. reflexivity.
  - unfold parse_value; cbn -[looks_like_percent mentions].
    rewrite zero_is_no_percent, andb_false_r. reflexivity.
  - intros raw v E. unfold parse_value in E.
    destruct raw as [ | b | n | x | s];
      cbn -[Str.strip Str.upper Str.mem percentage] in E.
    + discriminate E.
    + destruct (mentions "efficiency" param_name
                && looks_like_percent (float_of_bool b)); discriminate E.
    + destruct (float_of_int n) as [e | value]; cbn in E; [discriminate E | ].
      destruct (mentions "efficiency" param_name && looks_like_percent value);
        discriminate E.
    + destruct (mentions "efficiency" param_name && looks_like_percent x);
        discriminate E.
    + exists s. split; [reflexivity | ].
      match type of E with
      | (if ?c then _ else _) = _ => destruct c; [discriminate E | ]
      end.
      unfold boolean_like.
      change ["YES"; "TRUE"; "Y"; "1"; "NO"; "FALSE"; "N"; "0"]
        with (["YES"; "TRUE"; "Y"; "1"] ++ ["NO"; "FALSE"; "N"; "0"])%list.
      unfold Str.mem in *. rewrite existsb_app.
      destruct (existsb _ ["YES"; "TRUE"; "Y"; "1"]); [reflexivity | ].
      destruct (existsb _ ["NO"; "FALSE"; "N"; "0"]); [reflexivity | ].
      inversion E as [E'].
      exfalso. exact (cascade_never_refuses _ _ _ E').
Qed.

End ParseValue.

(** A text cell ["yes"] under [coal_consumption] is refused, and it reads as
    a boolean. *)
Lemma native_boolean_is_numeric_direct_witness :
  exists s, PyStr " yes " = PyStr s /\ boolean_like s = true.
Proof.
  exact (proj2 (proj2 (@native_boolean_is_numeric_direct offline
                         (Some "coal_consumption")))
           (PyStr " yes ") None eq_refl).
Defined.

(* ================================================================= *)
(** ** Validator: validate_value *)

Section Validator.
Import value_parser validator_rules.

Lemma mentions_name (term name : string) :
  Str.contains term (Str.lower name) = true ->
  term <> "" ->
  mentions term (Some name) = true.
Proof.
  intros C T. unfold mentions. rewrite C, andb_true_r.
  destruct name as [ | c name]; [ | reflexivity].
  destruct term; [contradiction | discriminate C].
Qed.

(** C4, as the program has it. For a parameter identity that contains
    ["efficiency"] (in any case): a number that is not a NaN and is held valid
    without a warning lies in [0, 1]; a number above 100 is invalid, with the
    message that names the 100% bound, as for
    [validate_value(150, "efficiency")]; a number in (1, 100] is valid and
    carries the advisory about decimal against percentage. *)
Theorem efficiency_rule_bounds (v : float) (name : string) :
  Str.contains "efficiency" (Str.lower name) = true ->
  (PrimFloat.is_nan v = false ->
   validate_value (Some v) (Some name) = (true, None) ->
   (0 <=? v)%float = true /\ (v <=? 1)%float = true)
  /\ ((100 <? v)%float = true ->
      validate_value (Some v) (Some name)
      = (false, Some [Txt "Efficiency value "; Num v; Txt " exceeds 100%"]))
  /\ ((1 <? v)%float = true -> (v <=? 100)%float = true ->
      validate_value (Some v) (Some name)
      = (true, Some [Txt "Efficiency "; Num v;
                     Txt " - verify if this is decimal or percentage"]))
  /\ validate_value (Some 150%float) (Some "efficiency")
     = (false, Some [Txt "Efficiency value "; Num 150;
                     Txt " exceeds 100%"]).
Proof.
  intros C.
  assert (M : mentions "efficiency" (Some name) = true)
    by (apply mentions_name; [exact C | discriminate]).
  unfold validate_value, check_efficiency. rewrite M.
  split; [ | split; [ | split]].
  - intros N E.
    destruct (v <? 0)%float eqn:L0; destruct (1 <? v)%float eqn:L1;
      cbn [orb] in E;
      try (destruct (100 <? v)%float; discriminate E).
    split; [now apply not_below_0_from_0 | now apply not_above_1_upto_1].
  - intros A. rewrite A, (above_100_above_1 v A), orb_true_r. reflexivity.
  - intros A B. rewrite A, (upto_100_not_above v B), orb_true_r. reflexivity.
  - reflexivity.
Qed.

(** The advisory band is inhabited: 50 under ["Boiler Efficiency"]. *)
Lemma efficiency_rule_bounds_witness :
  validate_value (Some 50%float) (Some "Boiler Efficiency")
  = (true, Some [Txt "Efficiency "; Num 50;
                 Txt " - verify if this is decimal or percentage"]).
Proof.
  exact (proj1 (proj2 (proj2
           (efficiency_rule_bounds 50 "Boiler Efficiency" eq_refl)))
           eq_refl eq_refl).
Defined.

(** C4 as stated fails at a NaN (the text cell ["nan"] parses to one): it is
    held valid without a warning and is not in [0, 1]. *)
Lemma nan_efficiency_is_valid_unwarned :
  PrimFloat.is_nan nan = true
  /\ validate_value (Some nan) (Some "efficiency") = (true, None)
  /\ (0 <=? nan)%float = false
  /\ (nan <=? 1)%float = false.
Proof. repeat split. Qed.

(** C3 as stated fails: under an identity that names both ["efficiency"] and
    ["hour"], the value 50 keeps the advisory of the efficiency rule, where
    the hour rule on its own rejects it. *)
Lemma last_matching_rule_does_not_win :
  validate_value (Some 50%float) (Some "efficiency_hours")
  <> last_matching_rule_wins 50 (Some "efficiency_hours").
Proof.
  vm_compute. discriminate.
Qed.

(** Each rule either objects on its own account or hands over to the code
    that follows it; a rule the identity does not select hands over. *)
Lemma rule_objects_or_hands_over (r : string * check) :
  In r rules ->
  forall v param_name rest,
    (mentions (fst r) param_name = false -> snd r v param_name rest = rest)
    /\ snd r v param_name rest
       = if objects (outcome r v param_name) then outcome r v param_name
         else rest.
Proof.
  intros I v param_name rest.
  repeat (destruct I as [<- | I]); try contradiction;
    unfold outcome; cbn [fst snd];
    unfold check_efficiency, check_coal, check_power, check_hour;
    destruct (mentions _ param_name);
    destruct (v <? 0)%float; try destruct (1 <? v)%float;
    try destruct (100 <? v)%float; try destruct (24 <? v)%float;
    cbn; split; try reflexivity; intros D; discriminate D.
Qed.

Lemma scan_is_first_objection (v : float) (param_name : option string)
    (l : list (string * check)) :
  (forall r, In r l -> In r rules) ->
  scan l v param_name
  = match find (fun r => objects (outcome r v param_name))
               (filter (fun r => mentions (fst r) param_name) l) with
    | Some r => outcome r v param_name
    | None => (true, None)
    end.
Proof.
  induction l as [ | r l IH]; intros A; [reflexivity | ].
  assert (IH' := IH (fun r' I => A r' (or_intror I))).
  destruct (rule_objects_or_hands_over r (A r (or_introl eq_refl))
              v param_name (scan l v param_name)) as [skip step].
  change (scan (r :: l) v param_name)
    with (snd r v param_name (scan l v param_name)).
  cbn [filter].
  destruct (mentions (fst r) param_name).
  - rewrite step. cbn [find].
    destruct (objects (outcome r v param_name)); [reflexivity | exact IH'].
  - rewrite (skip eq_refl). exact IH'.
Qed.

(** C3, as the program has it. The rules are tried in the fixed scan order
    (efficiency, coal, power, hour) and the first matching rule that objects
    (rejects the value or attaches a warning) returns at once; a value no
    matching rule objects to is valid with no warning. *)
Theorem first_objecting_rule_wins (v : float) (param_name : option string) :
  validate_value (Some v) param_name = first_objection_wins v param_name.
Proof.
  unfold first_objection_wins, matching.
  rewrite <- (scan_is_first_objection v param_name rules (fun r I => I)).
  reflexivity.
Qed.

End Validator.

(* ================================================================= *)
(** ** HeaderRowDetector *)

Section HeaderRow.
Import llm_agent.

(** C2 as stated fails: on the rows as written the title row is chosen, its
    one cell being a label. *)
Lemma title_row_of_one_cell_is_chosen :
  detect_header_row title_sheet_as_written default_max_rows_to_check <> 2.
Proof.
  vm_compute. discriminate.
Qed.

(** C2, as the program has it. With the default limit of 5 rows, detection
    answers 2 on the example sheet when its rows are padded with nulls to the
    width of the sheet, and 0 on the rows as written, where the single cell of
    the title row makes that row all labels. *)
Theorem header_row_of_title_sheet :
  detect_header_row title_sheet_as_read default_max_rows_to_check = 2
  /\ detect_header_row title_sheet_as_written default_max_rows_to_check = 0
  /\ mostly_labels [PyStr "Report Title"] = true.
Proof.
  repeat split.
Qed.

(** The scan stops at the first row that is mostly labels. *)
Lemma scan_rows_found (rows : list (list pyval)) (row_idx n r : nat) :
  scan_rows rows row_idx n = Some r ->
  exists i,
    r = row_idx + i /\ i < n /\ i < List.length rows
    /\ mostly_labels (nth i rows []) = true
    /\ forall j, j < i -> mostly_labels (nth j rows []) = false.
Proof.
  revert row_idx n; induction rows as [ | row rows IH]; intros row_idx n;
    destruct n as [ | n]; cbn [scan_rows]; try discriminate.
  destruct (mostly_labels row) eqn:M.
  - intros E; inversion E; subst. exists 0. cbn [nth List.length].
    repeat split; try lia. exact M.
  - intros E. destruct (IH _ _ E) as [i [-> [Ln [Ll [Mi Before]]]]].
    exists (S i). cbn [nth List.length]. repeat split; try lia; try exact Mi.
    intros [ | j] Lj; [exact M | apply Before; lia].
Qed.

Lemma scan_rows_none (rows : list (list pyval)) (row_idx n : nat) :
  scan_rows rows row_idx n = None ->
  forall i, i < n -> i < List.length rows ->
            mostly_labels (nth i rows []) = false.
Proof.
  revert row_idx n; induction rows as [ | row rows IH]; intros row_idx n;
    destruct n as [ | n]; cbn [scan_rows List.length]; try (intros; lia).
  destruct (mostly_labels row) eqn:M; [discriminate | ].
  intros E [ | i] Ln Ll; [exact M | ].
  cbn [nth]. apply (IH _ _ E); lia.
Qed.

(** [detect_header_row] answers the first row, among the first
    [min(limit, rowCount)], of which at least 60% of the cells are labels,
    and 0 when there is none. *)
Lemma detect_header_row_first_qualifying (excel_data : list (list pyval))
    (limit : nat) :
  let r := detect_header_row excel_data limit in
  (forall j, j < r -> mostly_labels (nth j excel_data []) = false)
  /\ (mostly_labels (nth r excel_data []) = true
      \/ (r = 0
          /\ forall i, i < Nat.min limit (List.length excel_data) ->
                       mostly_labels (nth i excel_data []) = false)).
Proof.
  unfold detect_header_row.
  destruct (scan_rows excel_data 0 _) as [r | ] eqn:E.
  - destruct (scan_rows_found _ _ _ _ E) as [i [-> [_ [_ [M Before]]]]].
    cbn. split; [exact Before | left; exact M].
  - cbn. split; [intros j L; lia | right]. split; [reflexivity | ].
    intros i L. apply (scan_rows_none _ _ _ E); lia.
Qed.

End HeaderRow.

(* ================================================================= *)
(** ** FuzzyMatcher: the similarity score *)

Section Similarity.
Import llm_agent.

Lemma count_chars_in_le (shorter longer : string) :
  (Str.count_chars_in shorter longer <= length shorter)%nat.
Proof.
  induction shorter as [ | c s IH]; cbn; [lia | ].
  destruct (Str.char_in c longer); lia.
Qed.

Lemma ratio_in_unit_interval (m n : nat) :
  (m <= n)%nat -> (0 < n)%nat ->
  (0 <= inject_Z (Z.of_nat m) / inject_Z (Z.of_nat n))%Q
  /\ (inject_Z (Z.of_nat m) / inject_Z (Z.of_nat n) <= 1)%Q.
Proof.
  intros L P.
  assert (Pq : (0 < inject_Z (Z.of_nat n))%Q)
    by (change 0%Q with (inject_Z 0); rewrite <- Zlt_Qlt; lia).
  split.
  - apply Qle_shift_div_l; [exact Pq | ].
    rewrite Qmult_0_l. change 0%Q with (inject_Z 0).
    rewrite <- Zle_Qle. lia.
  - apply Qle_shift_div_r; [exact Pq | ].
    rewrite Qmult_1_l. rewrite <- Zle_Qle. lia.
Qed.

(** C8. The similarity of a string with itself is 1 (for every string, the
    empty one included), and the similarity of any two strings lies in
    [0, 1]. The score is the exact quotient that the program rounds to
    binary64. *)
Theorem similarity_reflexive_and_bounded (a b : string) :
  _string_similarity a a = 1%Q
  /\ (0 <= _string_similarity a b)%Q
  /\ (_string_similarity a b <= 1)%Q.
Proof.
  split.
  - unfold _string_similarity. now rewrite String.eqb_refl.
  - unfold _string_similarity.
    destruct (a =? b)%string; [split; discriminate | ].
    destruct ((a =? "") || (b =? ""))%string eqn:E;
      [split; discriminate | ].
    destruct (Str.contains a b || Str.contains b a);
      [split; discriminate | ].
    apply orb_false_elim in E. destruct E as [Ea Eb].
    apply String.eqb_neq in Ea, Eb.
    assert (La : (0 < length a)%nat) by (destruct a; [easy | cbn; lia]).
    assert (Lb : (0 < length b)%nat) by (destruct b; [easy | cbn; lia]).
    destruct (Nat.ltb_spec (length b) (length a)).
    + apply ratio_in_unit_interval; [ | lia].
      pose proof (count_chars_in_le b a). lia.
    + apply ratio_in_unit_interval; [ | lia].
      pose proof (count_chars_in_le a b). lia.
Qed.

End Similarity.

(* ================================================================= *)
(** ** HeaderMapper: the oracle and its fallback *)

Section Oracle.
Import models llm_agent.
Context `{Outside}.

Lemma map_header_with_llm_returns (self : ExcelParsingAgent)
    (header : string) :
  _map_header_with_llm self header
  = ret (match llm_attempt header with
         | inr mapping => mapping
         | inl _ => _fuzzy_match_header self header
         end).
Proof.
  unfold _map_header_with_llm, try_except.
  destruct (llm_attempt header) as [[] | mapping]; reflexivity.
Qed.

Lemma map_header_returns (self : ExcelParsingAgent) (header : string) :
  exists mapping, map_header self header = ret mapping.
Proof.
  unfold map_header.
  destruct (_is_non_parameter (Some header)) as [[] reason];
    [eexists; reflexivity | ].
  destruct (negb (llm_available self)); [eexists; reflexivity | ].
  rewrite map_header_with_llm_returns. eexists; reflexivity.
Qed.

Lemma map_headers_returns (self : ExcelParsingAgent) (headers : list string) :
  exists mappings,
    map_headers self headers = ret mappings
    /\ List.length mappings = List.length headers.
Proof.
  induction headers as [ | header rest [ms [IH L]]]; cbn [map_headers].
  - exists []. split; reflexivity.
  - destruct (map_header_returns self header) as [m E].
    rewrite E, IH. exists (m :: ms). cbn. split; [reflexivity | now rewrite L].
Qed.

Lemma oracle_fails_attempt_raises (header : string) :
  oracle_fails header -> exists e, llm_attempt header = raise e.
Proof.
  unfold llm_attempt, oracle_fails, ret, raise.
  intros [[e G] | [text [G [[e J] | [j [J N]]]]]]; rewrite G; cbn [bind].
  - exists e. reflexivity.
  - rewrite J. exists e. reflexivity.
  - rewrite J. cbn [bind]. exists AttributeError.
    destruct j; try reflexivity. now destruct (N kv).
Qed.

(** C5. With the oracle configured, whenever the attempt on it raises (the
    client raises, its text is no JSON, the JSON is no object, or a field
    does not validate), [_map_header_with_llm] returns the result of
    [_fuzzy_match_header] for that header, and so does the mapping of a
    column that the classifier lets through; these and [map_headers] return
    normally in every case. *)
Theorem oracle_failure_falls_back_to_fuzzy (self : ExcelParsingAgent)
    (header : string) :
  (forall e, llm_attempt header = raise e ->
     _map_header_with_llm self header = ret (_fuzzy_match_header self header))
  /\ (oracle_fails header ->
      _map_header_with_llm self header
      = ret (_fuzzy_match_header self header))
  /\ (llm_available self = true ->
      fst (_is_non_parameter (Some header)) = false ->
      (exists e, llm_attempt header = raise e) ->
      map_header self header = ret (_fuzzy_match_header self header))
  /\ (exists mapping, _map_header_with_llm self header = ret mapping)
  /\ (exists mapping, map_header self header = ret mapping)
  /\ (forall headers, exists mappings, map_headers self headers = ret mappings).
Proof.
  assert (A : forall e, llm_attempt header = raise e ->
            _map_header_with_llm self header
            = ret (_fuzzy_match_header self header)).
  { intros e E. rewrite map_header_with_llm_returns, E. reflexivity. }
  split; [exact A | split; [ | split; [ | split; [ | split]]]].
  - intros F. destruct (oracle_fails_attempt_raises header F) as [e E].
    exact (A e E).
  - intros L N [e E]. unfold map_header.
    destruct (_is_non_parameter (Some header)) as [non_param reason].
    cbn [fst] in N. subst non_param. rewrite L. cbn [negb].
    exact (A e E).
  - rewrite map_header_with_llm_returns. eexists; reflexivity.
  - apply map_header_returns.
  - intros headers. destruct (map_headers_returns self headers) as [ms [E _]].
    exists ms. exact E.
Qed.

End Oracle.

(** With a key configured and the client raising, the column
    ["Coal Used (MT)"] is mapped by the fuzzy matcher. *)
Lemma oracle_failure_falls_back_to_fuzzy_witness :
  @llm_agent._map_header_with_llm offline
    (llm_agent.new_agent (Some "key")) "Coal Used (MT)"
  = ret (llm_agent._fuzzy_match_header
           (llm_agent.new_agent (Some "key")) "Coal Used (MT)").
Proof.
  exact (proj1 (@oracle_failure_falls_back_to_fuzzy offline
                  (llm_agent.new_agent (Some "key")) "Coal Used (MT)")
           (ClientError "no network") eq_refl).
Defined.

(* ================================================================= *)
(** ** Case and blanks of texts *)

Section Strings.

Lemma lower_char_idempotent (c : ascii) :
  Str.lower_char (Str.lower_char c) = Str.lower_char c.
Proof.
  destruct c as [[] [] [] [] [] [] [] []]; reflexivity.
Qed.

Lemma lower_char_space (c : ascii) :
  Str.is_space (Str.lower_char c) = Str.is_space c.
Proof.
  destruct c as [[] [] [] [] [] [] [] []]; reflexivity.
Qed.

Lemma lower_idempotent (s : string) : Str.lower (Str.lower s) = Str.lower s.
Proof.
  induction s as [ | c s IH]; cbn; [reflexivity | ].
  now rewrite lower_char_idempotent, IH.
Qed.

Lemma lstrip_lower (s : string) :
  Str.lstrip (Str.lower s) = Str.lower (Str.lstrip s).
Proof.
  induction s as [ | c s IH]; cbn [Str.lower Str.lstrip]; [reflexivity | ].
  rewrite lower_char_space. now destruct (Str.is_space c).
Qed.

Lemma rstrip_lower (s : string) :
  Str.rstrip (Str.lower s) = Str.lower (Str.rstrip s).
Proof.
  induction s as [ | c s IH]; cbn [Str.lower Str.rstrip]; [reflexivity | ].
  rewrite IH, lower_char_space.
  destruct (Str.rstrip s); cbn [Str.lower]; [ | reflexivity].
  now destruct (Str.is_space c).
Qed.

Lemma strip_lower (s : string) :
  Str.strip (Str.lower s) = Str.lower (Str.strip s).
Proof.
  unfold Str.strip. now rewrite lstrip_lower, rstrip_lower.
Qed.

(** Trailing blanks do not matter to a prefix that has no blank. *)
Lemma prefix_rstrip (p s : string) :
  no_space p = true ->
  String.prefix p (Str.rstrip s) = String.prefix p s.
Proof.
  revert p; induction s as [ | c s IH]; intros p N; [reflexivity | ].
  destruct p as [ | d p]; [now destruct (Str.rstrip (String c s)) | ].
  cbn [no_space] in N. apply andb_true_iff in N. destruct N as [Nd Np].
  cbn [Str.rstrip]. specialize (IH p Np).
  destruct (Str.rstrip s) as [ | e r].
  - destruct (Str.is_space c) eqn:Sc; cbn [String.prefix].
    + destruct (ascii_dec d c) as [-> | ]; [ | reflexivity].
      rewrite Sc in Nd. discriminate Nd.
    + destruct (ascii_dec d c); [exact IH | reflexivity].
  - cbn [String.prefix]. destruct (ascii_dec d c); [exact IH | reflexivity].
Qed.

Lemma lstrip_length (s : string) : length (Str.lstrip s) <= length s.
Proof.
  induction s as [ | c s IH]; cbn [Str.lstrip]; [lia | ].
  destruct (Str.is_space c); cbn [length]; lia.
Qed.

(** A text is fixed by [lstrip] exactly when it does not begin with a
    blank. *)
Lemma lstrip_fixed (c : ascii) (s : string) :
  Str.lstrip (String c s) = String c s <-> Str.is_space c = false.
Proof.
  cbn [Str.lstrip]. destruct (Str.is_space c); split; try easy.
  intros E. pose proof (lstrip_length s) as L. rewrite E in L.
  cbn in L. lia.
Qed.

Lemma lstrip_lstrip (s : string) : Str.lstrip (Str.lstrip s) = Str.lstrip s.
Proof.
  induction s as [ | c s IH]; cbn [Str.lstrip]; [reflexivity | ].
  destruct (Str.is_space c) eqn:E; [exact IH | ].
  now apply lstrip_fixed.
Qed.

Lemma lstrip_rstrip (s : string) :
  Str.lstrip s = s -> Str.lstrip (Str.rstrip s) = Str.rstrip s.
Proof.
  destruct s as [ | c s]; [reflexivity | ].
  intros E. apply lstrip_fixed in E. cbn [Str.rstrip].
  destruct (Str.rstrip s); [rewrite E | ]; now apply lstrip_fixed.
Qed.

Lemma lstrip_strip (s : string) : Str.lstrip (Str.strip s) = Str.strip s.
Proof.
  unfold Str.strip. apply lstrip_rstrip, lstrip_lstrip.
Qed.

End Strings.

(* ================================================================= *)
(** ** NonParameterClassifier *)

Section Classifier.
Import llm_agent.


(** The classifier as the program has it. The checks are made in order and
    the first that applies decides: an empty or null header is flagged as
    ["Empty header"]; else the first term of the block set that occurs in
    the lowercased header is named in the reason; else a header whose
    lowercased form starts with ["column_"], or whose trimmed, lowercased
    form starts with ["unnamed"], is flagged as
    ["Unnamed or generic column"]; else the header is not flagged. *)
Lemma classifier_checks_in_order (header : option string) :
  _is_non_parameter header = classifier_as_built header.
Proof.
  destruct header as [[ | c h] | ]; try reflexivity.
  unfold _is_non_parameter, classifier_as_built.
  cbn [some_nonempty String.eqb negb]. change block_set with non_terms.
  destruct (find _ non_terms); [reflexivity | ].
  now rewrite strip_lower, lower_idempotent.
Qed.

(** The first two checks are those of the specification. *)
Lemma classifier_first_checks (header : option string) :
  (header = None \/ header = Some "" ->
   _is_non_parameter header = (true, Some "Empty header"))
  /\ (forall h term,
        header = Some h -> h <> "" ->
        find (fun term => Str.contains term (Str.lower h)) block_set
        = Some term ->
        _is_non_parameter header
        = (true, Some ("Non-parameter column detected: '" ++ term ++ "'"))).
Proof.
  split.
  - intros [-> | ->]; reflexivity.
  - intros h term -> N F. unfold _is_non_parameter.
    destruct h as [ | c h]; [contradiction | ].
    cbn [some_nonempty String.eqb negb]. change non_terms with block_set.
    now rewrite F.
Qed.

(** On a header that does not begin with a blank the program classifies as
    the specification says. *)
Lemma classifier_agrees_without_leading_blank (header : option string) :
  (forall h, header = Some h -> Str.lstrip h = h) ->
  _is_non_parameter header = classifier_as_specified header.
Proof.
  intros L. destruct header as [h | ]; [ | reflexivity].
  specialize (L h eq_refl).
  destruct h as [ | c h]; [reflexivity | ].
  unfold _is_non_parameter, classifier_as_specified.
  cbn [some_nonempty String.eqb negb]. change block_set with non_terms.
  set (s := String c h) in *.
  destruct (find _ non_terms); [reflexivity | ].
  rewrite strip_lower, lower_idempotent.
  unfold Str.startswith.
  replace (String.prefix "column_" (Str.lower (Str.strip s)))
    with (String.prefix "column_" (Str.lower s)); [reflexivity | ].
  rewrite <- strip_lower. unfold Str.strip.
  rewrite lstrip_lower, L. symmetry. now apply prefix_rstrip.
Qed.

(** The headers that [parse_file] builds do not begin with a blank, so the
    departure does not show through [parse_file]. *)
Lemma built_headers_classified_as_specified `{Outside}
    (item : nat * pyval) :
  _is_non_parameter (Some (parser.header_of item))
  = classifier_as_specified (Some (parser.header_of item)).
Proof.
  apply classifier_agrees_without_leading_blank.
  intros h E. inversion E; subst h; clear E.
  destruct item as [i cell]. unfold parser.header_of.
  destruct (truthy cell); [apply lstrip_strip | reflexivity].
Qed.

End Classifier.

(* ================================================================= *)
(** ** DuplicateDetector *)

Section Duplicates.
Import models parser.
#[local] Open Scope list_scope.

Lemma key_eqb_spec (a b : key) : reflect (a = b) (key_eqb a b).
Proof.
  destruct a as [p a], b as [q b]. unfold key_eqb; cbn [fst snd].
  destruct (String.eqb_spec p q) as [-> | N]; cbn [andb];
    [ | constructor; congruence].
  destruct a as [a | ], b as [b | ]; cbn [option_string_eqb];
    try (constructor; congruence).
  destruct (String.eqb_spec a b) as [-> | N]; constructor; congruence.
Qed.

Lemma enumerate_from_app {A : Type} (l l' : list A) (start : nat) :
  enumerate_from start (l ++ l')
  = enumerate_from start l ++ enumerate_from (start + List.length l) l'.
Proof.
  revert start; induction l as [ | a l IH]; intros start; cbn.
  - now rewrite Nat.add_0_r.
  - rewrite IH. now rewrite Nat.add_succ_r.
Qed.

Lemma columns_of_snoc (k : key) (ms : list MappingResult)
    (m : MappingResult) :
  columns_of k (ms ++ [m])
  = columns_of k ms ++ (if has_key k m then [List.length ms] else []).
Proof.
  unfold columns_of, enumerate.
  rewrite enumerate_from_app, filter_app, map_app. cbn.
  now destruct (has_key k m).
Qed.

Lemma group_columns_snoc (ms : list MappingResult) (m : MappingResult) :
  group_columns (ms ++ [m])
  = group_step (group_columns ms) (List.length ms, m).
Proof.
  unfold group_columns, enumerate.
  now rewrite enumerate_from_app, fold_left_app.
Qed.

Lemma lookup_setdefault_append (d : list (key * list nat)) (k k' : key)
    (c : nat) :
  lookup (setdefault_append d k c) k'
  = if key_eqb k k'
    then Some (match lookup d k with
               | Some cols => cols ++ [c]
               | None => [c]
               end)
    else lookup d k'.
Proof.
  induction d as [ | [k0 cols0] d IH]; cbn [setdefault_append lookup].
  - reflexivity.
  - destruct (key_eqb_spec k0 k) as [-> | N0]; cbn [lookup].
    + destruct (key_eqb_spec k k'); reflexivity.
    + rewrite IH.
      destruct (key_eqb_spec k0 k') as [-> | N1];
        destruct (key_eqb_spec k k') as [-> | N2];
        try reflexivity; congruence.
Qed.

Lemma keys_setdefault_append (d : list (key * list nat)) (k : key)
    (c : nat) :
  map fst (setdefault_append d k c)
  = match lookup d k with
    | Some _ => map fst d
    | None => map fst d ++ [k]
    end.
Proof.
  induction d as [ | [k0 cols0] d IH]; cbn [setdefault_append lookup map fst].
  - reflexivity.
  - destruct (key_eqb_spec k0 k) as [-> | N0]; cbn [map fst]; [reflexivity | ].
    rewrite IH. now destruct (lookup d k).
Qed.

Lemma lookup_none_not_in (d : list (key * list nat)) (k : key) :
  lookup d k = None <-> ~ In k (map fst d).
Proof.
  induction d as [ | [k0 cols0] d IH]; cbn [lookup map fst In].
  - tauto.
  - destruct (key_eqb_spec k0 k) as [-> | N0].
    + split; [discriminate | tauto].
    + rewrite IH. tauto.
Qed.

Lemma lookup_in (d : list (key * list nat)) (k : key) (cols : list nat) :
  NoDup (map fst d) -> In (k, cols) d -> lookup d k = Some cols.
Proof.
  induction d as [ | [k0 cols0] d IH]; cbn [lookup map fst In];
    [tauto | ].
  intros ND [E | I].
  - inversion E; subst. now destruct (key_eqb_spec k k).
  - inversion ND as [ | ? ? NI ND']; subst.
    destruct (key_eqb_spec k0 k) as [-> | N0].
    + destruct NI. apply (in_map fst) in I. exact I.
    + now apply IH.
Qed.

Lemma in_enumerate_from {A : Type} (l : list A) (start i : nat) (a : A) :
  In (i, a) (enumerate_from start l)
  <-> start <= i /\ nth_error l (i - start) = Some a.
Proof.
  revert start; induction l as [ | b l IH]; intros start;
    cbn [enumerate_from In].
  - split; [tauto | ]. intros [_ E]. now destruct (i - start).
  - rewrite IH. split.
    + intros [E | [L E]].
      * inversion E; subst. rewrite Nat.sub_diag. split; [lia | reflexivity].
      * split; [lia | ].
        replace (i - start) with (S (i - S start)) by lia. exact E.
    + intros [L E]. destruct (Nat.eq_dec start i) as [<- | N].
      * rewrite Nat.sub_diag in E. cbn in E. left. congruence.
      * right. split; [lia | ].
        replace (i - start) with (S (i - S start)) in E by lia. exact E.
Qed.

(** [columns_of] lists the columns whose mapping has the key. *)
Lemma in_columns_of (k : key) (ms : list MappingResult) (c : nat) :
  In c (columns_of k ms)
  <-> exists m, nth_error ms c = Some m /\ has_key k m = true.
Proof.
  unfold columns_of, enumerate. rewrite in_map_iff. split.
  - intros [[i m] [<- I]]. apply filter_In in I. destruct I as [I K].
    apply in_enumerate_from in I. destruct I as [_ I].
    rewrite Nat.sub_0_r in I. exists m. split; [exact I | exact K].
  - intros [m [E K]]. exists (c, m). split; [reflexivity | ].
    apply filter_In. split; [ | exact K].
    apply in_enumerate_from. rewrite Nat.sub_0_r. split; [lia | exact E].
Qed.

Lemma columns_from_increasing (k : key) (ms : list MappingResult)
    (start : nat) :
  let cols := map fst (filter (fun item => has_key k (snd item))
                              (enumerate_from start ms)) in
  Forall (fun c => start <= c) cols /\ StronglySorted lt cols.
Proof.
  revert start; induction ms as [ | m ms IH]; intros start;
    cbn [enumerate_from filter map].
  - split; constructor.
  - destruct (IH (S start)) as [B Srt].
    assert (B' : Forall (fun c => start <= c)
                   (map fst (filter (fun item => has_key k (snd item))
                                    (enumerate_from (S start) ms)))).
    { eapply Forall_impl; [ | exact B]. cbn; intros; lia. }
    cbn [snd]. destruct (has_key k m); cbn [map fst]; [ | now split].
    split; constructor; try assumption; lia.
Qed.

(** ... in ascending order, so that its first two entries are the first two
    columns that collide. *)
Lemma columns_of_increasing (k : key) (ms : list MappingResult) :
  StronglySorted lt (columns_of k ms).
Proof.
  exact (proj2 (columns_from_increasing k ms 0)).
Qed.

Lemma group_columns_groups (ms : list MappingResult) :
  groups (group_columns ms) ms.
Proof.
  induction ms as [ | m ms [ND L]] using rev_ind.
  - split; [constructor | reflexivity].
  - rewrite group_columns_snoc. unfold group_step.
    split.
    + destruct (m_param_name m) as [param | ]; [ | exact ND].
      rewrite keys_setdefault_append.
      destruct (lookup (group_columns ms) (param, m_asset_name m)) eqn:E;
        [exact ND | ].
      apply lookup_none_not_in in E.
      apply NoDup_app; [exact ND | repeat constructor; intros [] | ].
      intros k I [<- | []]. now apply E.
    + intros k. rewrite columns_of_snoc. unfold has_key, key_of.
      destruct (m_param_name m) as [param | ].
      * rewrite lookup_setdefault_append, !L.
        destruct (key_eqb_spec (param, m_asset_name m) k) as [<- | N].
        -- now destruct (columns_of _ ms).
        -- rewrite app_nil_r. reflexivity.
      * rewrite app_nil_r. apply L.
Qed.

Lemma duplicate_warnings_of_groups (ms : list MappingResult)
    (d : list (key * list nat)) :
  (forall k cols, In (k, cols) d -> cols = columns_of k ms) ->
  duplicate_warnings d
  = map (warning_of ms)
        (filter (fun k => Nat.leb 2 (List.length (columns_of k ms)))
                (map fst d)).
Proof.
  induction d as [ | [[param asset] cols] d IH]; intros A; [reflexivity | ].
  cbn [duplicate_warnings map fst filter].
  rewrite (IH (fun k c I => A k c (or_intror I))).
  rewrite <- (A (param, asset) cols (or_introl eq_refl)).
  destruct cols as [ | c0 [ | c1 cols]]; cbn [List.length Nat.leb];
    try reflexivity.
  cbn [map]. unfold warning_of at 2.
  rewrite <- (A (param, asset) _ (or_introl eq_refl)). reflexivity.
Qed.

Lemma grouped_keys (ms : list MappingResult) (k : key) :
  In k (map fst (group_columns ms)) <-> columns_of k ms <> [].
Proof.
  destruct (group_columns_groups ms) as [_ L].
  destruct (in_dec (fun a b => reflect_dec _ _ (key_eqb_spec a b))
              k (map fst (group_columns ms))) as [I | NI].
  - split; [ | tauto]. intros _ E.
    assert (N : lookup (group_columns ms) k = None) by now rewrite L, E.
    now apply lookup_none_not_in in N.
  - split; [tauto | ]. intros N. exfalso. apply N.
    apply lookup_none_not_in in NI. rewrite L in NI.
    now destruct (columns_of k ms).
Qed.

Lemma warnings_by_key (ms : list MappingResult) :
  duplicate_warnings (group_columns ms)
  = map (warning_of ms) (filter (collides ms) (map fst (group_columns ms))).
Proof.
  destruct (group_columns_groups ms) as [ND L].
  apply duplicate_warnings_of_groups. intros k cols I.
  pose proof (lookup_in _ k cols ND I) as E. rewrite L in E.
  destruct (columns_of k ms); congruence.
Qed.

Lemma has_key_iff (k : key) (m : MappingResult) :
  has_key k m = true
  <-> m_param_name m = Some (fst k) /\ m_asset_name m = snd k.
Proof.
  unfold has_key, key_of. destruct k as [param asset]. cbn [fst snd].
  destruct (m_param_name m) as [p | ]; [ | split; [ | intros [E _]];
    discriminate].
  destruct (key_eqb_spec (p, m_asset_name m) (param, asset)) as [E | N].
  - inversion E. now split.
  - split; [discriminate | ]. intros [E1 E2]. destruct N. congruence.
Qed.

(** The first two columns of a key that collides, the lowest two. *)
Lemma first_two_columns (k : key) (ms : list MappingResult) :
  2 <= List.length (columns_of k ms) ->
  exists c0 c1 rest,
    columns_of k ms = c0 :: c1 :: rest /\ c0 < c1 /\ Forall (lt c1) rest.
Proof.
  intros L. pose proof (columns_of_increasing k ms) as S.
  destruct (columns_of k ms) as [ | c0 [ | c1 rest]];
    [cbn in L; lia | cbn in L; lia | ].
  exists c0, c1, rest. inversion S as [ | ? ? S1 F0]; subst.
  inversion S1 as [ | ? ? S2 F1]; subst. inversion F0; subst.
  repeat split; assumption.
Qed.

(** C7. The duplication warnings are, one for one, the keys
    [(parameter, asset)] to which two or more mapped columns belong: no key
    twice, whatever the number of its columns, and none for a key of at most
    one column. The columns of a key are the columns whose mapping has that
    parameter and that asset. The warning of a key is the text
    ["Column duplication: <parameter> (<asset>) appears in columns <c0> and
    <c1>"], where [<asset>] reads [None] for a mapping without an asset and
    [c0 < c1] are the lowest two columns of the key. *)
Theorem one_warning_per_colliding_key (header_mappings : list MappingResult) :
  exists keys : list key,
    NoDup keys
    /\ (forall k, In k keys
                  <-> 2 <= List.length (columns_of k header_mappings))
    /\ duplicate_warnings (group_columns header_mappings)
       = map (warning_of header_mappings) keys
    /\ List.length (duplicate_warnings (group_columns header_mappings))
       = List.length keys
    /\ (forall k c,
          In c (columns_of k header_mappings)
          <-> exists mapping,
                nth_error header_mappings c = Some mapping
                /\ m_param_name mapping = Some (fst k)
                /\ m_asset_name mapping = snd k)
    /\ Forall (fun k =>
                 exists c0 c1 rest,
                   columns_of k header_mappings = c0 :: c1 :: rest
                   /\ c0 < c1 /\ Forall (lt c1) rest
                   /\ warning_of header_mappings k
                      = ("Column duplication: " ++ fst k ++ " ("
                         ++ match snd k with
                            | Some asset => asset
                            | None => "None"
                            end
                         ++ ") appears in columns " ++ Str.of_nat c0
                         ++ " and " ++ Str.of_nat c1)%string)
              keys.
Proof.
  exists (filter (collides header_mappings)
                 (map fst (group_columns header_mappings))).
  split; [ | split; [ | split; [ | split; [ | split]]]].
  - apply NoDup_filter. exact (proj1 (group_columns_groups header_mappings)).
  - intros k. rewrite filter_In, grouped_keys. unfold collides.
    rewrite Nat.leb_le. split; [tauto | ].
    intros G. split; [ | exact G].
    destruct (columns_of k header_mappings); [cbn in G; lia | discriminate].
  - apply warnings_by_key.
  - rewrite warnings_by_key. apply length_map.
  - intros k c. rewrite in_columns_of. split; intros [m [N K]]; exists m.
    + apply has_key_iff in K. tauto.
    + split; [exact N | now apply has_key_iff].
  - apply Forall_forall. intros k I. apply filter_In in I.
    destruct I as [_ C]. unfold collides in C. apply Nat.leb_le in C.
    destruct (first_two_columns _ _ C) as [c0 [c1 [rest [E [L F]]]]].
    exists c0, c1, rest. unfold warning_of. rewrite E.
    repeat split; assumption.
Qed.

(** Three columns of one key leave one warning, on the lowest two; a
    mapping without an asset reads [None]. *)
Example five_columns_two_warnings :
  duplicate_warnings (group_columns five_columns)
  = ["Column duplication: power_generation (TG-1) appears in columns 0 and 2";
     "Column duplication: steam_flow (None) appears in columns 1 and 4"]%string.
Proof.
  reflexivity.
Qed.

Lemma mem_in (x : string) (l : list string) : Str.mem x l = true <-> In x l.
Proof.
  unfold Str.mem. rewrite existsb_exists. split.
  - intros [y [I E]]. apply String.eqb_eq in E. now subst.
  - intros I. exists x. split; [exact I | apply String.eqb_refl].
Qed.

Lemma unique_from_spec (seen ws : list string) :
  NoDup (unique_from seen ws)
  /\ forall w, In w (unique_from seen ws) <-> In w ws /\ ~ In w seen.
Proof.
  revert seen; induction ws as [ | x ws IH]; intros seen;
    cbn [unique_from].
  - split; [constructor | ]. intros w. cbn. tauto.
  - destruct (Str.mem x seen) eqn:M.
    + apply mem_in in M. destruct (IH seen) as [ND I]. split; [exact ND | ].
      intros w. rewrite I. cbn [In]. split; [tauto | ].
      intros [[<- | J] N]; [contradiction | tauto].
    + assert (N : ~ In x seen)
        by (intros J; apply mem_in in J; congruence).
      destruct (IH (x :: seen)) as [ND I]. split.
      * constructor; [ | exact ND]. rewrite I. cbn [In]. tauto.
      * intros w. cbn [In]. rewrite I. cbn [In].
        destruct (string_dec x w) as [<- | D]; tauto.
Qed.

(** After the deduplication every warning that was recorded stands exactly
    once. *)
Lemma recorded_warning_stands_once (ws : list string) (w : string) :
  In w ws -> count_occ string_dec (unique_warnings ws) w = 1.
Proof.
  intros I. destruct (unique_from_spec [] ws) as [ND J].
  apply NoDup_count_occ' ; [exact ND | ].
  apply J. split; [exact I | intros []].
Qed.

End Duplicates.

Section Response.
Import models llm_agent parser.
Context `{Outside}.
#[local] Open Scope list_scope.

(** The headers, when every [str(cell)] returns. *)
Lemma headers_of_row_returns (items : list (nat * pyval))
    (headers : list string) :
  headers_of_row items = ret headers -> headers = map header_of items.
Proof.
  revert headers. induction items as [ | item items IH]; intros headers;
    cbn [headers_of_row map].
  - intros E; inversion E. reflexivity.
  - unfold header_text.
    destruct (truthy (snd item) && str_raises (snd item)); cbn [bind];
      [discriminate | ].
    destruct (headers_of_row items) as [e | rest]; cbn [bind];
      [discriminate | ].
    intros E; inversion E. now rewrite (IH rest eq_refl).
Qed.

(** The headers raise only [ValueError], on a cell that holds an integer
    too long to be written. *)
Lemma headers_of_row_raises (items : list (nat * pyval)) (e : exn) :
  headers_of_row items = raise e ->
  e = ValueError
  /\ exists col_idx cell,
       In (col_idx, cell) items /\ truthy cell = true
       /\ str_raises cell = true.
Proof.
  induction items as [ | [col_idx cell] items IH]; cbn [headers_of_row];
    [discriminate | ].
  unfold header_text. cbn [snd].
  destruct (truthy cell && str_raises cell) eqn:T; cbn [bind].
  - intros E; inversion E. split; [reflexivity | ].
    apply andb_true_iff in T. exists col_idx, cell.
    split; [now left | exact T].
  - destruct (headers_of_row items) as [e' | rest]; cbn [bind];
      [ | discriminate].
    intros E; inversion E; subst e'.
    destruct (IH eq_refl) as [-> [c [v [I R]]]].
    split; [reflexivity | ]. exists c, v. split; [now right | exact R].
Qed.

Lemma parse_sheet_warnings (agent : ExcelParsingAgent)
    (raw_data : list (list pyval)) (response : ParseResponse) :
  parse_sheet agent raw_data = ret response ->
  exists header_mappings earlier,
    map_headers agent (headers_of_sheet raw_data) = ret header_mappings
    /\ warnings response
       = unique_warnings
           (earlier ++ duplicate_warnings (group_columns header_mappings)).
Proof.
  unfold parse_sheet. cbv zeta.
  destruct (headers_of_row _) as [e | headers] eqn:Hd; cbn [bind];
    [discriminate | ].
  apply headers_of_row_returns in Hd. subst headers.
  fold (headers_of_sheet raw_data).
  destruct (map_headers agent (headers_of_sheet raw_data))
    as [e | header_mappings]; cbn [bind]; [discriminate | ].
  destruct (process_rows _ _ _ _) as [e | st]; cbn [bind]; [discriminate | ].
  destruct (fold_left assets_step header_mappings ([], []))
    as [param_assets detected_assets_set].
  intros E. inversion E; subst response; clear E. cbn [warnings].
  eexists _, _. split; reflexivity.
Qed.

(** In the response, the warning of every key with two or more columns
    stands exactly once. *)
Lemma response_names_each_collision_once (agent : ExcelParsingAgent)
    (raw_data : list (list pyval)) (response : ParseResponse)
    (header_mappings : list MappingResult) (k : key) :
  parse_sheet agent raw_data = ret response ->
  map_headers agent (headers_of_sheet raw_data) = ret header_mappings ->
  2 <= List.length (columns_of k header_mappings) ->
  count_occ string_dec (warnings response) (warning_of header_mappings k) = 1.
Proof.
  intros P M C.
  destruct (parse_sheet_warnings _ _ _ P) as [ms [earlier [M' W]]].
  rewrite M in M'. inversion M'; subst ms; clear M'.
  rewrite W. apply recorded_warning_stands_once.
  apply in_or_app. right.
  rewrite warnings_by_key. apply in_map, filter_In. split.
  - apply grouped_keys. destruct (columns_of k header_mappings);
      [cbn in C; lia | discriminate].
  - unfold collides. now apply Nat.leb_le.
Qed.

End Response.

(* ================================================================= *)
(** ** ReportAssembler: the data rows *)

Section Rows.
Import models value_parser parser.
Context `{Outside}.
#[local] Open Scope list_scope.

Lemma validation_warning_nonempty (parsed_value : option float)
    (param_name : option string) (is_valid : bool) (w : fstring) :
  validate_value parsed_value param_name = (is_valid, Some w) -> w <> [].
Proof.
  unfold validate_value. destruct parsed_value as [v | ]; [ | discriminate].
  unfold check_efficiency, check_coal, check_power, check_hour.
  destruct (mentions "efficiency" param_name);
  destruct (mentions "coal" param_name);
  destruct (mentions "power" param_name);
  destruct (mentions "hour" param_name);
  destruct (v <? 0)%float; destruct (1 <? v)%float;
  destruct (100 <? v)%float; destruct (24 <? v)%float;
  cbn; intros E; inversion E; discriminate.
Qed.

Lemma extends_refl (st : run) : extends st st.
Proof.
  exists [], []. rewrite !app_nil_r. repeat split. constructor.
Qed.

Lemma extends_trans (a b c : run) : extends a b -> extends b c -> extends a c.
Proof.
  intros [cs [ws [C [W F]]]] [cs' [ws' [C' [W' F']]]].
  exists (cs ++ cs'), (ws ++ ws').
  rewrite C', C, W', W, !app_assoc. repeat split.
  apply Forall_app. now split.
Qed.

Lemma process_cell_extends (mapping : MappingResult) (name : string)
    (row_idx col_idx : nat) (cell_value : pyval) (st st' : run) :
  process_cell mapping name row_idx col_idx cell_value st = ret st' ->
  extends st st'.
Proof.
  unfold process_cell.
  destruct (parse_value cell_value (Some name)) as [e | [pv pm]];
    cbn [bind]; [discriminate | ].
  destruct (validate_value pv (Some name)) as [is_valid [w | ]] eqn:V;
    intros E; inversion E; subst; clear E.
  - eexists [_], [_]. cbn [add_warning add_cell cells warns].
    repeat split. constructor; [ | constructor].
    pose proof (validation_warning_nonempty _ _ _ _ V).
    destruct w; [contradiction | cbn; lia].
  - eexists [_], []. cbn [add_cell cells warns]. rewrite app_nil_r.
    repeat split. constructor.
Qed.

Lemma process_cells_extends (header_mappings : list MappingResult)
    (n_headers row_idx : nat) (row : list (nat * pyval)) (st st' : run) :
  process_cells header_mappings n_headers row_idx row st = ret st' ->
  extends st st'.
Proof.
  revert st; induction row as [ | [col_idx cell_value] row IH]; intros st;
    cbn [process_cells].
  - intros E; inversion E; subst. apply extends_refl.
  - destruct (Nat.leb n_headers col_idx).
    { intros E; inversion E; subst. apply extends_refl. }
    destruct (nth_error header_mappings col_idx) as [mapping | ];
      [ | discriminate].
    destruct (m_param_name mapping) as [name | ]; [ | apply IH].
    destruct (process_cell mapping name row_idx col_idx cell_value st)
      as [e | st1] eqn:P; cbn [bind]; [discriminate | ].
    intros E. eapply extends_trans; [ | apply (IH _ E)].
    exact (process_cell_extends _ _ _ _ _ _ _ P).
Qed.

Lemma all_falsy_no_truthy (row : list pyval) :
  all_falsy row = negb (existsb truthy row).
Proof.
  unfold all_falsy. induction row as [ | cell row IH]; [reflexivity | ].
  cbn. rewrite IH. now destruct (truthy cell).
Qed.

(** C10. A data row is skipped (no cell parsed, one warning that names its
    index) exactly when every cell of it is false in a test; so a row made of
    numeric zeros, empty texts, [False] and [None] is skipped like an empty
    one. *)
Theorem falsy_rows_are_skipped (header_mappings : list MappingResult)
    (n_headers row_idx : nat) (row : list pyval) (st : run) :
  (process_row header_mappings n_headers row_idx row st
   = ret (skipped row_idx st)
   <-> all_falsy row = true)
  /\ (Forall (fun cell => In cell zero_like) row ->
      process_row header_mappings n_headers row_idx row st
      = ret (skipped row_idx st)).
Proof.
  assert (A : all_falsy row = true ->
              process_row header_mappings n_headers row_idx row st
              = ret (skipped row_idx st)).
  { intros F. unfold process_row.
    rewrite <- all_falsy_no_truthy, F. reflexivity. }
  split; [split; [ | exact A] | ].
  - intros E. destruct (all_falsy row) eqn:F; [reflexivity | exfalso].
    unfold process_row in E. rewrite <- all_falsy_no_truthy, F in E.
    apply process_cells_extends in E.
    destruct E as [cs [ws [_ [W L]]]]. cbn [skipped warns] in W.
    apply app_inv_head in W. subst ws.
    inversion L as [ | ? ? L1 _]; subst. cbn in L1. lia.
  - intros Z. apply A. unfold all_falsy. apply forallb_forall.
    intros cell I. rewrite Forall_forall in Z. specialize (Z cell I).
    unfold zero_like in Z. cbn [In] in Z.
    repeat (destruct Z as [<- | Z]; [reflexivity | ]). contradiction.
Qed.

End Rows.

(** Row 7, made of [0], the empty text and [False]. *)
Lemma falsy_rows_are_skipped_witness :
  @parser.process_row offline [] 3 7 [PyInt 0; PyStr ""; PyBool false]
                      (parser.mkRun [] [])
  = ret (skipped 7 (parser.mkRun [] [])).
Proof.
  exact (proj2 (@falsy_rows_are_skipped offline [] 3 7
                  [PyInt 0; PyStr ""; PyBool false] (parser.mkRun [] []))
           (Forall_cons _ (or_intror (or_introl eq_refl))
              (Forall_cons _ (or_intror (or_intror (or_intror (or_intror
                                  (or_introl eq_refl)))))
                 (Forall_cons _ (or_intror (or_intror (or_intror (or_intror
                                  (or_intror (or_introl eq_refl))))))
                    (Forall_nil _))))).
Defined.

(* ================================================================= *)
(** ** ConfidenceReconciler *)

Section Confidence.
Import models llm_agent parser.
Context `{Outside}.

(** C1. The program breaks the downgrade-only rule on the sheet above: with
    no oracle, column 1 is mapped to [nox_emissions] with confidence low, and
    its empty cell in row 1 comes out with confidence medium, the rule for
    cells without a value assigning medium whatever the level was. *)
Theorem null_cell_of_low_column_is_medium :
  let agent := new_agent None in
  map (fun m => (m_param_name m, m_confidence m))
      (match map_headers agent ["Date"; "XQZ"; "Power Generation"] with
       | inr ms => ms
       | inl _ => []
       end)
  = [(None, "low"); (Some "nox_emissions", "low");
     (Some "power_generation", "high")]
  /\ map (fun c => (c_row c, c_col c, c_parsed_value c, c_confidence c))
         (parsed_data (parse_file agent low_confidence_sheet))
     = [(1, 1, None, "medium"); (1, 2, Some 120%float, "high")]
  /\ final_confidence "low" "null_value" None true = "medium"
  /\ higher "medium" "low" = true.
Proof.
  repeat split.
Qed.

Lemma higher_irrefl (c : string) : higher c c = false.
Proof.
  unfold higher. destruct (level c); [apply Nat.ltb_irrefl | reflexivity].
Qed.

Lemma nothing_below_low (c : string) : higher "low" c = false.
Proof.
  unfold higher. cbn. now destruct (level c).
Qed.

Lemma medium_above_low_only (c : string) :
  higher "medium" c = true -> c = "low".
Proof.
  unfold higher, level.
  destruct (String.eqb_spec c "low"); [easy | ].
  destruct (String.eqb_spec c "medium"); [discriminate | ].
  destruct (String.eqb_spec c "high"); discriminate.
Qed.

(** Apart from the rule for cells without a value, no step raises the
    level. *)
Lemma confidence_raised_only_by_null_rule
    (mapping_confidence parse_method : string) (parsed_value : option float)
    (is_valid : bool) :
  higher (final_confidence mapping_confidence parse_method parsed_value
                           is_valid) mapping_confidence = true ->
  mapping_confidence = "low" /\ parsed_value = None /\ is_valid = true
  /\ (parse_method = "null_value" \/ parse_method = "unparseable").
Proof.
  unfold final_confidence.
  destruct is_valid; cbn [negb];
    [ | rewrite nothing_below_low; discriminate].
  destruct parsed_value as [v | ]; cbn [andb].
  - destruct (parse_method =? "unexpected_boolean")%string;
      [rewrite nothing_below_low; discriminate | ].
    destruct (parse_method =? "extracted_number")%string; cbn [andb];
      [ | rewrite higher_irrefl; discriminate].
    destruct (String.eqb_spec mapping_confidence "high") as [-> | N];
      [discriminate | rewrite higher_irrefl; discriminate].
  - destruct (Str.mem parse_method ["null_value"; "unparseable"]) eqn:M.
    + intros G. apply medium_above_low_only in G.
      repeat split; try assumption.
      unfold Str.mem in M. cbn [existsb] in M.
      destruct (String.eqb_spec parse_method "null_value"); [now left | ].
      destruct (String.eqb_spec parse_method "unparseable"); [now right | ].
      discriminate M.
    + destruct (parse_method =? "unexpected_boolean")%string;
        [rewrite nothing_below_low; discriminate | ].
      destruct (parse_method =? "extracted_number")%string; cbn [andb];
        [ | rewrite higher_irrefl; discriminate].
      destruct (String.eqb_spec mapping_confidence "high") as [-> | N];
        [discriminate | rewrite higher_irrefl; discriminate].
Qed.

End Confidence.

(* ================================================================= *)
(** ** The worked examples of the specification, on the embedding *)

Section WorkedExamples.
Import models llm_agent value_parser.
Context `{Outside}.

Example parse_none (param_name : option string) :
  parse_value PyNone param_name = ret (None, "null_value").
Proof. reflexivity. Qed.

Example parse_thousands :
  float_of_str "1200.50" = Some 1200.5%float ->
  parse_value (PyStr "1,200.50") (Some "coal_consumption")
  = ret (Some 1200.5%float, "numeric_with_commas").
Proof.
  intros F. vm_compute. vm_compute in F. now rewrite F.
Qed.

Example parse_percent_text :
  float_of_str "85" = Some 85%float ->
  parse_value (PyStr "85%") (Some "efficiency")
  = ret (Some 0x1.b333333333333p-1%float (* the binary64 0.85 *),
         "percentage").
Proof.
  intros F. vm_compute. vm_compute in F. now rewrite F.
Qed.

Example parse_percent_number :
  parse_value (PyInt 95) (Some "efficiency")
  = ret (Some 0x1.e666666666666p-1%float (* the binary64 0.95 *),
         "numeric_direct_inferred_percentage").
Proof. reflexivity. Qed.

Example parse_yes_refused :
  parse_value (PyStr "YES") (Some "coal_consumption")
  = ret (None, "unexpected_boolean").
Proof. reflexivity. Qed.

Example validate_negative_coal :
  validate_value (Some (-5)%float) (Some "coal_consumption")
  = (false, Some [Txt "Coal consumption cannot be negative: "; Num (-5)]).
Proof. reflexivity. Qed.

Example validate_long_day :
  validate_value (Some 30%float) (Some "operating_hours")
  = (false, Some [Txt "Operating hours "; Num 30;
                  Txt " outside expected range (0-24)"]).
Proof. reflexivity. Qed.

Example map_three_headers :
  map_headers (new_agent None) ["Date"; "Coal Used (MT)"; "Power Generation"]
  = ret [mkMappingResult "Date" None None "low"
           [Txt "Non-parameter column detected: 'date'"];
         mkMappingResult "Coal Used (MT)" (Some "coal_consumption") None
           "high" [Txt "Fuzzy matched with score "; Fix2 1];
         mkMappingResult "Power Generation" (Some "power_generation") None
           "high" [Txt "Fuzzy matched with score "; Fix2 1]].
Proof. vm_compute. reflexivity. Qed.

End WorkedExamples.

(* ================================================================= *)
(** ** Further properties of the ValueParser and the Validator *)

Section NanAndBounds.

Lemma SFcompare_refl (x : spec_float) :
  x <> S754_nan -> SFcompare x x = Some Eq.
Proof.
  destruct x as [s | s | | s m e]; try destruct s; cbn; intros N;
    try reflexivity; try contradiction;
    rewrite Z.compare_refl, Pos.compare_cont_refl; reflexivity.
Qed.

Lemma nan_spec (v : float) :
  PrimFloat.is_nan v = true -> Prim2SF v = S754_nan.
Proof.
  unfold PrimFloat.is_nan. rewrite eqb_spec. unfold SFeqb. intros E.
  destruct (Prim2SF v) as [s | s | | s m e] eqn:P; try reflexivity;
    rewrite SFcompare_refl in E by discriminate; discriminate E.
Qed.

Lemma nan_not_below (v w : float) :
  PrimFloat.is_nan v = true -> (v <? w)%float = false.
Proof.
  intros N. rewrite ltb_spec, (nan_spec v N). reflexivity.
Qed.

Lemma nan_not_above (v w : float) :
  PrimFloat.is_nan v = true -> (w <? v)%float = false.
Proof.
  intros N. rewrite ltb_spec, (nan_spec v N).
  unfold SFltb. now destruct (Prim2SF w).
Qed.

Lemma upto_1_not_above_24 (v : float) :
  (v <=? 1)%float = true -> (24 <? v)%float = false.
Proof.
  rewrite ltb_spec, leb_spec.
  set (c := Prim2SF 24); vm_compute in c; subst c.
  set (c := Prim2SF 1); vm_compute in c; subst c.
  destruct (Prim2SF v) as [s | s | | s m e]; try destruct s;
    cbn [SFltb SFleb SFcompare]; intros E; try discriminate E;
    try reflexivity.
  destruct (Z.compare_spec e (-52)%Z), (Z.compare_spec (-48)%Z e);
    try lia; first [reflexivity | discriminate E].
Qed.

Lemma below_0_not_above_100 (v : float) :
  (v <? 0)%float = true -> (100 <? v)%float = false.
Proof.
  rewrite !ltb_spec.
  set (c := Prim2SF 100); vm_compute in c; subst c.
  set (c := Prim2SF 0); vm_compute in c; subst c.
  destruct (Prim2SF v) as [s | s | | s m e]; try destruct s;
    cbn [SFltb SFcompare]; intros E; try discriminate E; reflexivity.
Qed.

End NanAndBounds.

Section ParseValueTags.
Import value_parser.
Context `{Outside}.

Lemma extract_number_coherent (value_str : string) :
  coherent (extract_number value_str).
Proof.
  unfold extract_number, coherent, cascade_tags.
  destruct (search_number value_str) as [group | ];
    [destruct (float_of_str group) | ]; cbn;
    (split; [tauto | split; [intros E | intros E]; congruence]).
Qed.

Lemma direct_float_coherent (value_str : string)
    (param_name : option string) :
  coherent (direct_float value_str param_name).
Proof.
  unfold direct_float.
  destruct (float_of_str value_str) as [value | ];
    [ | apply extract_number_coherent].
  destruct (mentions "efficiency" param_name && looks_like_percent value);
    unfold coherent, cascade_tags; cbn;
    (split; [tauto | split; [intros E | intros E]; congruence]).
Qed.

Lemma without_commas_coherent (value_str : string)
    (param_name : option string) :
  coherent (without_commas value_str param_name).
Proof.
  unfold without_commas.
  destruct (Str.contains "," value_str); [ | apply direct_float_coherent].
  destruct (float_of_str _); [ | apply direct_float_coherent].
  unfold coherent, cascade_tags; cbn.
  split; [tauto | split; [intros E | intros E]; congruence].
Qed.

Lemma percentage_coherent (value_str : string)
    (param_name : option string) :
  coherent (percentage value_str param_name).
Proof.
  unfold percentage.
  destruct (Str.contains "%" value_str); [ | apply without_commas_coherent].
  destruct (float_of_str _); [ | apply without_commas_coherent].
  unfold coherent, cascade_tags; cbn.
  split; [tauto | split; [intros E | intros E]; congruence].
Qed.

(** The tag of [parse_value] against its value. *)
Lemma parse_value_tag_cases (raw_value : pyval)
    (param_name : option string) (v : option float) (tag : string) :
  parse_value raw_value param_name = ret (v, tag) ->
  In tag parse_tags
  /\ (v = None <-> In tag ["null_value"; "unexpected_boolean"; "unparseable"]).
Proof.
  unfold parse_value.
  destruct (is_none raw_value || eq_str raw_value "" || eq_str raw_value "N/A"
            || eq_str raw_value "NA").
  { intros E; inversion E; subst. cbn. tauto. }
  destruct (is_number raw_value).
  { destruct (float_of_number raw_value) as [e | value]; cbn [bind];
      [discriminate | ].
    destruct (mentions "efficiency" param_name && looks_like_percent value);
      intros E; inversion E; subst; cbn;
      (split; [tauto | split; [discriminate | ]]);
      intros [D | [D | [D | []]]]; discriminate D. }
  destruct (Str.mem _ ["YES"; "TRUE"; "Y"; "1"]).
  { destruct (expects_number param_name); intros E; inversion E; subst; cbn;
      (split; [tauto | split; [try discriminate; tauto | ]]);
      try tauto; intros [D | [D | [D | []]]]; discriminate D. }
  destruct (Str.mem _ ["NO"; "FALSE"; "N"; "0"]).
  { destruct (expects_number param_name); intros E; inversion E; subst; cbn;
      (split; [tauto | split; [try discriminate; tauto | ]]);
      try tauto; intros [D | [D | [D | []]]]; discriminate D. }
  intros E; inversion E as [E']; clear E.
  destruct (percentage_coherent (Str.upper (Str.strip (str raw_value)))
              param_name) as [T N].
  rewrite E' in T, N. cbn [fst snd] in T, N. split.
  - unfold parse_tags. apply in_or_app. right. exact T.
  - rewrite N. cbn [In]. split; [intros ->; right; right; left; reflexivity | ].
    intros [D | [D | [D | []]]]; try (symmetry; exact D);
      subst tag; unfold cascade_tags in T; cbn [In] in T;
      repeat (destruct T as [T | T]; [discriminate T | ]); contradiction.
Qed.

(** X1. Whenever [parse_value] returns, its tag is one of the twelve tags of
    the module, and the value is [None] exactly under the tags
    ["null_value"], ["unexpected_boolean"] and ["unparseable"]: every other
    tag comes with a number. *)
Theorem parse_value_tag_tells_value (raw_value : pyval)
    (param_name : option string) (v : option float) (tag : string) :
  parse_value raw_value param_name = ret (v, tag) ->
  In tag parse_tags
  /\ (v = None <-> In tag ["null_value"; "unexpected_boolean"; "unparseable"]).
Proof.
  apply parse_value_tag_cases.
Qed.

(** When [parse_value] raises. *)
Lemma parse_value_raise_cases (raw_value : pyval)
    (param_name : option string) (e : exn) :
  parse_value raw_value param_name = raise e ->
  e = OverflowError
  /\ exists n, raw_value = PyInt n
               /\ PrimFloat.is_infinity (float_of_Z n) = true.
Proof.
  unfold parse_value.
  destruct (is_none raw_value || eq_str raw_value "" || eq_str raw_value "N/A"
            || eq_str raw_value "NA"); [discriminate | ].
  assert (T : forall value_str,
             (if Str.mem value_str ["YES"; "TRUE"; "Y"; "1"]
              then if expects_number param_name
                   then ret (None, "unexpected_boolean")
                   else ret (Some 1%float, "boolean_true")
              else if Str.mem value_str ["NO"; "FALSE"; "N"; "0"]
                   then if expects_number param_name
                        then ret (None, "unexpected_boolean")
                        else ret (Some 0%float, "boolean_false")
                   else ret (percentage value_str param_name))
             <> raise e).
  { intros value_str.
    destruct (Str.mem value_str ["YES"; "TRUE"; "Y"; "1"]);
      [destruct (expects_number param_name); discriminate | ].
    destruct (Str.mem value_str ["NO"; "FALSE"; "N"; "0"]);
      [destruct (expects_number param_name); discriminate | ].
    discriminate. }
  destruct raw_value as [ | b | n | x | s];
    cbn [is_number float_of_number bind ret]; cbv zeta;
    try (intros E; now apply T in E).
  - destruct (_ && _); discriminate.
  - unfold float_of_int.
    destruct (PrimFloat.is_infinity (float_of_Z n)) eqn:I; cbn [bind raise ret].
    + intros E; inversion E; subst. split; [reflexivity | ].
      exists n. split; [reflexivity | exact I].
    + destruct (_ && _); discriminate.
  - destruct (_ && _); discriminate.
Qed.

(** X2. [parse_value] raises for an [int] cell only, when the integer is
    beyond the binary64 range, and then with [OverflowError]; on every other
    cell it returns. *)
Theorem parse_value_raises_on_huge_int_only (raw_value : pyval)
    (param_name : option string) (e : exn) :
  parse_value raw_value param_name = raise e ->
  e = OverflowError
  /\ exists n, raw_value = PyInt n
               /\ PrimFloat.is_infinity (float_of_Z n) = true.
Proof.
  apply parse_value_raise_cases.
Qed.

End ParseValueTags.

(** A text that holds no number, under no parameter. *)
Lemma parse_value_tag_tells_value_witness :
  In "unparseable" parse_tags
  /\ (@None float = None
      <-> In "unparseable" ["null_value"; "unexpected_boolean"; "unparseable"]).
Proof.
  exact (@parse_value_tag_tells_value offline (PyStr "abc") None None
           "unparseable" eq_refl).
Defined.

(** The integer 2^1024. *)
Lemma parse_value_raises_on_huge_int_only_witness :
  OverflowError = OverflowError
  /\ exists n, PyInt (2 ^ 1024) = PyInt n
               /\ PrimFloat.is_infinity (float_of_Z n) = true.
Proof.
  exact (@parse_value_raises_on_huge_int_only offline (PyInt (2 ^ 1024))
           (Some "coal_consumption") OverflowError eq_refl).
Defined.

Section ValidatorEdges.
Import value_parser.

(** X3. A rejection is always explained, and nothing is held against a
    value under an identity that names none of ["efficiency"], ["coal"],
    ["power"], ["hour"]: [validate_value] returns a message with every
    invalid verdict, and [(True, None)] when no rule is selected. *)
Theorem rejection_carries_a_message (parsed_value : option float)
    (param_name : option string) :
  (fst (validate_value parsed_value param_name) = false ->
   snd (validate_value parsed_value param_name) <> None)
  /\ (mentions "efficiency" param_name = false ->
      mentions "coal" param_name = false ->
      mentions "power" param_name = false ->
      mentions "hour" param_name = false ->
      validate_value parsed_value param_name = (true, None)).
Proof.
  split.
  - unfold validate_value. destruct parsed_value as [v | ]; [ | discriminate].
    unfold check_efficiency, check_coal, check_power, check_hour.
    destruct (mentions "efficiency" param_name);
    destruct (mentions "coal" param_name);
    destruct (mentions "power" param_name);
    destruct (mentions "hour" param_name);
    destruct (v <? 0)%float; destruct (1 <? v)%float;
    destruct (100 <? v)%float; destruct (24 <? v)%float;
    cbn; intros E; discriminate.
  - intros E C P Hr. unfold validate_value.
    destruct parsed_value as [v | ]; [ | reflexivity].
    unfold check_efficiency, check_coal, check_power, check_hour.
    now rewrite E, C, P, Hr.
Qed.

(** X4. Under every parameter identity a number in [0, 1] is valid without
    warning, and so is a NaN, which no rule can reject. *)
Theorem unit_interval_and_nan_always_pass (v : float)
    (param_name : option string) :
  ((0 <=? v)%float = true -> (v <=? 1)%float = true ->
   validate_value (Some v) param_name = (true, None))
  /\ (PrimFloat.is_nan v = true ->
      validate_value (Some v) param_name = (true, None)).
Proof.
  unfold validate_value, check_efficiency, check_coal, check_power,
    check_hour.
  split.
  - intros L U.
    assert (A : (v <? 0)%float = false)
      by (rewrite ltb_spec; apply SFleb_not_SFltb; now rewrite <- leb_spec).
    assert (B : (1 <? v)%float = false)
      by (rewrite ltb_spec; apply SFleb_not_SFltb; now rewrite <- leb_spec).
    rewrite A, B, (upto_1_not_above_24 v U). cbn.
    destruct (mentions "efficiency" param_name);
    destruct (mentions "coal" param_name);
    destruct (mentions "power" param_name);
    destruct (mentions "hour" param_name); reflexivity.
  - intros N.
    rewrite (nan_not_below v 0 N), (nan_not_above v 1 N),
      (nan_not_above v 24 N). cbn.
    destruct (mentions "efficiency" param_name);
    destruct (mentions "coal" param_name);
    destruct (mentions "power" param_name);
    destruct (mentions "hour" param_name); reflexivity.
Qed.

(** X5. A negative efficiency is not rejected: under an identity that
    contains ["efficiency"], also one that contains ["coal"], ["power"] or
    ["hour"] as well, a number below zero is valid and carries the advisory
    about decimal against percentage. *)
Theorem negative_efficiency_is_only_advised (v : float) (name : string) :
  Str.contains "efficiency" (Str.lower name) = true ->
  (v <? 0)%float = true ->
  validate_value (Some v) (Some name)
  = (true, Some [Txt "Efficiency "; Num v;
                 Txt " - verify if this is decimal or percentage"]).
Proof.
  intros C L.
  assert (M : mentions "efficiency" (Some name) = true)
    by (apply mentions_name; [exact C | discriminate]).
  unfold validate_value, check_efficiency.
  now rewrite M, L, (below_0_not_above_100 v L).
Qed.

End ValidatorEdges.

(** The values 0.5 under ["operating_hours"]. *)
Lemma unit_interval_and_nan_always_pass_witness :
  value_parser.validate_value (Some 0.5%float) (Some "operating_hours")
  = (true, None).
Proof.
  exact (proj1 (unit_interval_and_nan_always_pass 0.5 (Some "operating_hours"))
           eq_refl eq_refl).
Defined.

(** An identity that names none of the four terms. *)
Lemma rejection_carries_a_message_witness :
  value_parser.validate_value (Some (-3)%float) (Some "steam_generation")
  = (true, None).
Proof.
  exact (proj2 (rejection_carries_a_message (Some (-3)%float)
                  (Some "steam_generation"))
           eq_refl eq_refl eq_refl eq_refl).
Defined.

(** The value -5 under ["coal_efficiency"]. *)
Lemma negative_efficiency_is_only_advised_witness :
  value_parser.validate_value (Some (-5)%float) (Some "coal_efficiency")
  = (true, Some [Txt "Efficiency "; Num (-5);
                 Txt " - verify if this is decimal or percentage"]).
Proof.
  exact (negative_efficiency_is_only_advised (-5) "coal_efficiency"
           eq_refl eq_refl).
Defined.

(* ================================================================= *)
(** ** HeaderRowDetector and FuzzyMatcher: further properties *)

Section HeaderRowRange.
Import llm_agent.

(** X6. The row that [detect_header_row] answers exists: on a sheet that is
    not empty the answer is the index of one of its rows, so that
    [raw_data[header_row_idx]] in [parse_file] cannot fail; and the answer is
    0 or below the limit. *)
Theorem detect_header_row_is_a_row (excel_data : list (list pyval))
    (limit : nat) :
  excel_data <> [] ->
  detect_header_row excel_data limit < List.length excel_data
  /\ detect_header_row excel_data limit <= limit - 1.
Proof.
  intros N. unfold detect_header_row.
  destruct (scan_rows excel_data 0 _) as [r | ] eqn:E.
  - destruct (scan_rows_found _ _ _ _ E) as [i [-> [Ln [Ll _]]]].
    cbn [Nat.add]. lia.
  - destruct excel_data; [contradiction | cbn [List.length]; lia].
Qed.

End HeaderRowRange.

(** The title sheet, with the default limit. *)
Lemma detect_header_row_is_a_row_witness :
  llm_agent.detect_header_row title_sheet_as_read 5 < 3
  /\ llm_agent.detect_header_row title_sheet_as_read 5 <= 5 - 1.
Proof.
  apply (detect_header_row_is_a_row title_sheet_as_read 5). discriminate.
Defined.

Section SimilaritySymmetry.
Import llm_agent.

Lemma similarity_at_most_1 (a b : string) : (_string_similarity a b <= 1)%Q.
Proof.
  unfold _string_similarity.
  destruct (a =? b)%string; [discriminate | ].
  destruct ((a =? "") || (b =? ""))%string eqn:E; [discriminate | ].
  destruct (Str.contains a b || Str.contains b a); [discriminate | ].
  apply orb_false_elim in E. destruct E as [Ea Eb].
  apply String.eqb_neq in Ea, Eb.
  assert (La : (0 < length a)%nat) by (destruct a; [congruence | cbn; lia]).
  assert (Lb : (0 < length b)%nat) by (destruct b; [congruence | cbn; lia]).
  destruct (Nat.ltb_spec (length b) (length a)).
  - apply ratio_in_unit_interval; [ | lia].
    pose proof (count_chars_in_le b a). lia.
  - apply ratio_in_unit_interval; [ | lia].
    pose proof (count_chars_in_le a b). lia.
Qed.

(** X7. The similarity score does not depend on the order of its two
    arguments when their lengths differ. With equal lengths it does: the
    second argument is then taken as the longer one, and the characters of
    the first are counted in it. *)
Theorem similarity_symmetric_unless_equal_length (a b : string) :
  (length a <> length b -> _string_similarity a b = _string_similarity b a)
  /\ _string_similarity "aab" "abc" = (3 # 3)%Q
  /\ _string_similarity "abc" "aab" = (2 # 3)%Q.
Proof.
  split; [ | split; reflexivity].
  intros L. unfold _string_similarity.
  rewrite (String.eqb_sym b a), (orb_comm (b =? "")%string),
    (orb_comm (Str.contains b a)).
  destruct (a =? b)%string; [reflexivity | ].
  destruct ((a =? "") || (b =? ""))%string; [reflexivity | ].
  destruct (Str.contains a b || Str.contains b a); [reflexivity | ].
  destruct (Nat.ltb_spec (length b) (length a)) as [G | G];
    destruct (Nat.ltb_spec (length a) (length b)) as [G' | G'];
    try reflexivity; lia.
Qed.

End SimilaritySymmetry.

(** Two texts of different lengths. *)
Lemma similarity_symmetric_unless_equal_length_witness :
  llm_agent._string_similarity "steam" "power output"
  = llm_agent._string_similarity "power output" "steam".
Proof.
  apply (proj1 (similarity_symmetric_unless_equal_length
                  "steam" "power output")).
  discriminate.
Defined.

Section FuzzyShape.
Import registries models llm_agent.
#[local] Open Scope list_scope.

Lemma Qgtb_lt (a b : Q) : Qgtb a b = true -> (b < a)%Q.
Proof.
  unfold Qgtb. intros G. apply Qnot_le_lt. intros L.
  apply Qle_bool_iff in L. rewrite L in G. discriminate G.
Qed.

Lemma Qgtb_false_le (a b : Q) : Qgtb a b = false -> (a <= b)%Q.
Proof.
  unfold Qgtb. intros G. apply Qle_bool_iff.
  now destruct (Qle_bool a b).
Qed.

Lemma matched_nonneg (names : list string) (st : option string * Q) :
  matched names st -> (0 <= snd st)%Q.
Proof.
  intros [[_ ->] | [name [_ [_ P]]]]; [discriminate | now apply Qlt_le_weak].
Qed.

Lemma match_alias_matched (names : list string) (header_lower name : string)
    (st : option string * Q) (alias : string) :
  In name names -> matched names st ->
  matched names (match_alias header_lower name st alias).
Proof.
  intros I M. unfold match_alias.
  destruct (Qgtb _ (snd st)) eqn:G; [ | exact M].
  right. exists name. cbn [fst snd]. repeat split; [exact I | ].
  apply Qgtb_lt in G.
  eapply Qle_lt_trans; [apply (matched_nonneg _ _ M) | exact G].
Qed.

Lemma match_param_matched (names : list string) (header_lower : string)
    (st : option string * Q) (param : ParamEntry) :
  In (param_name param) names -> matched names st ->
  matched names (match_param header_lower st param).
Proof.
  intros I. unfold match_param. revert st.
  induction (param_aliases param) as [ | alias aliases IH]; intros st M;
    cbn [fold_left]; [exact M | ].
  apply IH. now apply match_alias_matched.
Qed.

Lemma match_params_matched (names : list string) (header_lower : string)
    (registry : list ParamEntry) (st : option string * Q) :
  incl (map param_name registry) names -> matched names st ->
  matched names (fold_left (match_param header_lower) registry st).
Proof.
  revert st. induction registry as [ | param registry IH]; intros st I M;
    cbn [fold_left]; [exact M | ].
  apply IH; [intros x J; apply I; now right | ].
  apply match_param_matched; [apply I; now left | exact M].
Qed.

Lemma find_append {A : Type} (f : A -> bool) (l l' : list A) :
  find f (l ++ l')
  = match find f l with
    | Some x => Some x
    | None => find f l'
    end.
Proof.
  induction l as [ | a l IH]; cbn [find app]; [reflexivity | ].
  now destruct (f a).
Qed.

(** The asset loop keeps the last asset, in the order of the registry, one
    of whose aliases occurs in the header. *)
Lemma match_assets_last (header_lower : string) (registry : list AssetEntry)
    (best_asset : option string) :
  fold_left (match_asset header_lower) registry best_asset
  = match find (names_asset header_lower) (rev registry) with
    | Some asset => Some (asset_name asset)
    | None => best_asset
    end.
Proof.
  revert best_asset. induction registry as [ | asset registry IH];
    intros best_asset; cbn [fold_left rev]; [reflexivity | ].
  rewrite IH, find_append.
  destruct (find (names_asset header_lower) (rev registry));
    [reflexivity | ].
  cbn [find]. unfold match_asset, names_asset.
  now destruct (existsb _ (asset_aliases asset)).
Qed.

Lemma infer_asset_cases (text : string) :
  (exists a, _infer_asset_from_text text = (Some a, true)
             /\ In a inferable_assets /\ a <> "")
  \/ _infer_asset_from_text text = (None, false).
Proof.
  unfold _infer_asset_from_text.
  destruct (find _ (boiler_patterns ++ turbine_patterns)) as [[p a] | ] eqn:F;
    [left | now right].
  exists a. split; [reflexivity | ].
  apply find_some in F. destruct F as [I _].
  split; [apply (in_map snd) in I; exact I | ].
  revert I. clear. cbn.
  intros I.
  repeat (destruct I as [I | I]; [inversion I; discriminate | ]).
  contradiction.
Qed.

(** X8. What [_fuzzy_match_header] returns, for every header and every pair
    of registries: the header itself; a confidence that is one of the three
    levels; a parameter taken from the registry, or none, and then the score
    is 0 and the confidence low; an asset taken from the asset registry or
    from the boiler/turbine table; and never the confidence high together
    with an inferred asset. *)
Theorem fuzzy_match_result_shape (self : ExcelParsingAgent)
    (header : string) :
  let m := _fuzzy_match_header self header in
  m_header m = header
  /\ In (m_confidence m) levels
  /\ (forall name, m_param_name m = Some name ->
        In name (map param_name (param_registry self)))
  /\ (m_param_name m = None ->
      m_confidence m = "low"
      /\ exists tail,
           m_reason m = Txt "Fuzzy matched with score " :: Fix2 0 :: tail)
  /\ (forall a, m_asset_name m = Some a ->
        In a (map asset_name (asset_registry self))
        \/ In a inferable_assets)
  /\ (In (Txt "; asset inferred from boiler/turbine mapping") (m_reason m) ->
      m_confidence m <> "high").
Proof.
  cbv zeta. unfold _fuzzy_match_header.
  pose proof (match_params_matched (map param_name (param_registry self))
                (Str.strip (Str.lower header)) (param_registry self)
                (None, 0%Q) (incl_refl _) (or_introl (conj eq_refl eq_refl)))
    as M.
  destruct (fold_left (match_param _) (param_registry self) (None, 0%Q))
    as [best score].
  rewrite match_assets_last.
  set (direct := match find _ (rev (asset_registry self)) with
                 | Some asset => Some (asset_name asset)
                 | None => None
                 end).
  assert (D : forall a, direct = Some a ->
                        In a (map asset_name (asset_registry self))).
  { subst direct. intros a.
    destruct (find _ (rev (asset_registry self))) as [asset | ] eqn:F;
      [ | discriminate].
    intros E; inversion E; subst a. apply find_some in F.
    apply in_map, in_rev. exact (proj1 F). }
  assert (A : (exists a inferred,
                 (if negb (some_nonempty direct)
                  then _infer_asset_from_text (Str.strip (Str.lower header))
                  else (direct, false)) = (Some a, inferred)
                 /\ a <> ""
                 /\ (In a (map asset_name (asset_registry self))
                     \/ In a inferable_assets))
              \/ (if negb (some_nonempty direct)
                  then _infer_asset_from_text (Str.strip (Str.lower header))
                  else (direct, false)) = (None, false)).
  { destruct (some_nonempty direct) eqn:S; cbn [negb].
    - destruct direct as [a | ]; [ | discriminate S]. left.
      exists a, false. split; [reflexivity | ]. split.
      + intros ->. discriminate S.
      + left. now apply D.
    - destruct (infer_asset_cases (Str.strip (Str.lower header)))
        as [[a [E [I N]]] | E]; rewrite E; [left | now right].
      exists a, true. repeat split; [exact N | now right]. }
  clear D. revert A.
  destruct (if negb (some_nonempty direct) then _ else _)
    as [asset inferred].
  intros A. cbn [m_header m_confidence m_param_name m_asset_name m_reason].
  split; [reflexivity | ].
  split.
  { unfold levels. cbn [In].
    destruct (Qgtb score (85 # 100)); [ | destruct (Qgtb score (6 # 10))];
      destruct (inferred && some_nonempty asset); cbn; tauto. }
  split.
  { intros name ->. destruct M as [[E _] | [name' [E [I _]]]];
      cbn [fst] in E; [discriminate E | ].
    inversion E; subst. exact I. }
  split.
  { intros ->. destruct M as [[_ E] | [name' [E _]]];
      cbn [fst snd] in E; [subst score | discriminate E].
    split; [now destruct (inferred && some_nonempty asset) | ].
    eexists. reflexivity. }
  split.
  { intros a ->. destruct A as [[a' [inf [E [_ I]]]] | E];
      inversion E; subst; exact I. }
  intros I.
  assert (inferred = true) as ->.
  { destruct inferred; [reflexivity | ].
    cbn in I. destruct I as [I | [I | []]]; discriminate I. }
  destruct A as [[a' [inf [E [N _]]]] | E]; inversion E; subst.
  assert (some_nonempty (Some a') = true) as ->.
  { cbn. destruct (String.eqb_spec a' ""); [contradiction | reflexivity]. }
  cbn [andb].
  destruct (Qgtb score (85 # 100)); [discriminate | ].
  destruct (Qgtb score (6 # 10)); discriminate.
Qed.

End FuzzyShape.

Section FuzzyScore.
Import registries models llm_agent.
#[local] Open Scope list_scope.

Lemma match_alias_score (header_lower name : string)
    (st : option string * Q) (alias : string) :
  (snd st <= snd (match_alias header_lower name st alias))%Q
  /\ (_string_similarity header_lower (Str.lower alias)
      <= snd (match_alias header_lower name st alias))%Q.
Proof.
  unfold match_alias. destruct (Qgtb _ (snd st)) eqn:G; cbn [snd].
  - split; [apply Qlt_le_weak; now apply Qgtb_lt | apply Qle_refl].
  - split; [apply Qle_refl | now apply Qgtb_false_le].
Qed.

Lemma match_alias_bounded (header_lower name : string)
    (st : option string * Q) (alias : string) :
  (snd st <= 1)%Q -> (snd (match_alias header_lower name st alias) <= 1)%Q.
Proof.
  intros B. unfold match_alias. destruct (Qgtb _ (snd st)); cbn [snd];
    [apply similarity_at_most_1 | exact B].
Qed.

Lemma match_param_score (header_lower : string) (param : ParamEntry)
    (st : option string * Q) :
  (snd st <= snd (match_param header_lower st param))%Q
  /\ ((snd st <= 1)%Q -> (snd (match_param header_lower st param) <= 1)%Q)
  /\ forall alias, In alias (param_aliases param) ->
       (_string_similarity header_lower (Str.lower alias)
        <= snd (match_param header_lower st param))%Q.
Proof.
  unfold match_param. revert st.
  induction (param_aliases param) as [ | a aliases IH]; intros st;
    cbn [fold_left].
  - split; [apply Qle_refl | split; [tauto | intros alias []]].
  - destruct (IH (match_alias header_lower (param_name param) st a))
      as [M [B A]].
    destruct (match_alias_score header_lower (param_name param) st a)
      as [M0 A0].
    split; [eapply Qle_trans; eassumption | ].
    split.
    + intros L. apply B. now apply match_alias_bounded.
    + intros alias [<- | I]; [eapply Qle_trans; eassumption | now apply A].
Qed.

Lemma match_params_score (header_lower : string)
    (registry : list ParamEntry) (st : option string * Q) :
  (snd st <= snd (fold_left (match_param header_lower) registry st))%Q
  /\ ((snd st <= 1)%Q ->
      (snd (fold_left (match_param header_lower) registry st) <= 1)%Q)
  /\ forall param alias,
       In param registry -> In alias (param_aliases param) ->
       (_string_similarity header_lower (Str.lower alias)
        <= snd (fold_left (match_param header_lower) registry st))%Q.
Proof.
  revert st. induction registry as [ | p registry IH]; intros st;
    cbn [fold_left].
  - split; [apply Qle_refl | split; [tauto | intros param alias []]].
  - destruct (IH (match_param header_lower st p)) as [M [B A]].
    destruct (match_param_score header_lower p st) as [M0 [B0 A0]].
    split; [eapply Qle_trans; eassumption | ].
    split; [intros L; apply B; now apply B0 | ].
    intros param alias [<- | I] J.
    + eapply Qle_trans; [apply (A0 alias J) | exact M].
    + now apply (A param alias).
Qed.

(** X9. A header that is an alias of the parameter registry, up to case and
    to blanks around it, gets the top score from the fuzzy matcher: a
    parameter is named, the score is 1, and the confidence is high, or
    medium when the asset was inferred. *)
Theorem alias_header_gets_top_score (self : ExcelParsingAgent)
    (header : string) (param : ParamEntry) (alias : string) :
  In param (param_registry self) ->
  In alias (param_aliases param) ->
  Str.strip (Str.lower header) = Str.lower alias ->
  (exists name, m_param_name (_fuzzy_match_header self header) = Some name)
  /\ (exists score tail,
        m_reason (_fuzzy_match_header self header)
        = Txt "Fuzzy matched with score " :: Fix2 score :: tail
        /\ (score == 1)%Q)
  /\ (m_confidence (_fuzzy_match_header self header) = "high"
      \/ (m_confidence (_fuzzy_match_header self header) = "medium"
          /\ In (Txt "; asset inferred from boiler/turbine mapping")
                (m_reason (_fuzzy_match_header self header)))).
Proof.
  intros Ip Ia E. unfold _fuzzy_match_header.
  pose proof (match_params_matched (map param_name (param_registry self))
                (Str.strip (Str.lower header)) (param_registry self)
                (None, 0%Q) (incl_refl _) (or_introl (conj eq_refl eq_refl)))
    as M.
  destruct (match_params_score (Str.strip (Str.lower header))
              (param_registry self) (None, 0%Q)) as [_ [B A]].
  specialize (B ltac:(discriminate)). specialize (A param alias Ip Ia).
  rewrite E in A at 1. unfold _string_similarity in A at 1.
  rewrite String.eqb_refl in A.
  destruct (fold_left (match_param _) (param_registry self) (None, 0%Q))
    as [best score].
  unfold matched in M. cbn [fst snd] in *.
  assert (S1 : (score == 1)%Q) by now apply Qle_antisym.
  assert (G : Qgtb score (85 # 100) = true).
  { unfold Qgtb. destruct (Qle_bool score (85 # 100)) eqn:L;
      [ | reflexivity].
    apply Qle_bool_iff in L. rewrite S1 in L.
    apply Qle_not_lt in L. exfalso. apply L. reflexivity. }
  rewrite G.
  destruct (if negb _ then _ else _) as [asset inferred].
  cbn [m_param_name m_reason m_confidence].
  split.
  { destruct M as [[_ Z] | [name [-> _]]]; [ | now exists name].
    subst score. vm_compute in S1. discriminate S1. }
  split; [eexists _, _; split; [reflexivity | exact S1] | ].
  destruct inferred; cbn [andb]; [ | now left].
  destruct (some_nonempty asset); cbn; [right | now left].
  split; [reflexivity | tauto].
Qed.

(** X10. The asset of a fuzzy match is the last asset of the registry, in
    its order, one of whose aliases occurs in the lowercased, trimmed
    header (the loop does not stop at the first); the boiler/turbine table
    is consulted only when there is none, or when that asset has the empty
    name. *)
Theorem last_named_asset_wins (self : ExcelParsingAgent) (header : string) :
  m_asset_name (_fuzzy_match_header self header)
  = match find (names_asset (Str.strip (Str.lower header)))
               (rev (asset_registry self)) with
    | Some asset =>
        if (asset_name asset =? "")%string
        then fst (_infer_asset_from_text (Str.strip (Str.lower header)))
        else Some (asset_name asset)
    | None => fst (_infer_asset_from_text (Str.strip (Str.lower header)))
    end.
Proof.
  unfold _fuzzy_match_header.
  destruct (fold_left (match_param _) _ _) as [best score].
  rewrite match_assets_last.
  destruct (find _ (rev (asset_registry self))) as [asset | ];
    cbn [some_nonempty negb].
  - destruct (asset_name asset =? "")%string; cbn [negb];
      [ | reflexivity].
    now destruct (_infer_asset_from_text _).
  - now destruct (_infer_asset_from_text _).
Qed.

End FuzzyScore.

(** The header [" coal used (mt) "] against the alias ["Coal Used (MT)"]. *)
Lemma alias_header_gets_top_score_witness :
  (exists name,
     models.m_param_name
       (llm_agent._fuzzy_match_header (llm_agent.new_agent None)
          " coal used (mt) ") = Some name)
  /\ (exists score tail,
        models.m_reason
          (llm_agent._fuzzy_match_header (llm_agent.new_agent None)
             " coal used (mt) ")
        = Txt "Fuzzy matched with score " :: Fix2 score :: tail
        /\ (score == 1)%Q)
  /\ (models.m_confidence
        (llm_agent._fuzzy_match_header (llm_agent.new_agent None)
           " coal used (mt) ") = "high"
      \/ (models.m_confidence
            (llm_agent._fuzzy_match_header (llm_agent.new_agent None)
               " coal used (mt) ") = "medium"
          /\ In (Txt "; asset inferred from boiler/turbine mapping")
                (models.m_reason
                   (llm_agent._fuzzy_match_header (llm_agent.new_agent None)
                      " coal used (mt) ")))).
Proof.
  apply (alias_header_gets_top_score (llm_agent.new_agent None)
           " coal used (mt) "
           (nth 0 registries.PARAMETER_REGISTRY
                (registries.mkParam "" "" "" "" "" [] []))
           "Coal Used (MT)").
  - left. reflexivity.
  - vm_compute. tauto.
  - reflexivity.
Defined.

Section HeaderMapper.
Import registries models llm_agent.
Context `{Outside}.
#[local] Open Scope list_scope.

Lemma map_header_carries_header (self : ExcelParsingAgent)
    (header : string) (m : MappingResult) :
  map_header self header = ret m -> m_header m = header.
Proof.
  unfold map_header.
  destruct (_is_non_parameter (Some header)) as [[] reason].
  { intros E; inversion E; reflexivity. }
  destruct (negb (llm_available self)).
  { intros E; inversion E. unfold _fuzzy_match_header.
    destruct (fold_left (match_param _) _ _) as [best score].
    now destruct (if negb _ then _ else _). }
  rewrite map_header_with_llm_returns.
  intros E; inversion E; clear E.
  destruct (llm_attempt header) as [e | mapping] eqn:L.
  - unfold _fuzzy_match_header.
    destruct (fold_left (match_param _) _ _) as [best score].
    now destruct (if negb _ then _ else _).
  - unfold llm_attempt in L.
    repeat match type of L with
           | bind ?m _ = _ => destruct m; cbn [bind] in L;
                              [discriminate L | ]
           end.
    inversion L. reflexivity.
Qed.

Lemma map_header_set_aside (self : ExcelParsingAgent) (header : string) :
  fst (_is_non_parameter (Some header)) = true ->
  map_header self header
  = ret (set_aside header
           (match snd (_is_non_parameter (Some header)) with
            | Some r => r
            | None => ""
            end)).
Proof.
  unfold map_header.
  destruct (_is_non_parameter (Some header)) as [non_param reason].
  cbn [fst snd]. now intros ->.
Qed.

Lemma map_headers_pointwise (self : ExcelParsingAgent)
    (headers : list string) (mappings : list MappingResult) :
  map_headers self headers = ret mappings ->
  Forall2 (fun header m => map_header self header = ret m) headers mappings.
Proof.
  revert mappings. induction headers as [ | header rest IH];
    intros mappings; cbn [map_headers].
  - intros E; inversion E. constructor.
  - destruct (map_header self header) as [e | m] eqn:M; cbn [bind];
      [discriminate | ].
    destruct (map_headers self rest) as [e | ms]; cbn [bind];
      [discriminate | ].
    intros E; inversion E; subst. constructor; [exact M | now apply IH].
Qed.

(** X11. [map_headers] returns for every list of headers, whatever the
    oracle does: one mapping per header, in the order of the headers, each
    holding its header; and the mapping of a header that the classifier sets
    aside names no parameter and no asset, with the confidence low. *)
Theorem map_headers_one_mapping_per_header (self : ExcelParsingAgent)
    (headers : list string) :
  exists mappings,
    map_headers self headers = ret mappings
    /\ map m_header mappings = headers
    /\ forall col_idx header,
         nth_error headers col_idx = Some header ->
         fst (_is_non_parameter (Some header)) = true ->
         exists reason,
           nth_error mappings col_idx = Some (set_aside header reason).
Proof.
  destruct (map_headers_returns self headers) as [mappings [E _]].
  exists mappings. split; [exact E | ].
  apply map_headers_pointwise in E.
  induction E as [ | header m headers mappings M _ [IH1 IH2]].
  - split; [reflexivity | ]. intros [ | i] header N; discriminate N.
  - split.
    + cbn [map]. rewrite IH1. f_equal.
      exact (map_header_carries_header _ _ _ M).
    + intros [ | i] h N C; cbn [nth_error] in *.
      * inversion N; subst h. rewrite (map_header_set_aside _ _ C) in M.
        inversion M. eexists. reflexivity.
      * now apply IH2.
Qed.

Lemma find_non_term (h term : string) :
  In term non_terms -> Str.contains term h = true ->
  exists term', find (fun term => Str.contains term h) non_terms = Some term'.
Proof.
  intros I C.
  destruct (find (fun term => Str.contains term h) non_terms) as [t | ] eqn:F;
    [now exists t | ].
  pose proof (find_none _ _ F term I) as N. cbn in N. congruence.
Qed.

(** X12. A header in which a term of the block list occurs is never mapped,
    with or without the oracle: [map_header] sets it aside with the
    confidence low, and the reason names a term of the list. So an alias of
    the registry that holds such a term, like ["Runtime"] (["time"]) or
    ["Grid Export"] (["id"]), is out of reach of the matcher. *)
Theorem block_term_header_is_never_mapped (self : ExcelParsingAgent)
    (header term : string) :
  In term non_terms ->
  Str.contains term (Str.lower header) = true ->
  exists term',
    In term' non_terms
    /\ map_header self header
       = ret (set_aside header
                ("Non-parameter column detected: '" ++ term' ++ "'")%string).
Proof.
  intros I C.
  destruct (find_non_term _ _ I C) as [term' F].
  exists term'. split; [apply (find_some _ _ F) | ].
  destruct header as [ | c header].
  { cbn in C. revert I C. clear. unfold non_terms. cbn [In].
    intros I. repeat (destruct I as [<- | I]; [discriminate | ]).
    contradiction. }
  unfold map_header, _is_non_parameter.
  cbn [some_nonempty String.eqb negb]. rewrite F. reflexivity.
Qed.

End HeaderMapper.

(** The alias ["Runtime"] of [operating_hours], with the oracle configured. *)
Lemma block_term_header_is_never_mapped_witness :
  exists term',
    In term' llm_agent.non_terms
    /\ @llm_agent.map_header offline (llm_agent.new_agent (Some "key"))
         "Runtime"
       = ret (set_aside "Runtime"
                ("Non-parameter column detected: '" ++ term' ++ "'")).
Proof.
  apply (@block_term_header_is_never_mapped offline
           (llm_agent.new_agent (Some "key")) "Runtime" "time").
  - right. left. reflexivity.
  - reflexivity.
Defined.

Section GenericColumns.
Import models llm_agent parser.
Context `{Outside}.
#[local] Open Scope list_scope.

Lemma char_in_append (c : ascii) (a b : string) :
  Str.char_in c (a ++ b)%string = Str.char_in c a || Str.char_in c b.
Proof.
  induction a as [ | d a IH]; cbn; [reflexivity | ].
  now rewrite IH, orb_assoc.
Qed.

Lemma prefix_chars (sub s : string) (c : ascii) :
  String.prefix sub s = true -> Str.char_in c sub = true ->
  Str.char_in c s = true.
Proof.
  revert s. induction sub as [ | d sub IH]; intros s P I; cbn in I;
    [discriminate I | ].
  destruct s as [ | e s]; cbn in P; [discriminate P | ].
  destruct (Ascii.ascii_dec d e) as [<- | N]; [ | discriminate P].
  cbn. destruct (Ascii.eqb c d); [reflexivity | ].
  cbn in I |- *. now apply IH.
Qed.

Lemma contains_chars (sub s : string) (c : ascii) :
  Str.contains sub s = true -> Str.char_in c sub = true ->
  Str.char_in c s = true.
Proof.
  intros C I. induction s as [ | e s IH]; cbn [Str.contains] in C.
  - rewrite orb_false_r in C. exact (prefix_chars _ _ _ C I).
  - apply orb_true_iff in C. destruct C as [P | C].
    + exact (prefix_chars _ _ _ P I).
    + cbn. rewrite (IH C). apply orb_true_r.
Qed.

Lemma prefix_contains (sub s : string) :
  String.prefix sub s = true -> Str.contains sub s = true.
Proof.
  intros P. destruct s; cbn [Str.contains]; now rewrite P.
Qed.

Lemma contains_tail (d : ascii) (sub s : string) :
  Str.contains (String d sub) s = true -> Str.contains sub s = true.
Proof.
  induction s as [ | e s IH]; cbn [Str.contains String.prefix];
    [discriminate | ].
  intros C. apply orb_true_iff in C. apply orb_true_iff. right.
  destruct C as [P | C]; [ | now apply IH].
  destruct (Ascii.ascii_dec d e); [ | discriminate P].
  now apply prefix_contains.
Qed.

Lemma within_chars (alphabet s : string) (c : ascii) :
  chars_within alphabet s = true -> Str.char_in c s = true ->
  Str.char_in c alphabet = true.
Proof.
  induction s as [ | e s IH]; cbn [chars_within Str.char_in];
    [discriminate | ].
  intros W I. apply andb_true_iff in W. destruct W as [We Ws].
  apply orb_true_iff in I. destruct I as [I | I]; [ | now apply IH].
  apply Ascii.eqb_eq in I. now subst.
Qed.

Lemma stray_not_contained (alphabet sub s : string) :
  chars_within alphabet s = true -> strays_from alphabet sub = true ->
  Str.contains sub s = false.
Proof.
  intros W S. destruct (Str.contains sub s) eqn:C; [exfalso | reflexivity].
  induction sub as [ | d sub IH]; cbn [strays_from] in S;
    [discriminate S | ].
  apply orb_true_iff in S. destruct S as [S | S].
  - apply negb_true_iff in S.
    rewrite (within_chars alphabet s d W) in S; [discriminate S | ].
    apply (contains_chars _ _ _ C). cbn. now rewrite Ascii.eqb_refl.
  - apply IH; [exact S | ]. exact (contains_tail _ _ _ C).
Qed.

Lemma digits_within (d : Decimal.uint) :
  chars_within column_alphabet (NilEmpty.string_of_uint d) = true
  /\ Str.lower (NilEmpty.string_of_uint d) = NilEmpty.string_of_uint d.
Proof.
  induction d as [ | d [W L] | d [W L] | d [W L] | d [W L] | d [W L]
                   | d [W L] | d [W L] | d [W L] | d [W L] | d [W L]];
    cbn [NilEmpty.string_of_uint chars_within Str.lower];
    [split; reflexivity | .. ]; rewrite W, L; split; reflexivity.
Qed.

(** X13. A header cell that is false in a test ([None], an empty text, a
    zero, [False]) gives the header [Column_i], and this header is always
    set aside as an unnamed column: no term of the block list occurs in it
    whatever the index, and it starts with ["column_"] once lowercased. The
    column is therefore never mapped, with or without the oracle. *)
Theorem empty_header_cell_is_set_aside (self : ExcelParsingAgent)
    (i : nat) (cell : pyval) :
  truthy cell = false ->
  header_of (i, cell) = ("Column_" ++ Str.of_nat i)%string
  /\ map_header self (header_of (i, cell))
     = ret (set_aside ("Column_" ++ Str.of_nat i)%string
              "Unnamed or generic column").
Proof.
  intros T. unfold header_of. rewrite T. split; [reflexivity | ].
  unfold map_header, _is_non_parameter, Str.of_nat.
  destruct (digits_within (Nat.to_uint i)) as [W L].
  set (d := NilEmpty.string_of_uint (Nat.to_uint i)) in *.
  cbn [String.append some_nonempty String.eqb Ascii.eqb Bool.eqb negb
       Str.lower].
  change (Str.lower_char "C") with "c"%char.
  change (Str.lower_char "o") with "o"%char.
  change (Str.lower_char "l") with "l"%char.
  change (Str.lower_char "u") with "u"%char.
  change (Str.lower_char "m") with "m"%char.
  change (Str.lower_char "n") with "n"%char.
  change (Str.lower_char "_") with "_"%char.
  rewrite L.
  assert (F : find (fun term => Str.contains term ("column_" ++ d)%string)
                   non_terms = None).
  { assert (A : chars_within column_alphabet ("column_" ++ d)%string = true)
      by (cbn; exact W).
    unfold non_terms. cbn [find].
    repeat (rewrite (stray_not_contained column_alphabet _ _ A);
            [ | reflexivity]).
    reflexivity. }
  assert (P : Str.startswith "column_" ("column_" ++ d)%string = true)
    by (unfold Str.startswith; cbn; now destruct d).
  cbn [String.append] in F, P. rewrite F, P.
  reflexivity.
Qed.

End GenericColumns.

(** Column 3 under an empty text. *)
Lemma empty_header_cell_is_set_aside_witness :
  @parser.header_of offline (3, PyStr "") = "Column_3"
  /\ @llm_agent.map_header offline (llm_agent.new_agent None)
       (@parser.header_of offline (3, PyStr ""))
     = ret (set_aside "Column_3" "Unnamed or generic column").
Proof.
  exact (@empty_header_cell_is_set_aside offline (llm_agent.new_agent None)
           3 (PyStr "") eq_refl).
Defined.

Section Report.
Import llm_agent.
#[local] Open Scope list_scope.

Lemma report_equal (t h m l u h' m' l' u' : nat) :
  h = h' -> m = m' -> l = l' -> u = u' ->
  @ret ValidationReport (mkReport t h m l u) = ret (mkReport t h' m' l' u').
Proof.
  now intros -> -> -> ->.
Qed.

Lemma report_step_known (report : ValidationReport) (it : item) :
  confidence_known it = true ->
  report_step report it
  = ret (mkReport (total_cells_parsed report)
           (cells_high report + count (confidence_is "high") [it])
           (cells_medium report + count (confidence_is "medium") [it])
           (cells_low report + count (confidence_is "low") [it])
           (unmapped_parameters report + count lacks_param [it])).
Proof.
  unfold report_step, confidence_known, confidence_is, lacks_param, count.
  cbn [filter].
  destruct report as [t h m l u].
  cbn [total_cells_parsed cells_high cells_medium cells_low
       unmapped_parameters].
  destruct (item_get it "confidence") as [[ | b | n | x | s] | ];
    try discriminate.
  - unfold Str.mem, levels. cbn [existsb count_confidence].
    destruct (String.eqb_spec s "high") as [-> | Nh].
    { intros _. cbn [bind ret].
      destruct (item_get it "param_name") as [[] | ]; cbn;
        apply report_equal; lia. }
    destruct (String.eqb_spec s "medium") as [-> | Nm].
    { intros _. cbn [bind ret].
      destruct (item_get it "param_name") as [[] | ]; cbn;
        apply report_equal; lia. }
    destruct (String.eqb_spec s "low") as [-> | Nl]; [ | discriminate].
    intros _. cbn [bind ret].
    destruct (item_get it "param_name") as [[] | ]; cbn;
      apply report_equal; lia.
  - intros _. cbn [bind ret].
    destruct (item_get it "param_name") as [[] | ]; cbn;
      apply report_equal; lia.
Qed.

Lemma report_step_unknown (report : ValidationReport) (it : item) :
  confidence_known it = false -> report_step report it = raise KeyError.
Proof.
  unfold report_step, confidence_known.
  destruct (item_get it "confidence") as [[ | b | n | x | s] | ];
    try reflexivity; try discriminate.
  unfold Str.mem, levels. cbn [existsb count_confidence].
  destruct (s =? "high")%string; [discriminate | ].
  destruct (s =? "medium")%string; [discriminate | ].
  destruct (s =? "low")%string; [discriminate | reflexivity].
Qed.

Lemma report_loop_counts (mapped_data : list item)
    (report : ValidationReport) :
  report_loop report mapped_data
  = if forallb confidence_known mapped_data
    then ret (mkReport (total_cells_parsed report)
                (cells_high report + count (confidence_is "high") mapped_data)
                (cells_medium report
                 + count (confidence_is "medium") mapped_data)
                (cells_low report + count (confidence_is "low") mapped_data)
                (unmapped_parameters report + count lacks_param mapped_data))
    else raise KeyError.
Proof.
  revert report. induction mapped_data as [ | it rest IH]; intros report;
    cbn [report_loop forallb].
  - unfold count. cbn. rewrite !Nat.add_0_r. now destruct report.
  - destruct (confidence_known it) eqn:K; cbn [andb].
    + rewrite (report_step_known _ _ K). cbn [bind ret]. rewrite IH.
      destruct (forallb confidence_known rest); [ | reflexivity].
      cbn [total_cells_parsed cells_high cells_medium cells_low
           unmapped_parameters].
      unfold count. cbn [filter].
      destruct (confidence_is "high" it), (confidence_is "medium" it),
        (confidence_is "low" it), (lacks_param it);
        cbn [List.length]; apply report_equal; lia.
    + now rewrite (report_step_unknown _ _ K).
Qed.

Lemma levels_exclusive (it : item) :
  Nat.b2n (confidence_is "high" it) + Nat.b2n (confidence_is "medium" it)
  + Nat.b2n (confidence_is "low" it) <= 1.
Proof.
  unfold confidence_is.
  destruct (item_get it "confidence") as [[ | b | n | x | s] | ];
    cbn [Nat.b2n]; try lia.
  destruct (String.eqb_spec s "high") as [-> | Nh]; [cbn; lia | ].
  destruct (String.eqb_spec s "medium") as [-> | Nm]; [cbn; lia | ].
  destruct (s =? "low")%string; cbn; lia.
Qed.

(** X14. [generate_data_validation_report] fails with [KeyError] exactly
    when some item holds a confidence that is none of ["high"], ["medium"],
    ["low"] (another text, [None], a number). Otherwise the report holds the
    number of items, the number of items of each level, and the number of
    items whose parameter is missing or [None]; the three levels add up to
    at most the number of items. *)
Theorem validation_report_counts (mapped_data : list item) :
  generate_data_validation_report mapped_data
  = (if forallb confidence_known mapped_data
     then ret (mkReport (List.length mapped_data)
                 (count (confidence_is "high") mapped_data)
                 (count (confidence_is "medium") mapped_data)
                 (count (confidence_is "low") mapped_data)
                 (count lacks_param mapped_data))
     else raise KeyError)
  /\ count (confidence_is "high") mapped_data
     + count (confidence_is "medium") mapped_data
     + count (confidence_is "low") mapped_data
     <= List.length mapped_data.
Proof.
  split.
  - unfold generate_data_validation_report. now rewrite report_loop_counts.
  - unfold count. induction mapped_data as [ | it rest IH]; cbn [filter];
      [cbn; lia | ].
    pose proof (levels_exclusive it) as X.
    destruct (confidence_is "high" it), (confidence_is "medium" it),
      (confidence_is "low" it); cbn [List.length Nat.b2n] in *; lia.
Qed.

End Report.

(* ================================================================= *)
(** ** The registries *)

Section Registries.
Import registries models llm_agent parser.
#[local] Open Scope list_scope.

Lemma parameters_found_by_name :
  Forall (fun p => get_parameter_by_name (param_name p) = Some p)
         PARAMETER_REGISTRY.
Proof.
  unfold PARAMETER_REGISTRY. repeat (constructor; [reflexivity | ]).
  constructor.
Qed.

Lemma assets_found_by_name :
  Forall (fun a => get_asset_by_name (asset_name a) = Some a) ASSET_REGISTRY.
Proof.
  unfold ASSET_REGISTRY. repeat (constructor; [reflexivity | ]).
  constructor.
Qed.

Lemma applicable_assets_registered :
  Forall (fun p => forallb (fun a => Str.mem a get_all_asset_names)
                           (param_applicable_assets p) = true)
         PARAMETER_REGISTRY.
Proof.
  unfold PARAMETER_REGISTRY. repeat (constructor; [reflexivity | ]).
  constructor.
Qed.

(** X15. The lookups by name are exact: [get_parameter_by_name] answers an
    entry exactly when it is the entry of the registry with that name (no
    name is borne by two entries), and likewise [get_asset_by_name];
    [get_parameter_unit] answers the unit of that entry. *)
Theorem lookup_by_name_is_exact (name : string) :
  (forall p, get_parameter_by_name name = Some p
             <-> In p PARAMETER_REGISTRY /\ param_name p = name)
  /\ (forall a, get_asset_by_name name = Some a
                <-> In a ASSET_REGISTRY /\ asset_name a = name)
  /\ (forall u, get_parameter_unit name = Some u
                <-> exists p, In p PARAMETER_REGISTRY
                              /\ param_name p = name /\ param_unit p = u).
Proof.
  assert (P : forall p, get_parameter_by_name name = Some p
                        <-> In p PARAMETER_REGISTRY /\ param_name p = name).
  { intros p. split.
    - intros F. apply find_some in F. destruct F as [I E].
      split; [exact I | now apply String.eqb_eq in E].
    - intros [I <-].
      exact (proj1 (Forall_forall _ _) parameters_found_by_name p I). }
  split; [exact P | split].
  - intros a. split.
    + intros F. apply find_some in F. destruct F as [I E].
      split; [exact I | now apply String.eqb_eq in E].
    + intros [I <-].
      exact (proj1 (Forall_forall _ _) assets_found_by_name a I).
  - intros u. unfold get_parameter_unit. split.
    + destruct (get_parameter_by_name name) as [p | ] eqn:F;
        [ | discriminate].
      intros E; inversion E; subst u. apply find_some in F.
      destruct F as [I N]. apply String.eqb_eq in N. now exists p.
    + intros [p [I [N <-]]]. now rewrite (proj2 (P p) (conj I N)).
Qed.

Lemma listed_for_asset (p : ParamEntry) (asset : string) :
  In p (get_parameters_for_asset asset)
  <-> In p PARAMETER_REGISTRY
      /\ Str.mem asset (param_applicable_assets p) = true.
Proof.
  unfold get_parameters_for_asset. apply filter_In.
Qed.

(** X16. [validate_parameter_for_asset] and [get_parameters_for_asset]
    agree: a parameter is valid for an asset exactly when an entry of that
    name is among the parameters listed for the asset; and only assets of
    the asset registry are accepted. *)
Theorem valid_for_asset_iff_listed (name asset : string) :
  (validate_parameter_for_asset name asset = true
   <-> exists p, In p (get_parameters_for_asset asset)
                 /\ param_name p = name)
  /\ (validate_parameter_for_asset name asset = true ->
      In asset get_all_asset_names).
Proof.
  assert (V : validate_parameter_for_asset name asset = true ->
              exists p, In p PARAMETER_REGISTRY /\ param_name p = name
                        /\ Str.mem asset (param_applicable_assets p) = true).
  { unfold validate_parameter_for_asset.
    destruct (get_parameter_by_name name) as [p | ] eqn:F;
      [ | discriminate].
    intros M. apply find_some in F. destruct F as [I E].
    apply String.eqb_eq in E. now exists p. }
  split; [split | ].
  - intros T. destruct (V T) as [p [I [N M]]]. exists p.
    split; [ | exact N]. apply listed_for_asset. now split.
  - intros [p [I <-]]. apply listed_for_asset in I. destruct I as [I M].
    pose proof (proj1 (Forall_forall _ _) parameters_found_by_name p I) as E.
    cbv beta in E. unfold validate_parameter_for_asset.
    rewrite E. exact M.
  - intros T. destruct (V T) as [p [I [_ M]]].
    pose proof (proj1 (Forall_forall _ _) applicable_assets_registered p I)
      as A.
    apply mem_in in M.
    apply mem_in. exact (proj1 (forallb_forall _ _) A asset M).
Qed.

End Registries.

Section RegistryAliases.
Import registries models llm_agent.
Context `{Outside}.
#[local] Open Scope list_scope.

(** X17. The aliases of the parameter registry, each taken as the header of
    a column with no oracle configured: the alias is mapped to its own
    parameter with the confidence high, except the six aliases in which a
    term of the block list occurs, which are set aside, and
    ["SO2 Emissions"], which goes to [co2_emissions] (the alias
    ["CO2 Emissions"] comes first and holds the same characters). Every
    alias of the asset registry names its own asset. *)
Theorem registry_aliases_as_headers :
  Forall (fun p =>
            Forall (fun alias =>
                      exists m,
                        map_header (new_agent None) alias = ret m
                        /\ (m_param_name m, m_confidence m)
                           = alias_fate (param_name p) alias)
                   (param_aliases p))
         PARAMETER_REGISTRY
  /\ Forall (fun a =>
               Forall (fun alias =>
                         m_asset_name
                           (_fuzzy_match_header (new_agent None) alias)
                         = Some (asset_name a))
                      (asset_aliases a))
            ASSET_REGISTRY.
Proof.
  split.
  - assert (C : forallb (fun p => forallb (alias_fate_met p) (param_aliases p))
                        PARAMETER_REGISTRY = true)
      by (vm_compute; reflexivity).
    apply Forall_forall. intros p Ip. apply Forall_forall. intros alias Ia.
    pose proof (proj1 (forallb_forall _ _)
                  (proj1 (forallb_forall _ _) C p Ip) alias Ia) as M.
    unfold alias_fate_met in M.
    destruct (map_header (new_agent None) alias) as [e | m];
      [discriminate M | ].
    exists m. split; [reflexivity | ].
    apply andb_true_iff in M. destruct M as [Mp Mc].
    apply String.eqb_eq in Mc.
    destruct (alias_fate (param_name p) alias) as [fp fc].
    cbn [fst snd] in Mp, Mc. subst fc. f_equal.
    destruct (m_param_name m) as [x | ], fp as [y | ]; cbn in Mp;
      try discriminate Mp; [ | reflexivity].
    apply String.eqb_eq in Mp. now subst.
  - assert (C : forallb (fun a => forallb (alias_names_asset a)
                                          (asset_aliases a))
                        ASSET_REGISTRY = true)
      by (vm_compute; reflexivity).
    apply Forall_forall. intros a Ia. apply Forall_forall. intros alias Il.
    pose proof (proj1 (forallb_forall _ _)
                  (proj1 (forallb_forall _ _) C a Ia) alias Il) as M.
    unfold alias_names_asset in M.
    destruct (m_asset_name _) as [x | ]; cbn in M; [ | discriminate M].
    apply String.eqb_eq in M. now subst.
Qed.

End RegistryAliases.

(* ================================================================= *)
(** ** Sets and sorted lists of texts *)

Section SortedSets.
Import registries parser.
#[local] Open Scope list_scope.

Lemma set_add_in (x y : string) (s : list string) :
  In y (set_add x s) <-> y = x \/ In y s.
Proof.
  unfold set_add. destruct (Str.mem x s) eqn:M.
  - apply mem_in in M. split; [tauto | ]. intros [-> | I]; assumption.
  - rewrite in_app_iff. cbn [In]. split; intros [I | I]; try tauto.
    + destruct I as [<- | []]. now left.
    + subst. right. now left.
Qed.

Lemma set_add_nodup (x : string) (s : list string) :
  NoDup s -> NoDup (set_add x s).
Proof.
  intros N. unfold set_add. destruct (Str.mem x s) eqn:M; [exact N | ].
  assert (NI : ~ In x s) by (intros I; apply mem_in in I; congruence).
  clear M. induction N as [ | y s Ny N IH]; cbn [app].
  - constructor; [intros [] | constructor].
  - constructor.
    + rewrite in_app_iff. cbn [In]. intros [I | [<- | []]];
        [contradiction | ]. apply NI. now left.
    + apply IH. intros I. apply NI. now right.
Qed.

Lemma insert_sorted_in (x y : string) (l : list string) :
  In y (insert_sorted x l) <-> y = x \/ In y l.
Proof.
  induction l as [ | z l IH]; cbn [insert_sorted In].
  - split; [intros [<- | []]; now left | intros [-> | []]; now left].
  - destruct (String.leb x z); cbn [In]; [ | rewrite IH];
      split; intros I; intuition congruence.
Qed.

Lemma sorted_in (y : string) (l : list string) :
  In y (sorted l) <-> In y l.
Proof.
  unfold sorted. induction l as [ | x l IH]; cbn [fold_right In];
    [tauto | ].
  rewrite insert_sorted_in, IH. split; intros [I | I]; auto.
Qed.

Lemma insert_sorted_nodup (x : string) (l : list string) :
  ~ In x l -> NoDup l -> NoDup (insert_sorted x l).
Proof.
  intros NI N. induction N as [ | z l Nz N IH]; cbn [insert_sorted].
  - constructor; [intros [] | constructor].
  - destruct (String.leb x z).
    + constructor; [exact NI | now constructor].
    + constructor.
      * rewrite insert_sorted_in. intros [-> | I]; [ | contradiction].
        apply NI. now left.
      * apply IH. intros I. apply NI. now right.
Qed.

Lemma sorted_nodup (l : list string) : NoDup l -> NoDup (sorted l).
Proof.
  unfold sorted. induction 1 as [ | x l Nx N IH]; cbn [fold_right];
    [constructor | ].
  apply insert_sorted_nodup; [ | exact IH].
  intros I. apply Nx. now apply sorted_in.
Qed.

Lemma insert_sorted_ordered (x : string) (l : list string) :
  LocallySorted precedes l -> LocallySorted precedes (insert_sorted x l).
Proof.
  induction 1 as [ | a | a b l S IH R]; cbn [insert_sorted].
  - constructor.
  - destruct (String.leb x a) eqn:L.
    + constructor; [constructor | exact L].
    + constructor; [constructor | ].
      destruct (String.leb_total x a) as [T | T]; [congruence | exact T].
  - cbn [insert_sorted] in IH.
    destruct (String.leb x a) eqn:L.
    + constructor; [now constructor | exact L].
    + destruct (String.leb x b) eqn:L'.
      * constructor; [exact IH | ].
        destruct (String.leb_total x a) as [T | T]; [congruence | exact T].
      * constructor; [exact IH | exact R].
Qed.

Lemma sorted_ordered (l : list string) : LocallySorted precedes (sorted l).
Proof.
  unfold sorted. induction l as [ | x l IH]; cbn [fold_right];
    [constructor | now apply insert_sorted_ordered].
Qed.

Lemma insert_sorted_length (x : string) (l : list string) :
  List.length (insert_sorted x l) = S (List.length l).
Proof.
  induction l as [ | z l IH]; cbn [insert_sorted]; [reflexivity | ].
  destruct (String.leb x z); cbn [List.length]; [reflexivity | now rewrite IH].
Qed.

Lemma sorted_length (l : list string) :
  List.length (sorted l) = List.length l.
Proof.
  unfold sorted. induction l as [ | x l IH]; cbn [fold_right];
    [reflexivity | ].
  rewrite insert_sorted_length. cbn [List.length]. now rewrite IH.
Qed.

(** The set of the values of [f] over a list, gathered with [set_add]. *)
Lemma gathered {A : Type} (f : A -> string) (l : list A)
    (s : list string) :
  NoDup s ->
  NoDup (fold_left (fun s a => set_add (f a) s) l s)
  /\ forall y, In y (fold_left (fun s a => set_add (f a) s) l s)
               <-> In y s \/ exists a, In a l /\ f a = y.
Proof.
  revert s. induction l as [ | a l IH]; intros s N; cbn [fold_left].
  - split; [exact N | ]. intros y. split; [tauto | ].
    intros [I | [a [[] _]]]. exact I.
  - destruct (IH (set_add (f a) s) (set_add_nodup _ _ N)) as [N' I'].
    split; [exact N' | ]. intros y. rewrite I', set_add_in. cbn [In].
    split.
    + intros [[-> | I] | [b [I E]]].
      * right. exists a. split; [now left | reflexivity].
      * now left.
      * right. exists b. split; [now right | exact E].
    + intros [I | [b [[<- | I] E]]].
      * left. now right.
      * left. left. now symmetry.
      * right. now exists b.
Qed.

Lemma sections_gathered (registry : list ParamEntry) (section : string) :
  (exists p, In p registry /\ param_section p = section)
  <-> filter (fun p => String.eqb (param_section p) section) registry <> [].
Proof.
  split.
  - intros [p [I E]] F.
    assert (J : In p (filter (fun p => String.eqb (param_section p) section)
                             registry))
      by (apply filter_In; split; [exact I | now apply String.eqb_eq]).
    rewrite F in J. exact J.
  - intros N.
    destruct (filter (fun p => String.eqb (param_section p) section) registry)
      as [ | p l] eqn:F; [contradiction | ].
    assert (J : In p (filter (fun p => String.eqb (param_section p) section)
                             registry))
      by (rewrite F; now left).
    apply filter_In in J. destruct J as [I E]. exists p.
    split; [exact I | now apply String.eqb_eq].
Qed.

(** X18. [get_all_sections] answers the sections in ascending order, each
    once, and a section is among them exactly when
    [get_parameters_by_section] finds a parameter in it. *)
Theorem all_sections_sorted_and_inhabited :
  LocallySorted precedes get_all_sections
  /\ NoDup get_all_sections
  /\ forall section,
       In section get_all_sections
       <-> get_parameters_by_section section <> [].
Proof.
  unfold get_all_sections, get_parameters_by_section.
  generalize PARAMETER_REGISTRY. intros registry.
  destruct (gathered param_section registry [] (NoDup_nil _)) as [N I].
  split; [apply sorted_ordered | split; [now apply sorted_nodup | ]].
  intros section. rewrite sorted_in, I, <- sections_gathered. cbn [In].
  tauto.
Qed.

End SortedSets.

(* ================================================================= *)
(** ** ReportAssembler: the response against the sheet *)

Section Sheet.
Import models llm_agent value_parser parser.
Context `{Outside}.
#[local] Open Scope list_scope.

Lemma parse_file_success (agent : ExcelParsingAgent)
    (raw_data : list (list pyval)) :
  status (parse_file agent raw_data) = "success" ->
  parse_sheet agent raw_data = ret (parse_file agent raw_data).
Proof.
  unfold parse_file. destruct raw_data as [ | row rows]; [discriminate | ].
  destruct (parse_sheet agent (row :: rows)) as [e | response];
    [discriminate | reflexivity].
Qed.

Lemma let_pair {A B C : Type} (p : A * B) (f : A -> B -> C) :
  (let '(a, b) := p in f a b) = f (fst p) (snd p).
Proof.
  now destruct p.
Qed.

(** The parts of a response, from the run of the row loop. *)
Lemma parse_sheet_parts (agent : ExcelParsingAgent)
    (raw_data : list (list pyval)) (response : ParseResponse) :
  parse_sheet agent raw_data = ret response ->
  exists header_mappings st,
    map_headers agent (headers_of_sheet raw_data) = ret header_mappings
    /\ List.length header_mappings = List.length (headers_of_sheet raw_data)
    /\ process_rows header_mappings (List.length (headers_of_sheet raw_data))
         (data_rows_of raw_data)
         (mkRun []
            ([Txt ("Detected header row at index "
                   ++ Str.of_nat (header_row_of raw_data))]
             :: if Nat.ltb 0 (header_row_of raw_data)
                then [[Txt ("Rows 0-"
                            ++ Str.of_nat (header_row_of raw_data - 1)
                            ++ " appear to be title/metadata, skipped")]]
                else []))
       = ret st
    /\ response
       = mkParseResponse "success" (Some (header_row_of raw_data)) (cells st)
           (flat_map unmapped_of
              (enumerate (combine (headers_of_sheet raw_data)
                                  header_mappings)))
           (unique_warnings
              (map render (warns st)
               ++ duplicate_warnings (group_columns header_mappings)))
           []
           (Some (mkMetadata
                    (List.length raw_data)
                    (List.length raw_data - header_row_of raw_data - 1)
                    (List.length (headers_of_sheet raw_data))
                    (List.length
                       (filter (fun m => some_nonempty (m_param_name m))
                               header_mappings))
                    (List.length
                       (flat_map unmapped_of
                          (enumerate (combine (headers_of_sheet raw_data)
                                              header_mappings))))
                    (Nat.ltb 1
                       (List.length
                          (snd (fold_left assets_step header_mappings
                                          ([], [])))))))
           (map (fun kv => (fst kv, sorted (snd kv)))
                (fst (fold_left assets_step header_mappings ([], []))))
           (sorted (snd (fold_left assets_step header_mappings ([], []))))
           (fold_left units_step header_mappings []).
Proof.
  unfold parse_sheet, data_rows_of, header_row_of. cbv zeta.
  destruct (headers_of_row _) as [e | headers] eqn:Hd; cbn [bind];
    [discriminate | ].
  apply headers_of_row_returns in Hd. subst headers.
  fold (headers_of_sheet raw_data).
  destruct (map_headers_returns agent (headers_of_sheet raw_data))
    as [header_mappings [M L]].
  rewrite M. cbn [bind ret].
  destruct (Nat.ltb 0 (detect_header_row raw_data default_max_rows_to_check));
    cbn [add_warning cells warns app];
    (destruct (process_rows _ _ _ _) as [e | st] eqn:P; cbn [bind];
     [discriminate | ]);
    rewrite let_pair;
    intros E; inversion E; subst response; clear E;
    exists header_mappings, st;
    (split; [reflexivity | split; [exact L | split; [exact P | ]]]);
    reflexivity.
Qed.

Lemma process_cell_spec (mapping : MappingResult) (name : string)
    (row_idx col_idx : nat) (cell_value : pyval) (st st' : run) :
  m_param_name mapping = Some name ->
  process_cell mapping name row_idx col_idx cell_value st = ret st' ->
  exists c ws,
    cells st' = cells st ++ [c] /\ warns st' = warns st ++ ws
    /\ coordinates c = (row_idx, col_idx)
    /\ parsed_from mapping cell_value c.
Proof.
  intros N. unfold process_cell.
  destruct (parse_value cell_value (Some name)) as [e | [pv tag]] eqn:P;
    cbn [bind]; [discriminate | ].
  destruct (validate_value pv (Some name)) as [is_valid w] eqn:V.
  set (c := mkParsedCell _ _ _ _ _ _ _ _).
  assert (F : parsed_from mapping cell_value c).
  { exists name, tag. subst c.
    cbn [c_parsed_value c_param_name c_asset_name c_raw_value c_confidence
         c_notes].
    rewrite V. cbn [fst]. repeat split; assumption. }
  destruct w as [w | ]; intros E; inversion E; subst st'; clear E;
    cbn [add_warning add_cell cells warns].
  - exists c, [cell_warning row_idx col_idx w]. repeat split. exact F.
  - exists c, []. rewrite app_nil_r. repeat split. exact F.
Qed.

Lemma process_cell_raises (mapping : MappingResult) (name : string)
    (row_idx col_idx : nat) (cell_value : pyval) (st : run) (e : exn) :
  process_cell mapping name row_idx col_idx cell_value st = raise e ->
  parse_value cell_value (Some name) = raise e.
Proof.
  unfold process_cell.
  destruct (parse_value cell_value (Some name)) as [e' | [pv tag]];
    cbn [bind]; [intros E; inversion E; reflexivity | ].
  destruct (validate_value pv (Some name)) as [is_valid [w | ]];
    discriminate.
Qed.

Lemma parsed_columns_skip (header_mappings : list MappingResult)
    (n_headers start : nat) (cell : pyval) (row : list pyval) :
  parsed_columns header_mappings n_headers start (cell :: row)
  = (if Nat.ltb start n_headers && is_mapped header_mappings start
     then [start] else [])
    ++ parsed_columns header_mappings n_headers (S start) row.
Proof.
  unfold parsed_columns. cbn [List.length seq filter].
  now destruct (Nat.ltb start n_headers && is_mapped header_mappings start).
Qed.

Lemma parsed_columns_beyond (header_mappings : list MappingResult)
    (n_headers start : nat) (row : list pyval) :
  n_headers <= start ->
  parsed_columns header_mappings n_headers start row = [].
Proof.
  revert start. induction row as [ | cell row IH]; intros start L;
    [reflexivity | ].
  rewrite parsed_columns_skip, IH by lia.
  destruct (Nat.ltb_spec start n_headers); [lia | reflexivity].
Qed.

Lemma process_cells_spec (header_mappings : list MappingResult)
    (n_headers row_idx : nat) (row : list pyval) (start : nat)
    (st st' : run) :
  process_cells header_mappings n_headers row_idx
                (enumerate_from start row) st = ret st' ->
  exists cs ws,
    cells st' = cells st ++ cs /\ warns st' = warns st ++ ws
    /\ map coordinates cs
       = map (pair row_idx)
             (parsed_columns header_mappings n_headers start row)
    /\ Forall (fun c =>
                 start <= c_col c
                 /\ nth_error row (c_col c - start) = Some (c_raw_value c)
                 /\ exists mapping,
                      nth_error header_mappings (c_col c) = Some mapping
                      /\ parsed_from mapping (c_raw_value c) c) cs.
Proof.
  revert start st. induction row as [ | cell_value row IH]; intros start st;
    cbn [enumerate_from process_cells].
  - intros E; inversion E; subst. exists [], []. rewrite !app_nil_r.
    repeat split. constructor.
  - destruct (Nat.leb_spec n_headers start) as [B | B].
    { intros E; inversion E; subst. exists [], []. rewrite !app_nil_r.
      rewrite parsed_columns_beyond by exact B. repeat split. constructor. }
    destruct (nth_error header_mappings start) as [mapping | ] eqn:Nm;
      [ | discriminate].
    assert (Shift : forall cs : list ParsedCell,
               Forall (fun c =>
                         S start <= c_col c
                         /\ nth_error row (c_col c - S start)
                            = Some (c_raw_value c)
                         /\ exists mapping,
                              nth_error header_mappings (c_col c)
                              = Some mapping
                              /\ parsed_from mapping (c_raw_value c) c) cs ->
               Forall (fun c =>
                         start <= c_col c
                         /\ nth_error (cell_value :: row) (c_col c - start)
                            = Some (c_raw_value c)
                         /\ exists mapping,
                              nth_error header_mappings (c_col c)
                              = Some mapping
                              /\ parsed_from mapping (c_raw_value c) c) cs).
    { intros cs F. eapply Forall_impl; [ | exact F].
      intros c [L [N M]]. split; [lia | split; [ | exact M]].
      replace (c_col c - start) with (S (c_col c - S start)) by lia.
      exact N. }
    rewrite parsed_columns_skip. unfold is_mapped at 1. rewrite Nm.
    destruct (Nat.ltb_spec start n_headers) as [_ | B']; [ | lia].
    destruct (m_param_name mapping) as [name | ] eqn:Pn; cbn [andb app].
    + destruct (process_cell mapping name row_idx start cell_value st)
        as [e | st1] eqn:P; cbn [bind]; [discriminate | ].
      intros E.
      destruct (process_cell_spec _ _ _ _ _ _ _ Pn P)
        as [c [ws1 [C1 [W1 [K1 F1]]]]].
      destruct (IH _ _ E) as [cs [ws [C [W [K F]]]]].
      exists (c :: cs), (ws1 ++ ws).
      rewrite C, C1, W, W1, <- !app_assoc. cbn [app map].
      rewrite K, K1. repeat split.
      constructor; [ | now apply Shift].
      assert (Ec : c_col c = start) by (unfold coordinates in K1; congruence).
      assert (Rv : c_raw_value c = cell_value).
      { destruct F1 as [n' [t' [_ [_ [_ [_ [R _]]]]]]]. exact R. }
      rewrite Ec, Nat.sub_diag, Rv. cbn [nth_error].
      split; [lia | split; [reflexivity | ]].
      exists mapping. split; [exact Nm | exact F1].
    + intros E. destruct (IH _ _ E) as [cs [ws [C [W [K F]]]]].
      exists cs, ws. repeat split; try assumption. now apply Shift.
Qed.

Lemma process_cells_raises (header_mappings : list MappingResult)
    (n_headers row_idx : nat) (row : list pyval) (start : nat)
    (st : run) (e : exn) :
  n_headers <= List.length header_mappings ->
  process_cells header_mappings n_headers row_idx
                (enumerate_from start row) st = raise e ->
  exists col_idx cell_value name,
    start <= col_idx
    /\ nth_error row (col_idx - start) = Some cell_value
    /\ is_mapped header_mappings col_idx = true
    /\ parse_value cell_value (Some name) = raise e.
Proof.
  intros Ln. revert start st.
  induction row as [ | cell_value row IH]; intros start st;
    cbn [enumerate_from process_cells]; [discriminate | ].
  destruct (Nat.leb_spec n_headers start) as [B | B]; [discriminate | ].
  assert (Shift : (exists col_idx cell_value' name,
                     S start <= col_idx
                     /\ nth_error row (col_idx - S start) = Some cell_value'
                     /\ is_mapped header_mappings col_idx = true
                     /\ parse_value cell_value' (Some name) = raise e) ->
                  exists col_idx cell_value' name,
                    start <= col_idx
                    /\ nth_error (cell_value :: row) (col_idx - start)
                       = Some cell_value'
                    /\ is_mapped header_mappings col_idx = true
                    /\ parse_value cell_value' (Some name) = raise e).
  { intros [col_idx [v [name [L [N [M P]]]]]]. exists col_idx, v, name.
    split; [lia | split; [ | now split]].
    replace (col_idx - start) with (S (col_idx - S start)) by lia. exact N. }
  destruct (nth_error header_mappings start) as [mapping | ] eqn:Nm.
  - destruct (m_param_name mapping) as [name | ] eqn:Pn.
    + destruct (process_cell mapping name row_idx start cell_value st)
        as [e' | st1] eqn:P; cbn [bind].
      * intros E; inversion E; subst e'.
        exists start, cell_value, name. rewrite Nat.sub_diag.
        split; [lia | split; [reflexivity | split]].
        -- unfold is_mapped. now rewrite Nm, Pn.
        -- exact (process_cell_raises _ _ _ _ _ _ _ P).
      * intros E. apply Shift. exact (IH _ _ E).
    + intros E. apply Shift. exact (IH _ _ E).
  - apply nth_error_None in Nm. lia.
Qed.

(** The rows of a run: what the loop over the rows adds. *)
Lemma process_rows_spec (header_mappings : list MappingResult)
    (n_headers : nat) (rows : list (nat * list pyval)) (st st' : run) :
  process_rows header_mappings n_headers rows st = ret st' ->
  exists cs ws,
    cells st' = cells st ++ cs /\ warns st' = warns st ++ ws
    /\ map coordinates cs
       = expected_coordinates header_mappings n_headers rows
    /\ Forall (fun c =>
                 exists row mapping,
                   In (c_row c, row) rows
                   /\ existsb truthy row = true
                   /\ nth_error row (c_col c) = Some (c_raw_value c)
                   /\ c_col c < n_headers
                   /\ nth_error header_mappings (c_col c) = Some mapping
                   /\ parsed_from mapping (c_raw_value c) c) cs.
Proof.
  revert st. induction rows as [ | [row_idx row] rows IH]; intros st;
    cbn [process_rows].
  - intros E; inversion E; subst. exists [], []. rewrite !app_nil_r.
    repeat split. constructor.
  - destruct (process_row header_mappings n_headers row_idx row st)
      as [e | st1] eqn:R; cbn [bind]; [discriminate | ].
    intros E. destruct (IH _ E) as [cs [ws [C [W [K F]]]]].
    assert (F' : Forall (fun c =>
                 exists row0 mapping,
                   In (c_row c, row0) ((row_idx, row) :: rows)
                   /\ existsb truthy row0 = true
                   /\ nth_error row0 (c_col c) = Some (c_raw_value c)
                   /\ c_col c < n_headers
                   /\ nth_error header_mappings (c_col c) = Some mapping
                   /\ parsed_from mapping (c_raw_value c) c) cs).
    { eapply Forall_impl; [ | exact F].
      intros c [row0 [mapping [I R0]]]. exists row0, mapping.
      split; [now right | exact R0]. }
    unfold process_row in R. cbn [expected_coordinates flat_map fst snd].
    fold (expected_coordinates header_mappings n_headers rows).
    destruct (existsb truthy row) eqn:T; cbn [negb] in R.
    + unfold enumerate in R.
      destruct (process_cells_spec _ _ _ _ _ _ _ R)
        as [cs1 [ws1 [C1 [W1 [K1 F1]]]]].
      exists (cs1 ++ cs), (ws1 ++ ws).
      rewrite C, C1, W, W1, <- !app_assoc, map_app, K, K1.
      repeat split. apply Forall_app. split; [ | exact F'].
      assert (Kc : Forall (fun c => In (coordinates c)
                             (map (pair row_idx)
                                (parsed_columns header_mappings n_headers 0
                                   row))) cs1).
      { rewrite <- K1. apply Forall_forall. intros c I.
        now apply in_map. }
      rewrite Forall_forall in F1, Kc. apply Forall_forall. intros c I.
      destruct (F1 c I) as [_ [N [mapping [Nm P]]]].
      specialize (Kc c I). apply in_map_iff in Kc.
      destruct Kc as [i [Ei Ii]]. unfold coordinates in Ei.
      injection Ei as Er Ec. subst i. unfold parsed_columns in Ii.
      apply filter_In in Ii. destruct Ii as [_ Ii].
      apply andb_true_iff in Ii. destruct Ii as [Lt _].
      apply Nat.ltb_lt in Lt. rewrite Nat.sub_0_r in N.
      exists row, mapping. rewrite <- Er.
      split; [now left | ]. repeat split; assumption.
    + inversion R; subst st1; clear R.
      cbn [add_warning cells warns] in C, W.
      exists cs, ([skip_warning row_idx] ++ ws).
      rewrite C, W, <- app_assoc. repeat split; assumption.
Qed.

Lemma process_rows_raises (header_mappings : list MappingResult)
    (n_headers : nat) (rows : list (nat * list pyval)) (st : run)
    (e : exn) :
  n_headers <= List.length header_mappings ->
  process_rows header_mappings n_headers rows st = raise e ->
  exists row_idx row col_idx cell_value name,
    In (row_idx, row) rows
    /\ nth_error row col_idx = Some cell_value
    /\ is_mapped header_mappings col_idx = true
    /\ parse_value cell_value (Some name) = raise e.
Proof.
  intros Ln. revert st.
  induction rows as [ | [row_idx row] rows IH]; intros st;
    cbn [process_rows]; [discriminate | ].
  destruct (process_row header_mappings n_headers row_idx row st)
    as [e' | st1] eqn:R; cbn [bind].
  - intros E; inversion E; subst e'. unfold process_row in R.
    destruct (negb (existsb truthy row)); [discriminate R | ].
    destruct (process_cells_raises _ _ _ _ _ _ _ Ln R)
      as [col_idx [v [name [_ [N [M P]]]]]].
    rewrite Nat.sub_0_r in N.
    exists row_idx, row, col_idx, v, name. split; [now left | now split].
  - intros E.
    destruct (IH _ E) as [r [row0 [col_idx [v [name [I P]]]]]].
    exists r, row0, col_idx, v, name. split; [now right | exact P].
Qed.

Lemma in_data_rows (raw_data : list (list pyval)) (row_idx : nat)
    (row : list pyval) :
  In (row_idx, row) (data_rows_of raw_data)
  <-> header_row_of raw_data < row_idx
      /\ nth_error raw_data row_idx = Some row.
Proof.
  unfold data_rows_of. rewrite in_enumerate_from, nth_error_skipn.
  split; intros [L N]; (split; [lia | ]).
  - replace row_idx
      with (header_row_of raw_data + 1
            + (row_idx - (header_row_of raw_data + 1))) at 1 by lia.
    exact N.
  - replace (header_row_of raw_data + 1
             + (row_idx - (header_row_of raw_data + 1)))
      with row_idx by lia.
    exact N.
Qed.

End Sheet.

Section SheetCells.
Import models llm_agent value_parser parser.
Context `{Outside}.
#[local] Open Scope list_scope.

Lemma header_cell_at (raw_data : list (list pyval)) (row_idx col_idx : nat)
    (cell : pyval) :
  nth_error (nth row_idx raw_data []) col_idx = Some cell
  <-> cell_at raw_data row_idx col_idx = Some cell.
Proof.
  unfold cell_at. destruct (nth_error raw_data row_idx) as [row | ] eqn:N.
  - now rewrite (nth_error_nth _ _ [] N).
  - apply nth_error_None in N. rewrite (nth_overflow _ _ N).
    now destruct col_idx.
Qed.

(** The exceptions of [parse_sheet]: that of [str] on a cell of the header
    row, or that of [parse_value] on a cell under a mapped column. *)
Lemma parse_sheet_raises (agent : ExcelParsingAgent)
    (raw_data : list (list pyval)) (e : exn) :
  parse_sheet agent raw_data = raise e ->
  (e = ValueError /\ unwritable_header raw_data)
  \/ exists header_mappings row_idx row col_idx cell_value name,
       map_headers agent (headers_of_sheet raw_data) = ret header_mappings
       /\ In (row_idx, row) (data_rows_of raw_data)
       /\ nth_error row col_idx = Some cell_value
       /\ is_mapped header_mappings col_idx = true
       /\ parse_value cell_value (Some name) = raise e.
Proof.
  unfold parse_sheet, data_rows_of. cbv zeta.
  destruct (headers_of_row _) as [e' | headers] eqn:Hd; cbn [bind].
  - intros E; inversion E; subst e'. left.
    apply headers_of_row_raises in Hd.
    destruct Hd as [-> [col_idx [cell [I [_ R]]]]].
    split; [reflexivity | ]. exists col_idx, cell. split; [ | exact R].
    apply in_enumerate_from in I. rewrite Nat.sub_0_r in I.
    apply header_cell_at. exact (proj2 I).
  - apply headers_of_row_returns in Hd. subst headers.
    fold (headers_of_sheet raw_data).
    destruct (map_headers_returns agent (headers_of_sheet raw_data))
      as [header_mappings [M L]].
    rewrite M. cbn [bind ret].
    destruct (process_rows _ _ _ _) as [e' | st] eqn:P; cbn [bind].
    + intros E; inversion E; subst e'. right.
      apply process_rows_raises in P; [ | unfold header_row_of; lia].
      destruct P as [row_idx [row [col_idx [v [name P]]]]].
      exists header_mappings, row_idx, row, col_idx, v, name.
      split; [reflexivity | exact P].
    + rewrite let_pair. discriminate.
Qed.

Lemma unwritable_is_true (cell : pyval) :
  str_raises cell = true -> truthy cell = true.
Proof.
  destruct cell as [ | b | n | x | s]; try discriminate.
  cbn [truthy]. destruct (Z.eqb_spec n 0) as [-> | N]; [ | reflexivity].
  vm_compute. discriminate.
Qed.

Lemma headers_of_row_unwritable (items : list (nat * pyval)) (col_idx : nat)
    (cell : pyval) :
  In (col_idx, cell) items -> str_raises cell = true ->
  headers_of_row items = raise ValueError.
Proof.
  intros I R. induction items as [ | item items IH]; [destruct I | ].
  cbn [headers_of_row]. unfold header_text.
  destruct (truthy (snd item) && str_raises (snd item)) eqn:T; cbn [bind];
    [reflexivity | ].
  destruct I as [-> | I].
  - cbn [snd] in T. rewrite R, (unwritable_is_true _ R) in T. discriminate.
  - rewrite (IH I). reflexivity.
Qed.

(** A cell of the header row that [str] cannot write stops the parse. *)
Lemma unwritable_header_raises (agent : ExcelParsingAgent)
    (raw_data : list (list pyval)) :
  unwritable_header raw_data -> parse_sheet agent raw_data = raise ValueError.
Proof.
  intros [col_idx [cell [C R]]]. unfold parse_sheet. cbv zeta.
  rewrite (headers_of_row_unwritable _ col_idx cell); [reflexivity | | exact R].
  apply in_enumerate_from. rewrite Nat.sub_0_r. split; [lia | ].
  apply header_cell_at. exact C.
Qed.

Lemma parse_value_overflows (n : Z) (param_name : option string) :
  PrimFloat.is_infinity (float_of_Z n) = true ->
  parse_value (PyInt n) param_name = raise OverflowError.
Proof.
  intros Inf. unfold parse_value. cbn [is_none eq_str orb is_number].
  cbn [float_of_number]. unfold float_of_int. cbv zeta. rewrite Inf.
  reflexivity.
Qed.

Lemma zero_is_finite : PrimFloat.is_infinity (float_of_Z 0) = false.
Proof.
  reflexivity.
Qed.

(** An integer beyond the binary64 range under a mapped column stops the
    parse: the row loop reaches every such cell. *)
Lemma overflowing_cell_stops (agent : ExcelParsingAgent)
    (raw_data : list (list pyval)) (header_mappings : list MappingResult)
    (response : ParseResponse) :
  map_headers agent (headers_of_sheet raw_data) = ret header_mappings ->
  overflowing_cell header_mappings raw_data ->
  parse_sheet agent raw_data <> ret response.
Proof.
  intros M [row_idx [col_idx [n [B [Mp [C Inf]]]]]] S.
  destruct (parse_sheet_parts _ _ _ S) as [ms [st [M' [L [P _]]]]].
  rewrite M in M'. inversion M'; subst ms. clear M'.
  destruct (process_rows_spec _ _ _ _ _ P) as [cs [ws [_ [_ [K F]]]]].
  unfold cell_at in C.
  destruct (nth_error raw_data row_idx) as [row | ] eqn:Nr; [ | discriminate].
  assert (I : In (row_idx, col_idx)
                (expected_coordinates header_mappings
                   (List.length (headers_of_sheet raw_data))
                   (data_rows_of raw_data))).
  { unfold expected_coordinates. apply in_flat_map.
    exists (row_idx, row). split; [now apply in_data_rows | ].
    cbn [fst snd].
    assert (T : existsb truthy row = true).
    { apply existsb_exists. exists (PyInt n).
      split; [exact (nth_error_In _ _ C) | ].
      cbn [truthy]. destruct (Z.eqb_spec n 0) as [-> | N]; [ | reflexivity].
      rewrite zero_is_finite in Inf. discriminate. }
    rewrite T. apply in_map. unfold parsed_columns. apply filter_In.
    assert (Lc : col_idx < List.length row).
    { apply nth_error_Some. now rewrite C. }
    split; [apply in_seq; lia | ].
    rewrite Mp, andb_true_r. apply Nat.ltb_lt. rewrite <- L.
    apply nth_error_Some. unfold is_mapped in Mp.
    now destruct (nth_error header_mappings col_idx). }
  rewrite <- K in I. apply in_map_iff in I. destruct I as [c [E I]].
  unfold coordinates in E. injection E as Er Ec.
  rewrite Forall_forall in F.
  destruct (F c I) as [row' [mapping [Ir [_ [N [_ [_ Pf]]]]]]].
  apply in_data_rows in Ir. rewrite Er, Nr in Ir.
  destruct Ir as [_ Ir]. injection Ir as <-.
  rewrite Ec, C in N. injection N as N.
  destruct Pf as [name [tag [_ [Pv _]]]].
  rewrite <- N, (parse_value_overflows _ _ Inf) in Pv. discriminate.
Qed.

Lemma unwritable_not_empty (raw_data : list (list pyval)) :
  unwritable_header raw_data -> raw_data <> [].
Proof.
  intros [col_idx [cell [C _]]] ->. unfold cell_at in C.
  now destruct (header_row_of []).
Qed.

Lemma overflowing_not_empty (header_mappings : list MappingResult)
    (raw_data : list (list pyval)) :
  overflowing_cell header_mappings raw_data -> raw_data <> [].
Proof.
  intros [row_idx [col_idx [n [_ [_ [C _]]]]]] ->. unfold cell_at in C.
  now destruct row_idx.
Qed.

(** The four outcomes of [parse_file], each with its cause. *)
Lemma parse_file_outcomes (agent : ExcelParsingAgent)
    (raw_data : list (list pyval)) (header_mappings : list MappingResult) :
  map_headers agent (headers_of_sheet raw_data) = ret header_mappings ->
  (raw_data = []
   /\ parse_file agent raw_data
      = mkParseResponse "error" None [] [] [] [FileIsEmpty] None [] [] [])
  \/ (unwritable_header raw_data
      /\ parse_file agent raw_data = error_response ValueError)
  \/ (~ unwritable_header raw_data
      /\ overflowing_cell header_mappings raw_data
      /\ parse_file agent raw_data = error_response OverflowError)
  \/ (raw_data <> [] /\ ~ unwritable_header raw_data
      /\ ~ overflowing_cell header_mappings raw_data
      /\ status (parse_file agent raw_data) = "success").
Proof.
  intros M. unfold parse_file. destruct raw_data as [ | first rest];
    [left; split; reflexivity | right].
  destruct (parse_sheet agent (first :: rest)) as [e | response] eqn:P.
  - destruct (parse_sheet_raises _ _ _ P)
      as [[-> U] | [ms [row_idx [row [col_idx [v [name [M' [I [N [Mp R]]]]]]]]]]].
    + left. split; [exact U | reflexivity].
    + right. left.
      rewrite M in M'. inversion M'; subst ms. clear M'.
      destruct (parse_value_raise_cases _ _ _ R) as [-> [n [-> Inf]]].
      split; [ | split; [ | reflexivity]].
      * intros U. apply (unwritable_header_raises agent) in U.
        rewrite P in U. discriminate.
      * apply in_data_rows in I. destruct I as [L Nr].
        exists row_idx, col_idx, n. unfold cell_at. rewrite Nr.
        repeat split; assumption.
  - right. right.
    split; [discriminate | split; [ | split]].
    + intros U. apply (unwritable_header_raises agent) in U.
      rewrite P in U. discriminate.
    + intros O. exact (overflowing_cell_stops _ _ _ _ M O P).
    + destruct (parse_sheet_parts _ _ _ P) as [ms [st [_ [_ [_ ->]]]]].
      reflexivity.
Qed.

(** X19. On a sheet of cells that are [None], booleans, integers, floats
    or texts, the answer of [parse_file] is settled by three causes, tried
    in this order. A sheet without a row is answered by the error
    ["File is empty"]. A header row that holds an integer of more than 4300
    decimal digits, which [str] refuses to write, is answered by the error
    of [ValueError]. A row below the header row that holds, under a mapped
    column, an integer beyond the binary64 range is answered by the error of
    [OverflowError]. Each cause gives its error and each error has its
    cause; a sheet with none of the three is answered with the status
    ["success"], whatever its other cells, its headers and the answers of
    the oracle. *)
Theorem parse_file_outcome_has_its_cause
    (agent : ExcelParsingAgent) (raw_data : list (list pyval)) :
  exists header_mappings,
    map_headers agent (headers_of_sheet raw_data) = ret header_mappings
    /\ (parse_file agent raw_data
        = mkParseResponse "error" None [] [] [] [FileIsEmpty] None [] [] []
        <-> raw_data = [])
    /\ (parse_file agent raw_data = error_response ValueError
        <-> unwritable_header raw_data)
    /\ (parse_file agent raw_data = error_response OverflowError
        <-> ~ unwritable_header raw_data
            /\ overflowing_cell header_mappings raw_data)
    /\ (status (parse_file agent raw_data) = "success"
        <-> raw_data <> [] /\ ~ unwritable_header raw_data
            /\ ~ overflowing_cell header_mappings raw_data).
Proof.
  destruct (map_headers_returns agent (headers_of_sheet raw_data))
    as [header_mappings [M _]].
  exists header_mappings. split; [exact M | ].
  pose proof (unwritable_not_empty raw_data) as UE.
  pose proof (overflowing_not_empty header_mappings raw_data) as OE.
  destruct (parse_file_outcomes agent raw_data header_mappings M)
    as [[E R] | [[U R] | [[NU [O R]] | [NE [NU [NO R]]]]]].
  - split; [split; [intros _; exact E | intros _; exact R] | ].
    split; [split; [rewrite R; discriminate | intros U; now apply UE in U] | ].
    split; [split; [rewrite R; discriminate
                   | intros [_ O]; now apply OE in O] | ].
    split; [rewrite R; discriminate | intros [NE _]; now destruct NE].
  - split; [split; [rewrite R; discriminate | intros E; now apply UE in U] | ].
    split; [split; [intros _; exact U | intros _; exact R] | ].
    split; [split; [rewrite R; discriminate
                   | intros [NU _]; now destruct NU] | ].
    split; [rewrite R; discriminate | intros [_ [NU _]]; now destruct NU].
  - split; [split; [rewrite R; discriminate | intros E; now apply OE in O] | ].
    split; [split; [rewrite R; discriminate | intros U; now destruct NU] | ].
    split; [split; [intros _; split; assumption | intros _; exact R] | ].
    split; [rewrite R; discriminate | intros [_ [_ NO]]; now destruct NO].
  - split; [split; [intros Eq; rewrite Eq in R; discriminate R
                   | intros E; now destruct NE] | ].
    split; [split; [intros Eq; rewrite Eq in R; discriminate R
                   | intros U; now destruct NU] | ].
    split; [split; [intros Eq; rewrite Eq in R; discriminate R
                   | intros [_ O]; now destruct NO] | ].
    split; [intros _; repeat split; assumption | intros _; exact R].
Qed.

(** X20. Every parsed cell comes from the sheet: its row lies below the
    header row, in a row that is not skipped; its column lies within the
    headers and is mapped to the parameter and the asset the cell names;
    its raw value is the cell of the sheet at that row and column; and its
    parsed value, confidence and note are those [parse_value],
    [validate_value] and the confidence rules give for that raw value. *)
Theorem parsed_cells_come_from_the_sheet (agent : ExcelParsingAgent)
    (raw_data : list (list pyval)) :
  status (parse_file agent raw_data) = "success" ->
  exists header_mappings,
    map_headers agent (headers_of_sheet raw_data) = ret header_mappings
    /\ Forall (fun c =>
                 header_row_of raw_data < c_row c
                 /\ c_col c < List.length (headers_of_sheet raw_data)
                 /\ cell_at raw_data (c_row c) (c_col c)
                    = Some (c_raw_value c)
                 /\ existsb truthy (nth (c_row c) raw_data []) = true
                 /\ exists mapping,
                      nth_error header_mappings (c_col c) = Some mapping
                      /\ parsed_from mapping (c_raw_value c) c)
              (parsed_data (parse_file agent raw_data)).
Proof.
  intros S. apply parse_file_success in S.
  destruct (parse_sheet_parts _ _ _ S) as [ms [st [M [_ [P E]]]]].
  exists ms. split; [exact M | ]. rewrite E. cbn [parsed_data].
  destruct (process_rows_spec _ _ _ _ _ P) as [cs [ws [C [_ [_ F]]]]].
  cbn [cells app] in C. rewrite C.
  eapply Forall_impl; [ | exact F].
  intros c [row [mapping [I [T [N [L [Nm Pf]]]]]]].
  apply in_data_rows in I. destruct I as [Lr Nr].
  unfold cell_at. rewrite Nr, (nth_error_nth _ _ [] Nr).
  repeat split; try assumption. now exists mapping.
Qed.

Lemma seq_increasing (start len : nat) :
  StronglySorted lt (seq start len).
Proof.
  revert start. induction len as [ | len IH]; intros start; cbn [seq];
    constructor; [apply IH | ].
  apply Forall_forall. intros i I. apply in_seq in I. lia.
Qed.

Lemma filter_sorted {A : Type} (R : A -> A -> Prop) (f : A -> bool)
    (l : list A) :
  StronglySorted R l -> StronglySorted R (filter f l).
Proof.
  induction 1 as [ | a l S IH F]; cbn [filter]; [constructor | ].
  destruct (f a); [ | exact IH].
  constructor; [exact IH | ].
  rewrite Forall_forall in F |- *. intros x I. apply filter_In in I.
  apply F. exact (proj1 I).
Qed.

Lemma sorted_append {A : Type} (R : A -> A -> Prop) (l l' : list A) :
  StronglySorted R l -> StronglySorted R l' ->
  (forall a b, In a l -> In b l' -> R a b) ->
  StronglySorted R (l ++ l').
Proof.
  intros S S' B. induction S as [ | a l S IH F]; cbn [app]; [exact S' | ].
  constructor.
  - apply IH. intros x y I J. apply B; [now right | exact J].
  - apply Forall_app. split; [exact F | ].
    apply Forall_forall. intros y J. apply B; [now left | exact J].
Qed.

Lemma expected_coordinates_sorted (header_mappings : list MappingResult)
    (n_headers start : nat) (rows : list (list pyval)) :
  StronglySorted reads_before
    (expected_coordinates header_mappings n_headers
       (enumerate_from start rows))
  /\ Forall (fun p => start <= fst p)
       (expected_coordinates header_mappings n_headers
          (enumerate_from start rows)).
Proof.
  revert start. induction rows as [ | row rows IH]; intros start;
    cbn [enumerate_from expected_coordinates flat_map fst snd].
  - split; constructor.
  - fold (expected_coordinates header_mappings n_headers
            (enumerate_from (S start) rows)).
    destruct (IH (S start)) as [S F].
    assert (R : StronglySorted reads_before
                  (map (pair start)
                     (parsed_columns header_mappings n_headers 0 row))).
    { unfold parsed_columns.
      pose proof (filter_sorted lt
                    (fun i => Nat.ltb i n_headers
                              && is_mapped header_mappings i)
                    _ (seq_increasing 0 (List.length row))) as Q.
      induction Q as [ | i l Q IHQ Fi]; cbn [map]; constructor;
        [exact IHQ | ].
      apply Forall_forall. intros p I. apply in_map_iff in I.
      destruct I as [j [<- J]]. right. cbn [fst snd].
      split; [reflexivity | ].
      exact (proj1 (Forall_forall _ _) Fi j J). }
    assert (Fr : Forall (fun p : nat * nat => fst p = start)
                   (map (pair start)
                      (parsed_columns header_mappings n_headers 0 row))).
    { apply Forall_forall. intros p I. apply in_map_iff in I.
      now destruct I as [j [<- _]]. }
    destruct (existsb truthy row).
    + split.
      * apply sorted_append; [exact R | exact S | ].
        intros a b Ia Ib. left.
        rewrite (proj1 (Forall_forall _ _) Fr a Ia).
        pose proof (proj1 (Forall_forall _ _) F b Ib). cbn beta in *. lia.
      * apply Forall_app. split.
        -- eapply Forall_impl; [ | exact Fr]. cbn beta. intros p ->. lia.
        -- eapply Forall_impl; [ | exact F]. cbn beta. intros p L. lia.
    + cbn [app]. split; [exact S | ].
      eapply Forall_impl; [ | exact F]. cbn beta. intros p L. lia.
Qed.

(** X21. The cells that are parsed, and their order: in every data row that
    holds a cell true in a test, the cells of the mapped columns within the
    headers, and no others; row by row and from left to right, so that no
    cell of the sheet is parsed twice. *)
Theorem parsed_cells_in_reading_order (agent : ExcelParsingAgent)
    (raw_data : list (list pyval)) :
  status (parse_file agent raw_data) = "success" ->
  exists header_mappings,
    map_headers agent (headers_of_sheet raw_data) = ret header_mappings
    /\ map coordinates (parsed_data (parse_file agent raw_data))
       = expected_coordinates header_mappings
           (List.length (headers_of_sheet raw_data)) (data_rows_of raw_data)
    /\ StronglySorted reads_before
         (map coordinates (parsed_data (parse_file agent raw_data))).
Proof.
  intros S. apply parse_file_success in S.
  destruct (parse_sheet_parts _ _ _ S) as [ms [st [M [_ [P E]]]]].
  exists ms. split; [exact M | ]. rewrite E. cbn [parsed_data].
  destruct (process_rows_spec _ _ _ _ _ P) as [cs [ws [C [_ [K _]]]]].
  cbn [cells app] in C. rewrite C, K.
  split; [reflexivity | ].
  unfold data_rows_of. apply expected_coordinates_sorted.
Qed.

End SheetCells.

Section SheetConfidence.
Import models llm_agent value_parser parser.
Context `{Outside}.
#[local] Open Scope list_scope.

Lemma fuzzy_confidence_level (self : ExcelParsingAgent) (header : string) :
  In (m_confidence (_fuzzy_match_header self header)) levels.
Proof.
  unfold _fuzzy_match_header.
  destruct (fold_left (match_param _) _ _) as [best score].
  destruct (if negb _ then _ else _) as [asset inferred].
  cbn [m_confidence]. unfold levels. cbn [In].
  destruct (Qgtb score (85 # 100)); [ | destruct (Qgtb score (6 # 10))];
    destruct (inferred && some_nonempty asset); cbn; tauto.
Qed.

Lemma map_header_confidence_level (self : ExcelParsingAgent)
    (header : string) (m : MappingResult) :
  llm_available self = false ->
  map_header self header = ret m -> In (m_confidence m) levels.
Proof.
  intros L. unfold map_header. rewrite L. cbn [negb].
  destruct (_is_non_parameter (Some header)) as [[] reason];
    intros E; inversion E; subst m.
  - cbn. tauto.
  - apply fuzzy_confidence_level.
Qed.

Lemma final_confidence_cases (mapping_confidence parse_method : string)
    (parsed_value : option float) (is_valid : bool) :
  In (final_confidence mapping_confidence parse_method parsed_value is_valid)
     [mapping_confidence; "medium"; "low"].
Proof.
  unfold final_confidence. cbn [In].
  destruct is_valid; cbn [negb]; [ | tauto].
  destruct (match parsed_value with None => true | Some _ => false end
            && Str.mem parse_method ["null_value"; "unparseable"]);
    [tauto | ].
  destruct (parse_method =? "unexpected_boolean")%string; [tauto | ].
  destruct ((parse_method =? "extracted_number")%string
            && (mapping_confidence =? "high")%string); tauto.
Qed.

Lemma pointwise_nth_error {A B : Type} (R : A -> B -> Prop)
    (l : list A) (l' : list B) (i : nat) (b : B) :
  Forall2 R l l' -> nth_error l' i = Some b ->
  exists a, nth_error l i = Some a /\ R a b.
Proof.
  intros F. revert i. induction F as [ | x y l l' Rxy F IH]; intros i N.
  - destruct i; discriminate N.
  - destruct i as [ | i]; cbn [nth_error] in *.
    + inversion N; subst. now exists x.
    + now apply IH.
Qed.

(** X22. With no oracle configured every parsed cell carries one of the
    three confidence levels: the fuzzy matcher and the classifier give no
    other text, and the confidence rules add none. *)
Theorem parsed_confidence_is_a_level (agent : ExcelParsingAgent)
    (raw_data : list (list pyval)) :
  llm_available agent = false ->
  Forall (fun c => In (c_confidence c) levels)
         (parsed_data (parse_file agent raw_data)).
Proof.
  intros L. unfold parse_file. destruct raw_data as [ | first rest];
    [constructor | ].
  destruct (parse_sheet agent (first :: rest)) as [e | response] eqn:P;
    [constructor | ].
  destruct (parse_sheet_parts _ _ _ P) as [ms [st [M [_ [R E]]]]].
  rewrite E. cbn [parsed_data].
  destruct (process_rows_spec _ _ _ _ _ R) as [cs [ws [C [_ [_ F]]]]].
  cbn [cells app] in C. rewrite C.
  apply map_headers_pointwise in M.
  eapply Forall_impl; [ | exact F].
  intros c [row [mapping [_ [_ [_ [_ [Nm Pf]]]]]]].
  destruct (pointwise_nth_error _ _ _ _ _ M Nm) as [header [_ Mh]].
  apply (map_header_confidence_level _ _ _ L) in Mh.
  destruct Pf as [name [tag [_ [_ [_ [_ [_ [Cf _]]]]]]]]. rewrite Cf.
  pose proof (final_confidence_cases (m_confidence mapping) tag
                (c_parsed_value c)
                (fst (validate_value (c_parsed_value c) (Some name)))) as Fc.
  cbn [In] in Fc. unfold levels in *. cbn [In] in *.
  destruct Fc as [<- | [<- | [<- | []]]]; tauto.
Qed.

Lemma render_text (s : string) : render [Txt s] = s.
Proof.
  cbn. induction s as [ | c s IH]; cbn; [reflexivity | now rewrite IH].
Qed.

(** X23. The warnings of a successful response do not repeat, and the first
    of them names the header row, which is the row that [header_row]
    holds. *)
Theorem warnings_open_with_header_row (agent : ExcelParsingAgent)
    (raw_data : list (list pyval)) :
  status (parse_file agent raw_data) = "success" ->
  header_row (parse_file agent raw_data) = Some (header_row_of raw_data)
  /\ NoDup (warnings (parse_file agent raw_data))
  /\ exists rest,
       warnings (parse_file agent raw_data)
       = ("Detected header row at index "
          ++ Str.of_nat (header_row_of raw_data))%string :: rest.
Proof.
  intros S. apply parse_file_success in S.
  destruct (parse_sheet_parts _ _ _ S) as [ms [st [_ [_ [P E]]]]].
  rewrite E. cbn [header_row warnings].
  split; [reflexivity | split].
  - exact (proj1 (unique_from_spec [] _)).
  - destruct (process_rows_spec _ _ _ _ _ P) as [cs [ws [_ [W _]]]].
    cbn [warns app] in W. rewrite W. cbn [map app].
    rewrite render_text. unfold unique_warnings. cbn [unique_from Str.mem
      existsb]. eexists. reflexivity.
Qed.

End SheetConfidence.

(** The sheet with the column ["XQZ"], no oracle configured. *)
Lemma parsed_cells_come_from_the_sheet_witness :
  exists header_mappings,
    @llm_agent.map_headers offline (llm_agent.new_agent None)
      (@headers_of_sheet offline low_confidence_sheet) = ret header_mappings
    /\ Forall (fun c =>
                 header_row_of low_confidence_sheet < models.c_row c
                 /\ models.c_col c
                    < List.length (@headers_of_sheet offline
                                     low_confidence_sheet)
                 /\ cell_at low_confidence_sheet (models.c_row c)
                            (models.c_col c)
                    = Some (models.c_raw_value c)
                 /\ existsb truthy
                      (nth (models.c_row c) low_confidence_sheet []) = true
                 /\ exists mapping,
                      nth_error header_mappings (models.c_col c)
                      = Some mapping
                      /\ @parsed_from offline mapping
                           (models.c_raw_value c) c)
              (models.parsed_data
                 (@parser.parse_file offline (llm_agent.new_agent None)
                    low_confidence_sheet)).
Proof.
  apply (@parsed_cells_come_from_the_sheet offline
           (llm_agent.new_agent None) low_confidence_sheet).
  vm_compute. reflexivity.
Defined.

(** The same sheet. *)
Lemma parsed_cells_in_reading_order_witness :
  exists header_mappings,
    @llm_agent.map_headers offline (llm_agent.new_agent None)
      (@headers_of_sheet offline low_confidence_sheet) = ret header_mappings
    /\ map coordinates
           (models.parsed_data
              (@parser.parse_file offline (llm_agent.new_agent None)
                 low_confidence_sheet))
       = expected_coordinates header_mappings
           (List.length (@headers_of_sheet offline low_confidence_sheet))
           (data_rows_of low_confidence_sheet)
    /\ StronglySorted reads_before
         (map coordinates
              (models.parsed_data
                 (@parser.parse_file offline (llm_agent.new_agent None)
                    low_confidence_sheet))).
Proof.
  apply (@parsed_cells_in_reading_order offline
           (llm_agent.new_agent None) low_confidence_sheet).
  vm_compute. reflexivity.
Defined.

(** The same sheet. *)
Lemma parsed_confidence_is_a_level_witness :
  Forall (fun c => In (models.c_confidence c) levels)
         (models.parsed_data
            (@parser.parse_file offline (llm_agent.new_agent None)
               low_confidence_sheet)).
Proof.
  apply (@parsed_confidence_is_a_level offline
           (llm_agent.new_agent None) low_confidence_sheet).
  reflexivity.
Defined.

(** The same sheet. *)
Lemma warnings_open_with_header_row_witness :
  models.header_row
    (@parser.parse_file offline (llm_agent.new_agent None)
       low_confidence_sheet)
  = Some (header_row_of low_confidence_sheet)
  /\ NoDup (models.warnings
              (@parser.parse_file offline (llm_agent.new_agent None)
                 low_confidence_sheet))
  /\ exists rest,
       models.warnings
         (@parser.parse_file offline (llm_agent.new_agent None)
            low_confidence_sheet)
       = ("Detected header row at index "
          ++ Str.of_nat (header_row_of low_confidence_sheet)) :: rest.
Proof.
  apply (@warnings_open_with_header_row offline
           (llm_agent.new_agent None) low_confidence_sheet).
  vm_compute. reflexivity.
Defined.

Section SheetColumns.
Import registries models llm_agent value_parser parser.
Context `{Outside}.
#[local] Open Scope list_scope.

Lemma unmapped_columns_from (headers : list string)
    (header_mappings : list MappingResult) (start : nat) :
  List.length headers = List.length header_mappings ->
  map u_col (flat_map unmapped_of
               (enumerate_from start (combine headers header_mappings)))
  = map (Nat.add start)
        (filter (fun i => negb (is_mapped header_mappings i))
                (seq 0 (List.length header_mappings))).
Proof.
  revert header_mappings start.
  induction headers as [ | header headers IH];
    intros [ | mapping header_mappings] start L; cbn [List.length] in L;
    try discriminate L; [reflexivity | ].
  cbn [combine enumerate_from flat_map List.length seq filter].
  rewrite map_app, IH by lia.
  rewrite <- seq_shift, filter_map_swap.
  replace (filter (fun a => negb (is_mapped (mapping :: header_mappings)
                                             (S a)))
                  (seq 0 (List.length header_mappings)))
    with (filter (fun i => negb (is_mapped header_mappings i))
                 (seq 0 (List.length header_mappings)))
    by (apply filter_ext; reflexivity).
  unfold is_mapped at 2. cbn [nth_error unmapped_of].
  destruct (m_param_name mapping); cbn [negb map app u_col];
    rewrite map_map.
  - apply map_ext. intros i. lia.
  - f_equal; [lia | ]. apply map_ext. intros i. lia.
Qed.

Lemma mapped_and_unmapped (header_mappings : list MappingResult) :
  List.length (filter (fun m => some_nonempty (m_param_name m))
                      header_mappings)
  + List.length (filter (fun i => negb (is_mapped header_mappings i))
                        (seq 0 (List.length header_mappings)))
  <= List.length header_mappings.
Proof.
  induction header_mappings as [ | mapping ms IH]; [cbn; lia | ].
  cbn [List.length seq filter]. rewrite <- seq_shift, filter_map_swap.
  replace (filter (fun a => negb (is_mapped (mapping :: ms) (S a)))
                  (seq 0 (List.length ms)))
    with (filter (fun i => negb (is_mapped ms i)) (seq 0 (List.length ms)))
    by (apply filter_ext; reflexivity).
  unfold is_mapped at 1. cbn [nth_error].
  destruct (m_param_name mapping) as [name | ];
    cbn [some_nonempty negb List.length].
  - destruct (negb (name =? "")%string); cbn [List.length];
      rewrite length_map; lia.
  - cbn [List.length]. rewrite length_map. lia.
Qed.

(** X24. The columns reported as unmapped are, in ascending order, the
    columns whose mapping names no parameter, and no parsed cell lies in
    one of them; in the metadata the count of the unmapped columns is their
    number, and the mapped and the unmapped columns together do not exceed
    the columns of the header row. *)
Theorem unmapped_columns_hold_no_cell (agent : ExcelParsingAgent)
    (raw_data : list (list pyval)) :
  status (parse_file agent raw_data) = "success" ->
  exists header_mappings md,
    map_headers agent (headers_of_sheet raw_data) = ret header_mappings
    /\ metadata (parse_file agent raw_data) = Some md
    /\ map u_col (unmapped_columns (parse_file agent raw_data))
       = filter (fun i => negb (is_mapped header_mappings i))
                (seq 0 (List.length header_mappings))
    /\ Forall (fun c =>
                 ~ In (c_col c)
                      (map u_col
                           (unmapped_columns (parse_file agent raw_data))))
              (parsed_data (parse_file agent raw_data))
    /\ unmapped_columns_count md
       = List.length (unmapped_columns (parse_file agent raw_data))
    /\ total_columns md = List.length (nth (header_row_of raw_data)
                                           raw_data [])
    /\ mapped_columns md + unmapped_columns_count md <= total_columns md.
Proof.
  intros S. apply parse_file_success in S.
  destruct (parse_sheet_parts _ _ _ S) as [ms [st [M [L [P E]]]]].
  exists ms. eexists. split; [exact M | ]. rewrite E.
  cbn [metadata unmapped_columns parsed_data].
  split; [reflexivity | ].
  assert (U : map u_col
                (flat_map unmapped_of
                   (enumerate (combine (headers_of_sheet raw_data) ms)))
              = filter (fun i => negb (is_mapped ms i))
                       (seq 0 (List.length ms))).
  { unfold enumerate. rewrite unmapped_columns_from by lia.
    rewrite <- (map_id (filter _ _)) at 2.
    apply map_ext. reflexivity. }
  split; [exact U | split; [ | split; [reflexivity | split]]].
  - rewrite U.
    destruct (process_rows_spec _ _ _ _ _ P) as [cs [ws [C [_ [_ F]]]]].
    cbn [cells app] in C. rewrite C.
    eapply Forall_impl; [ | exact F].
    intros c [row [mapping [_ [_ [_ [_ [Nm Pf]]]]]]] I.
    apply filter_In in I. destruct I as [_ I].
    unfold is_mapped in I. rewrite Nm in I.
    destruct Pf as [name [tag [Pn _]]]. rewrite Pn in I. discriminate I.
  - cbn [total_columns]. unfold headers_of_sheet, enumerate, header_row_of.
    rewrite length_map.
    generalize (nth (detect_header_row raw_data default_max_rows_to_check)
                    raw_data []).
    intros row. generalize 0.
    induction row as [ | cell row IH]; intros k; cbn; [reflexivity | ].
    now rewrite IH.
  - cbn [mapped_columns unmapped_columns_count total_columns].
    rewrite <- (length_map u_col), U, <- L.
    apply mapped_and_unmapped.
Qed.

(** The assets gathered by [assets_step]. *)
Lemma assets_gathered (header_mappings : list MappingResult)
    (acc : list (string * list string) * list string) :
  NoDup (snd acc) ->
  NoDup (snd (fold_left assets_step header_mappings acc))
  /\ forall a, In a (snd (fold_left assets_step header_mappings acc))
               <-> In a (snd acc)
                   \/ (a <> ""
                       /\ exists m, In m header_mappings
                                    /\ m_param_name m <> None
                                    /\ m_asset_name m = Some a).
Proof.
  revert acc. induction header_mappings as [ | m ms IH]; intros acc N;
    cbn [fold_left].
  - split; [exact N | ]. intros a. split; [tauto | ].
    intros [I | [_ [m [[] _]]]]. exact I.
  - assert (N' : NoDup (snd (assets_step acc m))).
    { unfold assets_step. destruct (m_param_name m); [ | exact N].
      cbn [snd]. destruct (m_asset_name m) as [a | ]; [ | exact N].
      destruct (a =? "")%string; [exact N | now apply set_add_nodup]. }
    destruct (IH _ N') as [Nd I]. split; [exact Nd | ].
    intros a. rewrite I. clear I IH Nd N'.
    unfold assets_step.
    destruct (m_param_name m) as [param | ] eqn:Pn.
    + cbn [snd]. destruct (m_asset_name m) as [b | ] eqn:An.
      * destruct (String.eqb_spec b "") as [-> | Nb].
        -- split.
           ++ intros [I | [Na [m' [I R]]]]; [now left | right].
              split; [exact Na | ]. exists m'. split; [now right | exact R].
           ++ intros [I | [Na [m' [[<- | I] [Pm Am]]]]]; [now left | | ].
              ** rewrite An in Am. inversion Am. congruence.
              ** right. split; [exact Na | ]. now exists m'.
        -- rewrite set_add_in. split.
           ++ intros [[-> | I] | [Na [m' [I R]]]].
              ** right. split; [exact Nb | ]. exists m.
                 split; [now left | ]. rewrite Pn.
                 split; [discriminate | exact An].
              ** now left.
              ** right. split; [exact Na | ]. exists m'.
                 split; [now right | exact R].
           ++ intros [I | [Na [m' [[<- | I] [Pm Am]]]]].
              ** left. now right.
              ** rewrite An in Am. inversion Am. left. now left.
              ** right. split; [exact Na | ]. now exists m'.
      * split.
        -- intros [I | [Na [m' [I R]]]]; [now left | right].
           split; [exact Na | ]. exists m'. split; [now right | exact R].
        -- intros [I | [Na [m' [[<- | I] [Pm Am]]]]]; [now left | | ].
           ++ rewrite An in Am. discriminate Am.
           ++ right. split; [exact Na | ]. now exists m'.
    + split.
      * intros [I | [Na [m' [I R]]]]; [now left | right].
        split; [exact Na | ]. exists m'. split; [now right | exact R].
      * intros [I | [Na [m' [[<- | I] [Pm Am]]]]]; [now left | | ].
        -- rewrite Pn in Pm. now contradiction Pm.
        -- right. split; [exact Na | ]. now exists m'.
Qed.

(** X25. [detected_assets] holds, in ascending order and each once, the
    assets that are not the empty text and are named by the mapping of a
    mapped column; the asset of every parsed cell, unless it is [None] or
    empty, is among them; and [multi_asset_detected] tells whether they are
    two or more. *)
Theorem detected_assets_are_those_of_mapped_columns
    (agent : ExcelParsingAgent) (raw_data : list (list pyval)) :
  status (parse_file agent raw_data) = "success" ->
  exists header_mappings md,
    map_headers agent (headers_of_sheet raw_data) = ret header_mappings
    /\ metadata (parse_file agent raw_data) = Some md
    /\ LocallySorted precedes (detected_assets (parse_file agent raw_data))
    /\ NoDup (detected_assets (parse_file agent raw_data))
    /\ (forall a,
          In a (detected_assets (parse_file agent raw_data))
          <-> a <> ""
              /\ exists m, In m header_mappings
                           /\ m_param_name m <> None
                           /\ m_asset_name m = Some a)
    /\ Forall (fun c =>
                 forall a, c_asset_name c = Some a -> a <> "" ->
                           In a (detected_assets (parse_file agent raw_data)))
              (parsed_data (parse_file agent raw_data))
    /\ multi_asset_detected md
       = Nat.leb 2 (List.length
                      (detected_assets (parse_file agent raw_data))).
Proof.
  intros S. apply parse_file_success in S.
  destruct (parse_sheet_parts _ _ _ S) as [ms [st [M [L [P E]]]]].
  exists ms. eexists. split; [exact M | ]. rewrite E.
  cbn [metadata detected_assets parsed_data].
  split; [reflexivity | ].
  destruct (assets_gathered ms ([], []) (NoDup_nil _)) as [Nd I].
  assert (A : forall a,
             In a (sorted (snd (fold_left assets_step ms ([], []))))
             <-> a <> ""
                 /\ exists m, In m ms /\ m_param_name m <> None
                              /\ m_asset_name m = Some a).
  { intros a. rewrite sorted_in, I. cbn [snd In]. tauto. }
  split; [apply sorted_ordered | ].
  split; [now apply sorted_nodup | ].
  split; [exact A | split].
  - destruct (process_rows_spec _ _ _ _ _ P) as [cs [ws [C [_ [_ F]]]]].
    cbn [cells app] in C. rewrite C.
    eapply Forall_impl; [ | exact F].
    intros c [row [mapping [_ [_ [_ [_ [Nm Pf]]]]]]] a Ca Na.
    apply A. split; [exact Na | ]. exists mapping.
    destruct Pf as [name [tag [Pn [_ [_ [As _]]]]]].
    split; [exact (nth_error_In _ _ Nm) | ].
    rewrite Pn. split; [discriminate | congruence].
  - cbn [multi_asset_detected]. rewrite sorted_length. reflexivity.
Qed.

End SheetColumns.

Section SheetUnits.
Import registries models llm_agent value_parser parser.
Context `{Outside}.
#[local] Open Scope list_scope.

Lemma dict_set_keys (d : list (string * string)) (k v : string) :
  NoDup (map fst d) ->
  NoDup (map fst (dict_set d k v))
  /\ forall k', In k' (map fst (dict_set d k v)) <-> k' = k \/ In k' (map fst d).
Proof.
  induction d as [ | [k0 v0] d IH]; intros N; cbn [dict_set map fst].
  - split; [constructor; [intros [] | constructor] | ].
    intros k'. cbn [In]. split; intros [E | []]; left; congruence.
  - inversion N as [ | ? ? N0 Nd]; subst.
    destruct (String.eqb_spec k0 k) as [-> | Nk]; cbn [map fst].
    + split; [exact N | ]. intros k'. cbn [In]. split; [tauto | ].
      intros [-> | I]; [now left | exact I].
    + destruct (IH Nd) as [Nd' I']. split.
      * constructor; [ | exact Nd']. rewrite I'.
        intros [E | I]; [congruence | contradiction].
      * intros k'. cbn [In]. rewrite I'. tauto.
Qed.

Lemma dict_set_in (d : list (string * string)) (k v k' v' : string) :
  NoDup (map fst d) ->
  In (k', v') (dict_set d k v)
  <-> (k' = k /\ v' = v) \/ (k' <> k /\ In (k', v') d).
Proof.
  induction d as [ | [k0 v0] d IH]; intros N; cbn [dict_set].
  - cbn [In]. split.
    + intros [E | []]. inversion E. now left.
    + intros [[-> ->] | [_ []]]. now left.
  - inversion N as [ | ? ? N0 Nd]; subst. cbn [map fst] in N0.
    destruct (String.eqb_spec k0 k) as [-> | Nk]; cbn [In].
    + split.
      * intros [E | I]; [inversion E; now left | right].
        split; [ | now right]. intros ->. apply N0.
        now apply (in_map fst) in I.
      * intros [[-> ->] | [Nk [E | I]]]; [now left | | now right].
        inversion E. congruence.
    + rewrite (IH Nd). split.
      * intros [E | [[-> ->] | [Nk' I]]].
        -- inversion E; subst. right. split; [exact Nk | now left].
        -- now left.
        -- right. split; [exact Nk' | now right].
      * intros [[-> ->] | [Nk' [E | I]]].
        -- right. now left.
        -- now left.
        -- right. right. now split.
Qed.

(** The units gathered by [units_step], over a dict whose entries are
    already units of the registry. *)
Lemma units_gathered (header_mappings : list MappingResult)
    (d : list (string * string)) :
  NoDup (map fst d) ->
  (forall k v, In (k, v) d -> k <> "" /\ get_parameter_unit k = Some v) ->
  NoDup (map fst (fold_left units_step header_mappings d))
  /\ forall k v,
       In (k, v) (fold_left units_step header_mappings d)
       <-> In (k, v) d
           \/ (k <> ""
               /\ (exists m, In m header_mappings /\ m_param_name m = Some k)
               /\ get_parameter_unit k = Some v).
Proof.
  revert d. induction header_mappings as [ | m ms IH]; intros d N G;
    cbn [fold_left].
  - split; [exact N | ]. intros k v. split; [tauto | ].
    intros [I | [_ [[m [[] _]] _]]]. exact I.
  - assert (Step : NoDup (map fst (units_step d m))
                   /\ forall k v,
                        In (k, v) (units_step d m)
                        <-> In (k, v) d
                            \/ (k <> "" /\ m_param_name m = Some k
                                /\ get_parameter_unit k = Some v)).
    { unfold units_step.
      destruct (m_param_name m) as [name | ] eqn:Pn.
      - destruct (String.eqb_spec name "") as [-> | Nn].
        + split; [exact N | ]. intros k v. split; [tauto | ].
          intros [I | [Nk [E _]]]; [exact I | ]. inversion E. congruence.
        + destruct (get_parameter_by_name name) as [p | ] eqn:F.
          * split; [exact (proj1 (dict_set_keys d name _ N)) | ].
            intros k v. rewrite (dict_set_in _ _ _ _ _ N). split.
            -- intros [[-> ->] | [Nk I]]; [right | now left].
               unfold get_parameter_unit. rewrite F. now repeat split.
            -- intros [I | [Nk [E U]]].
               ++ destruct (string_dec k name) as [-> | D]; [ | now right].
                  left. split; [reflexivity | ].
                  destruct (G _ _ I) as [_ U].
                  unfold get_parameter_unit in U. rewrite F in U.
                  now inversion U.
               ++ inversion E; subst k. left. split; [reflexivity | ].
                  unfold get_parameter_unit in U. rewrite F in U.
                  now inversion U.
          * split; [exact N | ]. intros k v. split; [tauto | ].
            intros [I | [Nk [E U]]]; [exact I | ]. inversion E; subst k.
            unfold get_parameter_unit in U. rewrite F in U. discriminate U.
      - split; [exact N | ]. intros k v. split; [tauto | ].
        intros [I | [_ [E _]]]; [exact I | discriminate E]. }
    destruct Step as [N' S].
    assert (G' : forall k v, In (k, v) (units_step d m) ->
                             k <> "" /\ get_parameter_unit k = Some v).
    { intros k v I. apply S in I. destruct I as [I | [Nk [_ U]]];
        [now apply G | now split]. }
    destruct (IH _ N' G') as [Nd I]. split; [exact Nd | ].
    intros k v. rewrite I, S. split.
    + intros [[J | [Nk [E U]]] | [Nk [[m' [J E]] U]]].
      * now left.
      * right. split; [exact Nk | split; [ | exact U]].
        exists m. split; [now left | exact E].
      * right. split; [exact Nk | split; [ | exact U]].
        exists m'. split; [now right | exact E].
    + intros [J | [Nk [[m' [[<- | J] E]] U]]].
      * left. now left.
      * left. right. now repeat split.
      * right. split; [exact Nk | split; [ | exact U]]. now exists m'.
Qed.

(** X26. [units] holds one entry for every parameter name that is not the
    empty text, is given by the mapping of a column and is known to the
    registry, with the unit the registry gives, and nothing else; a name
    that the oracle made up gets no unit. *)
Theorem units_come_from_the_registry (agent : ExcelParsingAgent)
    (raw_data : list (list pyval)) :
  status (parse_file agent raw_data) = "success" ->
  exists header_mappings,
    map_headers agent (headers_of_sheet raw_data) = ret header_mappings
    /\ NoDup (map fst (units (parse_file agent raw_data)))
    /\ forall name unit,
         In (name, unit) (units (parse_file agent raw_data))
         <-> name <> ""
             /\ (exists m, In m header_mappings
                           /\ m_param_name m = Some name)
             /\ get_parameter_unit name = Some unit.
Proof.
  intros S. apply parse_file_success in S.
  destruct (parse_sheet_parts _ _ _ S) as [ms [st [M [_ [_ E]]]]].
  exists ms. split; [exact M | ]. rewrite E. cbn [units].
  destruct (units_gathered ms [] (NoDup_nil _)) as [N I].
  { intros k v []. }
  split; [exact N | ]. intros name unit. rewrite I. cbn [In]. tauto.
Qed.

End SheetUnits.

(** The sheet of two assets, no oracle configured. *)
Lemma unmapped_columns_hold_no_cell_witness :
  exists header_mappings md,
    @llm_agent.map_headers offline (llm_agent.new_agent None)
      (@headers_of_sheet offline two_asset_sheet) = ret header_mappings
    /\ models.metadata
         (@parser.parse_file offline (llm_agent.new_agent None)
            two_asset_sheet) = Some md
    /\ map models.u_col
           (models.unmapped_columns
              (@parser.parse_file offline (llm_agent.new_agent None)
                 two_asset_sheet))
       = filter (fun i => negb (is_mapped header_mappings i))
                (seq 0 (List.length header_mappings))
    /\ Forall (fun c =>
                 ~ In (models.c_col c)
                      (map models.u_col
                           (models.unmapped_columns
                              (@parser.parse_file offline
                                 (llm_agent.new_agent None)
                                 two_asset_sheet))))
              (models.parsed_data
                 (@parser.parse_file offline (llm_agent.new_agent None)
                    two_asset_sheet))
    /\ models.unmapped_columns_count md
       = List.length
           (models.unmapped_columns
              (@parser.parse_file offline (llm_agent.new_agent None)
                 two_asset_sheet))
    /\ models.total_columns md
       = List.length (nth (header_row_of two_asset_sheet) two_asset_sheet [])
    /\ models.mapped_columns md + models.unmapped_columns_count md
       <= models.total_columns md.
Proof.
  apply (@unmapped_columns_hold_no_cell offline
           (llm_agent.new_agent None) two_asset_sheet).
  vm_compute. reflexivity.
Defined.

(** The same sheet. *)
Lemma detected_assets_are_those_of_mapped_columns_witness :
  exists header_mappings md,
    @llm_agent.map_headers offline (llm_agent.new_agent None)
      (@headers_of_sheet offline two_asset_sheet) = ret header_mappings
    /\ models.metadata
         (@parser.parse_file offline (llm_agent.new_agent None)
            two_asset_sheet) = Some md
    /\ LocallySorted precedes
         (models.detected_assets
            (@parser.parse_file offline (llm_agent.new_agent None)
               two_asset_sheet))
    /\ NoDup (models.detected_assets
                (@parser.parse_file offline (llm_agent.new_agent None)
                   two_asset_sheet))
    /\ (forall a,
          In a (models.detected_assets
                  (@parser.parse_file offline (llm_agent.new_agent None)
                     two_asset_sheet))
          <-> a <> ""
              /\ exists m, In m header_mappings
                           /\ models.m_param_name m <> None
                           /\ models.m_asset_name m = Some a)
    /\ Forall (fun c =>
                 forall a, models.c_asset_name c = Some a -> a <> "" ->
                           In a (models.detected_assets
                                   (@parser.parse_file offline
                                      (llm_agent.new_agent None)
                                      two_asset_sheet)))
              (models.parsed_data
                 (@parser.parse_file offline (llm_agent.new_agent None)
                    two_asset_sheet))
    /\ models.multi_asset_detected md
       = Nat.leb 2 (List.length
                      (models.detected_assets
                         (@parser.parse_file offline
                            (llm_agent.new_agent None) two_asset_sheet))).
Proof.
  apply (@detected_assets_are_those_of_mapped_columns offline
           (llm_agent.new_agent None) two_asset_sheet).
  vm_compute. reflexivity.
Defined.

(** The same sheet. *)
Lemma units_come_from_the_registry_witness :
  exists header_mappings,
    @llm_agent.map_headers offline (llm_agent.new_agent None)
      (@headers_of_sheet offline two_asset_sheet) = ret header_mappings
    /\ NoDup (map fst
                (models.units
                   (@parser.parse_file offline (llm_agent.new_agent None)
                      two_asset_sheet)))
    /\ forall name unit,
         In (name, unit)
            (models.units
               (@parser.parse_file offline (llm_agent.new_agent None)
                  two_asset_sheet))
         <-> name <> ""
             /\ (exists m, In m header_mappings
                           /\ models.m_param_name m = Some name)
             /\ registries.get_parameter_unit name = Some unit.
Proof.
  apply (@units_come_from_the_registry offline
           (llm_agent.new_agent None) two_asset_sheet).
  vm_compute. reflexivity.
Defined.

Section SheetValues.
Import models llm_agent value_parser parser.
Context `{Outside}.
#[local] Open Scope list_scope.

(** X28. A parsed cell without a value never keeps the confidence high,
    whatever the mapping of its column says, the oracle's words included:
    its confidence is ["medium"] (an empty or unreadable cell) or ["low"] (a
    boolean under a numeric parameter). *)
Theorem valueless_cell_is_medium_or_low (agent : ExcelParsingAgent)
    (raw_data : list (list pyval)) :
  Forall (fun c =>
            c_parsed_value c = None ->
            c_confidence c = "medium" \/ c_confidence c = "low")
         (parsed_data (parse_file agent raw_data)).
Proof.
  unfold parse_file. destruct raw_data as [ | first rest];
    [constructor | ].
  destruct (parse_sheet agent (first :: rest)) as [e | response] eqn:P;
    [constructor | ].
  destruct (parse_sheet_parts _ _ _ P) as [ms [st [_ [_ [R E]]]]].
  rewrite E. cbn [parsed_data].
  destruct (process_rows_spec _ _ _ _ _ R) as [cs [ws [C [_ [_ F]]]]].
  cbn [cells app] in C. rewrite C.
  eapply Forall_impl; [ | exact F].
  intros c [row [mapping [_ [_ [_ [_ [_ Pf]]]]]]] N.
  destruct Pf as [name [tag [_ [Pv [_ [_ [_ [Cf _]]]]]]]].
  rewrite Cf, N. rewrite N in Pv.
  destruct (parse_value_tag_cases _ _ _ _ Pv) as [_ T].
  apply proj1 in T. specialize (T eq_refl). cbn [In] in T.
  unfold final_confidence, validate_value. cbn [fst negb].
  destruct T as [<- | [<- | [<- | []]]]; cbn;
    destruct ((m_confidence mapping =? "high")%string); tauto.
Qed.

End SheetValues.

Section SheetWarnings.
Import models llm_agent value_parser parser.
Context `{Outside}.
#[local] Open Scope list_scope.

Lemma process_cell_warning (mapping : MappingResult) (name : string)
    (row_idx col_idx : nat) (cell_value : pyval) (st st' : run) :
  process_cell mapping name row_idx col_idx cell_value st = ret st' ->
  exists c,
    cells st' = cells st ++ [c]
    /\ warns st' = warns st ++ match warning_of_cell c with
                               | Some w => [w]
                               | None => []
                               end.
Proof.
  unfold process_cell.
  destruct (parse_value cell_value (Some name)) as [e | [pv tag]];
    cbn [bind]; [discriminate | ].
  destruct (validate_value pv (Some name)) as [is_valid w] eqn:V.
  set (c := mkParsedCell _ _ _ _ _ _ _ _).
  assert (W : warning_of_cell c
              = match w with
                | Some w => Some (cell_warning row_idx col_idx w)
                | None => None
                end).
  { unfold warning_of_cell. subst c.
    cbn [c_parsed_value c_param_name c_row c_col]. now rewrite V. }
  intros E. exists c. rewrite W.
  destruct w as [w | ]; inversion E; subst st';
    cbn [add_warning add_cell cells warns]; rewrite ?app_nil_r; now split.
Qed.

Lemma process_cells_warnings (header_mappings : list MappingResult)
    (n_headers row_idx : nat) (items : list (nat * pyval)) (st st' : run) :
  process_cells header_mappings n_headers row_idx items st = ret st' ->
  exists cs ws,
    cells st' = cells st ++ cs /\ warns st' = warns st ++ ws
    /\ forall w, In w ws
                 <-> exists c, In c cs /\ warning_of_cell c = Some w.
Proof.
  revert st. induction items as [ | [col_idx cell_value] items IH];
    intros st; cbn [process_cells].
  - intros E; inversion E; subst. exists [], []. rewrite !app_nil_r.
    repeat split; [intros [] | intros [c [[] _]]].
  - destruct (Nat.leb n_headers col_idx).
    { intros E; inversion E; subst. exists [], []. rewrite !app_nil_r.
      repeat split; [intros [] | intros [c [[] _]]]. }
    destruct (nth_error header_mappings col_idx) as [mapping | ];
      [ | discriminate].
    destruct (m_param_name mapping) as [name | ]; [ | apply IH].
    destruct (process_cell mapping name row_idx col_idx cell_value st)
      as [e | st1] eqn:P; cbn [bind]; [discriminate | ].
    intros E. destruct (process_cell_warning _ _ _ _ _ _ _ P) as [c [C1 W1]].
    destruct (IH _ E) as [cs [ws [C [W I]]]].
    exists (c :: cs), (match warning_of_cell c with
                       | Some w => [w]
                       | None => []
                       end ++ ws).
    rewrite C, C1, W, W1, <- !app_assoc. cbn [app].
    split; [reflexivity | split; [reflexivity | ]].
    intros w. rewrite in_app_iff, I. cbn [In]. split.
    + intros [J | [c' [J E']]].
      * exists c. split; [now left | ].
        destruct (warning_of_cell c) as [w' | ]; [ | contradiction].
        destruct J as [<- | []]. reflexivity.
      * exists c'. split; [now right | exact E'].
    + intros [c' [[<- | J] E']].
      * left. rewrite E'. now left.
      * right. now exists c'.
Qed.

Lemma process_rows_warnings (header_mappings : list MappingResult)
    (n_headers : nat) (rows : list (nat * list pyval)) (st st' : run) :
  process_rows header_mappings n_headers rows st = ret st' ->
  exists cs ws,
    cells st' = cells st ++ cs /\ warns st' = warns st ++ ws
    /\ forall w,
         In w ws
         <-> (exists row_idx row,
                In (row_idx, row) rows /\ existsb truthy row = false
                /\ w = skip_warning row_idx)
             \/ (exists c, In c cs /\ warning_of_cell c = Some w).
Proof.
  revert st. induction rows as [ | [row_idx row] rows IH]; intros st;
    cbn [process_rows].
  - intros E; inversion E; subst. exists [], []. rewrite !app_nil_r.
    repeat split; [intros [] | ].
    intros [[r [row [[] _]]] | [c [[] _]]].
  - destruct (process_row header_mappings n_headers row_idx row st)
      as [e | st1] eqn:R; cbn [bind]; [discriminate | ].
    intros E. destruct (IH _ E) as [cs [ws [C [W I]]]].
    unfold process_row in R.
    destruct (existsb truthy row) eqn:T; cbn [negb] in R.
    + destruct (process_cells_warnings _ _ _ _ _ _ R)
        as [cs1 [ws1 [C1 [W1 I1]]]].
      exists (cs1 ++ cs), (ws1 ++ ws).
      rewrite C, C1, W, W1, <- !app_assoc.
      split; [reflexivity | split; [reflexivity | ]].
      intros w. rewrite in_app_iff, I, I1. split.
      * intros [[c [J E']] | [[r [row0 [J [F E']]]] | [c [J E']]]].
        -- right. exists c. split; [apply in_or_app; now left | exact E'].
        -- left. exists r, row0. split; [now right | now split].
        -- right. exists c. split; [apply in_or_app; now right | exact E'].
      * intros [[r [row0 [[J | J] [F E']]]] | [c [J E']]].
        -- inversion J; subst. congruence.
        -- right. left. exists r, row0. now repeat split.
        -- apply in_app_or in J. destruct J as [J | J].
           ++ left. now exists c.
           ++ right. right. now exists c.
    + inversion R; subst st1; clear R.
      cbn [add_warning cells warns] in C, W.
      exists cs, ([skip_warning row_idx] ++ ws).
      rewrite C, W, <- app_assoc.
      split; [reflexivity | split; [reflexivity | ]].
      intros w. rewrite in_app_iff, I. cbn [In]. split.
      * intros [[<- | []] | [[r [row0 [J [F E']]]] | [c [J E']]]].
        -- left. exists row_idx, row. split; [now left | now split].
        -- left. exists r, row0. split; [now right | now split].
        -- right. now exists c.
      * intros [[r [row0 [[J | J] [F E']]]] | [c [J E']]].
        -- inversion J; subst. left. now left.
        -- right. left. exists r, row0. now repeat split.
        -- right. right. now exists c.
Qed.

(** X29. Every warning of a successful response has a cause, and every
    cause leaves its warning: the warnings are the two texts about the
    header row, one text for each data row that holds no cell true in a
    test, the warning that the validation attached to a parsed cell, under
    the coordinates of that cell, and the duplication warnings. *)
Theorem every_warning_has_a_cause (agent : ExcelParsingAgent)
    (raw_data : list (list pyval)) :
  status (parse_file agent raw_data) = "success" ->
  exists header_mappings,
    map_headers agent (headers_of_sheet raw_data) = ret header_mappings
    /\ forall text,
         In text (warnings (parse_file agent raw_data))
         <-> (exists w, In w (header_warnings (header_row_of raw_data))
                        /\ text = render w)
             \/ (exists row_idx row,
                   header_row_of raw_data < row_idx
                   /\ nth_error raw_data row_idx = Some row
                   /\ existsb truthy row = false
                   /\ text = render (skip_warning row_idx))
             \/ (exists c w,
                   In c (parsed_data (parse_file agent raw_data))
                   /\ warning_of_cell c = Some w
                   /\ text = render w)
             \/ In text (duplicate_warnings (group_columns header_mappings)).
Proof.
  intros S. apply parse_file_success in S.
  destruct (parse_sheet_parts _ _ _ S) as [ms [st [M [_ [P E]]]]].
  exists ms. split; [exact M | ]. rewrite E.
  cbn [warnings parsed_data]. clear E S.
  destruct (process_rows_warnings _ _ _ _ _ P) as [cs [ws [C [W I]]]].
  cbn [cells app] in C. cbn [warns] in W.
  fold (header_warnings (header_row_of raw_data)) in W.
  rewrite C. intros text.
  rewrite (proj2 (unique_from_spec [] _) text), in_app_iff, in_map_iff, W.
  split.
  - intros [[[w [<- J]] | J] _].
    + apply in_app_or in J. destruct J as [J | J].
      * left. now exists w.
      * apply I in J. destruct J as [[r [row [J [F ->]]]] | [c [J E']]].
        -- right. left. apply in_data_rows in J. destruct J as [L N].
           exists r, row. now repeat split.
        -- right. right. left. now exists c, w.
    + right. right. now right.
  - intros J. split; [ | intros []].
    destruct J as [[w [J ->]] | [[r [row [L [N [F ->]]]]] | [[c [w [J [E' ->]]]] | J]]].
    + left. exists w. split; [reflexivity | apply in_or_app; now left].
    + left. exists (skip_warning r). split; [reflexivity | ].
      apply in_or_app. right. apply I. left. exists r, row.
      split; [apply in_data_rows; now split | now split].
    + left. exists w. split; [reflexivity | ].
      apply in_or_app. right. apply I. right. now exists c.
    + now right.
Qed.

Lemma duplicate_warning_shape (d : list (key * list nat)) (text : string) :
  In text (duplicate_warnings d) ->
  exists param asset c0 c1, text = duplication_warning param asset c0 c1.
Proof.
  induction d as [ | [[param asset] cols] d IH]; cbn [duplicate_warnings];
    [intros [] | ].
  destruct cols as [ | c0 [ | c1 cols]]; try exact IH.
  intros [<- | I]; [ | exact (IH I)]. now exists param, asset, c0, c1.
Qed.

(** An answer that is not a success holds no cell and no warning. *)
Lemma parse_file_failure (agent : ExcelParsingAgent)
    (raw_data : list (list pyval)) :
  status (parse_file agent raw_data) <> "success" ->
  parsed_data (parse_file agent raw_data) = []
  /\ warnings (parse_file agent raw_data) = [].
Proof.
  unfold parse_file. destruct raw_data as [ | first rest];
    [now split | ].
  destruct (parse_sheet agent (first :: rest)) as [e | response] eqn:P;
    [now split | ].
  destruct (parse_sheet_parts _ _ _ P) as [ms [st [_ [_ [_ ->]]]]].
  intros N. now destruct N.
Qed.

(** Every warning of [parse_file] opens with the letter of its kind. *)
Lemma warning_initial (agent : ExcelParsingAgent)
    (raw_data : list (list pyval)) (text : string) :
  In text (warnings (parse_file agent raw_data)) ->
  String.get 0 text = Some "D"%char \/ String.get 0 text = Some "R"%char
  \/ String.get 0 text = Some "C"%char.
Proof.
  destruct (string_dec (status (parse_file agent raw_data)) "success")
    as [S | S].
  - apply parse_file_success in S.
    destruct (parse_sheet_parts _ _ _ S) as [ms [st [_ [_ [P E]]]]].
    rewrite E. cbn [warnings]. clear E S.
    destruct (process_rows_warnings _ _ _ _ _ P) as [cs [ws [_ [W I]]]].
    cbn [warns] in W. intros J.
    apply (proj2 (unique_from_spec [] _) text) in J. destruct J as [J _].
    apply in_app_or in J. destruct J as [J | J].
    + apply in_map_iff in J. destruct J as [w [<- J]]. rewrite W in J.
      apply in_app_or in J. destruct J as [J | J].
      * destruct J as [<- | J]; [rewrite render_text; now left | ].
        destruct (Nat.ltb 0 (header_row_of raw_data)); [ | destruct J].
        destruct J as [<- | []]. rewrite render_text. right. now left.
      * apply I in J. destruct J as [[r [row [_ [_ ->]]]] | [c [_ E]]].
        -- unfold skip_warning. rewrite render_text. right. now left.
        -- unfold warning_of_cell in E.
           destruct (snd (validate_value _ _)); [ | discriminate].
           inversion E. right. now left.
    + apply duplicate_warning_shape in J.
      destruct J as [param [asset [c0 [c1 ->]]]]. right. now right.
  - intros J. rewrite (proj2 (parse_file_failure _ _ S)) in J. destruct J.
Qed.

(** X27. [parse_file_chunks] marks its response as chunked exactly when
    [parse_file] parsed more cells than the chunk size; an answer that is an
    error holds no cell and is never marked. The warnings of the response do
    not repeat: they are those of [parse_file] followed, when the response
    is marked, by the notice ["Large file detected. Data was processed in
    chunks of <size> rows."], which is none of the warnings of
    [parse_file]. *)
Theorem chunk_notice_is_told_once (agent : ExcelParsingAgent)
    (raw_data : list (list pyval)) (size : nat) :
  (chunking_used (parse_file_chunks agent raw_data size) = true
   <-> size < List.length (parsed_data (parse_file agent raw_data)))
  /\ ~ In ("Large file detected. Data was processed in chunks of "
           ++ Str.of_nat size ++ " rows.")%string
          (warnings (parse_file agent raw_data))
  /\ warnings (response (parse_file_chunks agent raw_data size))
     = warnings (parse_file agent raw_data)
       ++ (if Nat.ltb size
                (List.length (parsed_data (parse_file agent raw_data)))
           then [("Large file detected. Data was processed in chunks of "
                  ++ Str.of_nat size ++ " rows.")%string]
           else [])
  /\ NoDup (warnings (response (parse_file_chunks agent raw_data size))).
Proof.
  assert (N : ~ In ("Large file detected. Data was processed in chunks of "
                    ++ Str.of_nat size ++ " rows.")%string
                   (warnings (parse_file agent raw_data))).
  { intros J. apply warning_initial in J.
    destruct J as [J | [J | J]]; discriminate J. }
  assert (D : NoDup (warnings (parse_file agent raw_data))).
  { destruct (string_dec (status (parse_file agent raw_data)) "success")
      as [S | S].
    - apply parse_file_success in S.
      destruct (parse_sheet_parts _ _ _ S) as [ms [st [_ [_ [_ E]]]]].
      rewrite E. cbn [warnings]. exact (proj1 (unique_from_spec [] _)).
    - rewrite (proj2 (parse_file_failure _ _ S)). constructor. }
  unfold parse_file_chunks. cbv zeta.
  destruct (String.eqb_spec (status (parse_file agent raw_data)) "success")
    as [S | S]; cbn [andb].
  - destruct (Nat.ltb_spec size
                (List.length (parsed_data (parse_file agent raw_data))))
      as [L | L]; cbn [chunking_used response with_warning warnings].
    + split; [tauto | split; [exact N | split; [reflexivity | ]]].
      apply NoDup_app; [exact D | repeat constructor; intros [] | ].
      intros a J [<- | []]. exact (N J).
    + split; [split; [discriminate | lia] | ].
      split; [exact N | split; [now rewrite app_nil_r | exact D]].
  - destruct (parse_file_failure _ _ S) as [P W].
    cbn [chunking_used response]. rewrite P. cbn [List.length Nat.ltb Nat.leb].
    split; [split; [discriminate | lia] | ].
    split; [exact N | split; [now rewrite app_nil_r | exact D]].
Qed.

End SheetWarnings.

(** The sheet of two assets, no oracle configured. *)
Lemma every_warning_has_a_cause_witness :
  exists header_mappings,
    @llm_agent.map_headers offline (llm_agent.new_agent None)
      (@headers_of_sheet offline two_asset_sheet) = ret header_mappings
    /\ forall text,
         In text (models.warnings
                    (@parser.parse_file offline (llm_agent.new_agent None)
                       two_asset_sheet))
         <-> (exists w, In w (header_warnings (header_row_of two_asset_sheet))
                        /\ text = @render offline w)
             \/ (exists row_idx row,
                   header_row_of two_asset_sheet < row_idx
                   /\ nth_error two_asset_sheet row_idx = Some row
                   /\ existsb truthy row = false
                   /\ text = @render offline (parser.skip_warning row_idx))
             \/ (exists c w,
                   In c (models.parsed_data
                           (@parser.parse_file offline
                              (llm_agent.new_agent None) two_asset_sheet))
                   /\ warning_of_cell c = Some w
                   /\ text = @render offline w)
             \/ In text (parser.duplicate_warnings
                           (parser.group_columns header_mappings)).
Proof.
  apply (@every_warning_has_a_cause offline
           (llm_agent.new_agent None) two_asset_sheet).
  vm_compute. reflexivity.
Defined.

Section SheetParameters.
Import registries models llm_agent value_parser parser.
Context `{Outside}.
#[local] Open Scope list_scope.

Lemma entry_in {A : Type} (d : list (string * A)) (k : string) (a : A) :
  NoDup (map fst d) -> (In (k, a) d <-> entry d k = Some a).
Proof.
  unfold entry. induction d as [ | [k0 a0] d IH]; intros N;
    cbn [find fst In option_map].
  - split; [intros [] | discriminate].
  - inversion N as [ | ? ? N0 Nd]; subst.
    destruct (String.eqb_spec k0 k) as [-> | Nk]; cbn [option_map snd].
    + split.
      * intros [E | I]; [now inversion E | ].
        exfalso. apply N0. now apply (in_map fst) in I.
      * intros E. inversion E. now left.
    + rewrite <- (IH Nd). split; [ | tauto].
      intros [E | I]; [inversion E; congruence | exact I].
Qed.

Lemma entry_keys {A : Type} (d : list (string * A)) (k : string) :
  In k (map fst d) <-> entry d k <> None.
Proof.
  unfold entry. induction d as [ | [k0 a0] d IH];
    cbn [map find fst In option_map].
  - split; [intros [] | intros N; now contradiction N].
  - destruct (String.eqb_spec k0 k) as [-> | Nk]; cbn [option_map].
    + split; [discriminate | now left].
    + rewrite <- IH. split; [ | tauto]. intros [E | I]; [congruence | exact I].
Qed.

Lemma add_param_asset_entry (param_assets : list (string * list string))
    (param : string) (asset : option string) (p : string) :
  entry (add_param_asset param_assets param asset) p
  = if String.eqb param p
    then Some (with_asset asset
                 (match entry param_assets param with
                  | Some s => s
                  | None => []
                  end))
    else entry param_assets p.
Proof.
  unfold entry.
  induction param_assets as [ | [p0 s0] d IH];
    cbn [add_param_asset find fst option_map snd].
  - destruct (param =? p)%string; reflexivity.
  - destruct (String.eqb_spec p0 param) as [-> | N0];
      cbn [find fst option_map snd].
    + destruct (param =? p)%string; reflexivity.
    + destruct (String.eqb_spec p0 p) as [-> | Np]; cbn [option_map snd].
      * destruct (String.eqb_spec param p); [congruence | reflexivity].
      * exact IH.
Qed.

Lemma add_param_asset_keys (param_assets : list (string * list string))
    (param : string) (asset : option string) :
  NoDup (map fst param_assets) ->
  NoDup (map fst (add_param_asset param_assets param asset)).
Proof.
  induction param_assets as [ | [p0 s0] d IH]; intros N;
    cbn [add_param_asset map fst].
  - constructor; [intros [] | constructor].
  - inversion N as [ | ? ? N0 Nd]; subst.
    destruct (String.eqb_spec p0 param) as [-> | Np]; cbn [map fst];
      [exact N | ].
    constructor; [ | now apply IH].
    rewrite entry_keys, add_param_asset_entry.
    destruct (String.eqb_spec param p0); [congruence | ].
    now rewrite <- entry_keys.
Qed.

Lemma with_asset_in (asset : option string) (s : list string) (a : string) :
  In a (with_asset asset s) <-> In a s \/ (asset = Some a /\ a <> "").
Proof.
  unfold with_asset. destruct asset as [b | ].
  - destruct (String.eqb_spec b "") as [-> | Nb].
    + split; [tauto | ]. intros [I | [E N]]; [exact I | ].
      inversion E. congruence.
    + rewrite set_add_in. split.
      * intros [-> | I]; [right; now split | now left].
      * intros [I | [E _]]; [now right | inversion E; now left].
  - split; [tauto | ]. intros [I | [E _]]; [exact I | discriminate E].
Qed.

Lemma with_asset_nodup (asset : option string) (s : list string) :
  NoDup s -> NoDup (with_asset asset s).
Proof.
  intros N. unfold with_asset. destruct asset as [b | ]; [ | exact N].
  destruct (b =? "")%string; [exact N | now apply set_add_nodup].
Qed.

(** The dict [param_assets] after the loop over the mappings. *)
Lemma parameters_gathered (header_mappings : list MappingResult)
    (acc : list (string * list string) * list string) :
  NoDup (map fst (fst acc)) ->
  (forall p s, entry (fst acc) p = Some s -> NoDup s) ->
  NoDup (map fst (fst (fold_left assets_step header_mappings acc)))
  /\ forall p,
       match entry (fst (fold_left assets_step header_mappings acc)) p with
       | Some s =>
           NoDup s
           /\ (entry (fst acc) p <> None
               \/ exists m, In m header_mappings /\ m_param_name m = Some p)
           /\ forall a,
                In a s
                <-> (exists s0, entry (fst acc) p = Some s0 /\ In a s0)
                    \/ (a <> ""
                        /\ exists m, In m header_mappings
                                     /\ m_param_name m = Some p
                                     /\ m_asset_name m = Some a)
       | None =>
           entry (fst acc) p = None
           /\ forall m, In m header_mappings -> m_param_name m <> Some p
       end.
Proof.
  revert acc. induction header_mappings as [ | m ms IH]; intros acc N G;
    cbn [fold_left].
  - split; [exact N | ]. intros p.
    destruct (entry (fst acc) p) as [s | ] eqn:E.
    + split; [exact (G _ _ E) | split; [left; discriminate | ]].
      intros a. split.
      * intros I. left. now exists s.
      * intros [[s0 [E0 I]] | [_ [m [[] _]]]]. now inversion E0.
    + split; [reflexivity | intros m []].
  - assert (N' : NoDup (map fst (fst (assets_step acc m)))).
    { unfold assets_step. destruct (m_param_name m); [ | exact N].
      cbn [fst]. now apply add_param_asset_keys. }
    assert (G' : forall p s, entry (fst (assets_step acc m)) p = Some s ->
                             NoDup s).
    { unfold assets_step. destruct (m_param_name m) as [param | ];
        [ | exact G].
      cbn [fst]. intros p s. rewrite add_param_asset_entry.
      destruct (param =? p)%string; [ | apply G].
      intros E; inversion E. apply with_asset_nodup.
      destruct (entry (fst acc) param) as [s0 | ] eqn:E0;
        [exact (G _ _ E0) | constructor]. }
    destruct (IH _ N' G') as [Nd I]. split; [exact Nd | ].
    intros p. specialize (I p).
    assert (Step : entry (fst (assets_step acc m)) p
                   = match m_param_name m with
                     | Some param =>
                         if (param =? p)%string
                         then Some (with_asset (m_asset_name m)
                                      (match entry (fst acc) param with
                                       | Some s => s
                                       | None => []
                                       end))
                         else entry (fst acc) p
                     | None => entry (fst acc) p
                     end).
    { unfold assets_step. destruct (m_param_name m) as [param | ];
        [ | reflexivity].
      cbn [fst]. apply add_param_asset_entry. }
    rewrite Step in I. clear Step IH N' G' Nd.
    destruct (entry (fst (fold_left assets_step ms (assets_step acc m))) p)
      as [s | ].
    + destruct I as [Ns [Src I]]. split; [exact Ns | ].
      destruct (m_param_name m) as [param | ] eqn:Pn.
      * destruct (String.eqb_spec param p) as [-> | Np].
        -- split; [right; exists m; split; [now left | exact Pn] | ].
           intros a. rewrite I. split.
           ++ intros [[s0 [E0 J]] | [Na [m' [J R]]]].
              ** inversion E0; subst s0. apply with_asset_in in J.
                 destruct J as [J | [Ea Na]].
                 --- left. destruct (entry (fst acc) p) as [s1 | ];
                       [now exists s1 | contradiction].
                 --- right. split; [exact Na | ]. exists m.
                     split; [now left | now split].
              ** right. split; [exact Na | ]. exists m'.
                 split; [now right | exact R].
           ++ intros [[s0 [E0 J]] | [Na [m' [[<- | J] [Pm Am]]]]].
              ** left. eexists. split; [reflexivity | ].
                 apply with_asset_in. left. now rewrite E0.
              ** left. eexists. split; [reflexivity | ].
                 apply with_asset_in. right. now split.
              ** right. split; [exact Na | ]. now exists m'.
        -- split.
           ++ destruct Src as [Src | [m' [J R]]]; [now left | right].
              exists m'. split; [now right | exact R].
           ++ intros a. rewrite I. split.
              ** intros [J | [Na [m' [J R]]]]; [now left | right].
                 split; [exact Na | ]. exists m'. split; [now right | exact R].
              ** intros [J | [Na [m' [[<- | J] [Pm Am]]]]];
                   [now left | congruence | right].
                 split; [exact Na | ]. now exists m'.
      * split.
        -- destruct Src as [Src | [m' [J R]]]; [now left | right].
           exists m'. split; [now right | exact R].
        -- intros a. rewrite I. split.
           ++ intros [J | [Na [m' [J R]]]]; [now left | right].
              split; [exact Na | ]. exists m'. split; [now right | exact R].
           ++ intros [J | [Na [m' [[<- | J] [Pm Am]]]]];
                [now left | congruence | right].
              split; [exact Na | ]. now exists m'.
    + destruct I as [E I].
      destruct (m_param_name m) as [param | ] eqn:Pn.
      * destruct (String.eqb_spec param p) as [-> | Np]; [discriminate E | ].
        split; [exact E | ]. intros m' [<- | J]; [congruence | now apply I].
      * split; [exact E | ]. intros m' [<- | J]; [congruence | now apply I].
Qed.

(** X30. [parameters] has one key for every parameter name that the mapping
    of some column gives, and no other; under each key stand, in ascending
    order and each once, the assets that are not the empty text and are
    given together with that parameter by the mapping of some column. *)
Theorem parameters_list_the_assets_of_each_name (agent : ExcelParsingAgent)
    (raw_data : list (list pyval)) :
  status (parse_file agent raw_data) = "success" ->
  exists header_mappings,
    map_headers agent (headers_of_sheet raw_data) = ret header_mappings
    /\ NoDup (map fst (parameters (parse_file agent raw_data)))
    /\ (forall name,
          In name (map fst (parameters (parse_file agent raw_data)))
          <-> exists m, In m header_mappings /\ m_param_name m = Some name)
    /\ forall name assets,
         In (name, assets) (parameters (parse_file agent raw_data)) ->
         LocallySorted precedes assets
         /\ NoDup assets
         /\ forall a,
              In a assets
              <-> a <> ""
                  /\ exists m, In m header_mappings
                               /\ m_param_name m = Some name
                               /\ m_asset_name m = Some a.
Proof.
  intros S. apply parse_file_success in S.
  destruct (parse_sheet_parts _ _ _ S) as [ms [st [M [_ [_ E]]]]].
  exists ms. split; [exact M | ]. rewrite E. cbn [parameters]. clear E S.
  destruct (parameters_gathered ms ([], []) (NoDup_nil _)) as [N I].
  { intros p s. discriminate. }
  set (pa := fst (fold_left assets_step ms ([], []))) in *.
  assert (K : map fst (map (fun kv : string * list string =>
                              (fst kv, sorted (snd kv))) pa)
              = map fst pa)
    by (rewrite map_map; apply map_ext; reflexivity).
  rewrite K. split; [exact N | split].
  - intros name. rewrite entry_keys. specialize (I name).
    destruct (entry pa name) as [s | ].
    + destruct I as [_ [[Src | Src] _]]; [now contradiction Src | ].
      split; [intros _; exact Src | discriminate].
    + destruct I as [_ I]. split; [intros C; now contradiction C | ].
      intros [m [J R]]. now contradiction (I m J).
  - intros name assets J. apply in_map_iff in J.
    destruct J as [[p s] [J0 J]]. cbn [fst snd] in J0.
    inversion J0; subst p assets; clear J0.
    apply (entry_in _ _ _ N) in J. specialize (I name). rewrite J in I.
    destruct I as [Ns [_ I]].
    split; [apply sorted_ordered | split; [now apply sorted_nodup | ]].
    intros a. rewrite sorted_in, I. split.
    + intros [[s0 [E0 _]] | R]; [discriminate E0 | exact R].
    + intros R. now right.
Qed.

End SheetParameters.

(** The same sheet. *)
Lemma parameters_list_the_assets_of_each_name_witness :
  exists header_mappings,
    @llm_agent.map_headers offline (llm_agent.new_agent None)
      (@headers_of_sheet offline two_asset_sheet) = ret header_mappings
    /\ NoDup (map fst
                (models.parameters
                   (@parser.parse_file offline (llm_agent.new_agent None)
                      two_asset_sheet)))
    /\ (forall name,
          In name (map fst
                     (models.parameters
                        (@parser.parse_file offline
                           (llm_agent.new_agent None) two_asset_sheet)))
          <-> exists m, In m header_mappings
                        /\ models.m_param_name m = Some name)
    /\ forall name assets,
         In (name, assets)
            (models.parameters
               (@parser.parse_file offline (llm_agent.new_agent None)
                  two_asset_sheet)) ->
         LocallySorted precedes assets
         /\ NoDup assets
         /\ forall a,
              In a assets
              <-> a <> ""
                  /\ exists m, In m header_mappings
                               /\ models.m_param_name m = Some name
                               /\ models.m_asset_name m = Some a.
Proof.
  apply (@parameters_list_the_assets_of_each_name offline
           (llm_agent.new_agent None) two_asset_sheet).
  vm_compute. reflexivity.
Defined.
